(** * Sandwich bot: the opportunity pipeline, embedded and checked

    A shallow embedding of the pricing, bracket-building, evaluation,
    coordination, feed and balance code of the bot, together with the
    statements of its specification that can be settled on that code.

    Python [int] is [Z]; Python [float] is IEEE-754 binary64, taken from the
    standard library's [SpecFloat] at precision 53 and maximal exponent 1024,
    so every rounding the interpreter performs is performed here as well.
    Exceptions are values of an error type; the clock and the random
    generator are explicit inputs. *)

From Stdlib Require Import ZArith Lia Bool List String QArith Qround.
From Stdlib Require Import Floats.SpecFloat DecimalString.
Import ListNotations.

#[local] Open Scope Z_scope.

(* ================================================================== *)
(** ** Python values: exceptions, integers, binary64 floats *)
(* ================================================================== *)

Module Py.

(** The exceptions the modelled code can raise. *)
Inductive exn : Type :=
| ZeroDivisionError
| OverflowError
| ValueError
| StructError
| TimeoutError
| AttributeError
| TypeError
| OtherError (msg : string).

(** A computation either returns or raises. *)
Inductive result (A : Type) : Type :=
| Ok (a : A)
| Raise (e : exn).

Arguments Ok {A} a.
Arguments Raise {A} e.

Definition bind {A B : Type} (c : result A) (k : A -> result B) : result B :=
  match c with
  | Ok a => k a
  | Raise e => Raise e
  end.

Definition returns {A : Type} (c : result A) : bool :=
  match c with Ok _ => true | Raise _ => false end.

(** An awaited computation returns, raises, or is cancelled from outside
    (cancellation is not an [Exception] and passes every handler). *)
Inductive outcome (A : Type) : Type :=
| Done (a : A)
| Raised (e : exn)
| Cancelled.

Arguments Done {A} a.
Arguments Raised {A} e.
Arguments Cancelled {A}.

(** [try: ... except Exception: handler]. *)
Definition try_except {A : Type} (c : result A) (handler : exn -> A) : A :=
  match c with
  | Ok a => a
  | Raise e => handler e
  end.

(** *** binary64 *)

Definition float : Type := spec_float.

Definition prec : Z := 53.
Definition emax : Z := 1024.

Definition fadd : float -> float -> float := SFadd prec emax.
Definition fsub : float -> float -> float := SFsub prec emax.
Definition fmul : float -> float -> float := SFmul prec emax.
Definition fabs : float -> float := SFabs.
Definition flt : float -> float -> bool := SFltb.
Definition fle : float -> float -> bool := SFleb.

Definition is_nan (x : float) : bool :=
  match x with S754_nan => true | _ => false end.

Definition is_inf (x : float) : bool :=
  match x with S754_infinity _ => true | _ => false end.

Definition is_zero (x : float) : bool :=
  match x with S754_zero _ => true | _ => false end.

(** Zero or finite: neither an infinity nor a NaN. *)
Definition is_finite (x : float) : bool :=
  match x with S754_zero _ | S754_finite _ _ _ => true | _ => false end.

(** [signed s x]: [x] is a number (not a NaN) whose sign bit is [s]. *)
Definition signed (s : bool) (x : float) : Prop :=
  match x with
  | S754_zero s' | S754_infinity s' | S754_finite s' _ _ => s' = s
  | S754_nan => False
  end.

(** [bounded_by X E x]: [x] is zero, or finite of magnitude below
    [2 ^ X] with an exponent field of at most [E]. *)
Definition bounded_by (X E : Z) (x : float) : Prop :=
  match x with
  | S754_zero _ => True
  | S754_finite _ m e => Zpos m < 2 ^ (X - e) /\ e <= E
  | _ => False
  end.

(** The float [1.0]. *)
Definition one : float := S754_finite false 4503599627370496 (-52).

(** A fee rate that is a binary64 number of [[0, 1)]. *)
Definition unit_fee (fee : float) : Prop :=
  valid_binary prec emax fee = true /\
  fle (S754_zero false) fee = true /\
  flt fee one = true.

(** The rational a finite float stands for. *)
Definition float_to_Q (x : float) : Q :=
  match x with
  | S754_finite s m e =>
      let mag :=
        match e with
        | Zneg p => Qmake (Zpos m) (2 ^ p)%positive
        | _ => inject_Z (Zpos m * 2 ^ e)
        end in
      if s then Qopp mag else mag
  | _ => 0%Q
  end.

(** The float nearest to the ratio of two integers, ties to even; the
    divisor is not zero.  Mantissas of any size are accepted by the
    division core, so the quotient is rounded once. *)
Definition round_ratio (a b : Z) : float :=
  let s := xorb (a <? 0) (b <? 0) in
  match a with
  | Z0 => S754_zero s
  | _ =>
      let '(q, e, l) := SFdiv_core_binary prec emax (Z.abs a) 0 (Z.abs b) 0 in
      binary_round_aux prec emax s q e l
  end.

(** [float(n)] for an integer [n], as done implicitly by mixed
    arithmetic: round to nearest, ties to even; too large an integer
    raises. *)
Definition float_of_int (n : Z) : result float :=
  let x := binary_normalize prec emax n 0 false in
  if is_inf x then Raise OverflowError else Ok x.

(** A decimal literal [n / 10^k] of the source text. *)
Definition literal (n : Z) (k : Z) : float := round_ratio n (10 ^ k).

(** [a / b] on two ints (true division): correctly rounded quotient. *)
Definition int_truediv (a b : Z) : result float :=
  if b =? 0 then Raise ZeroDivisionError
  else
    let x := round_ratio a b in
    if is_inf x then Raise OverflowError else Ok x.

(** [x / y] on two floats. *)
Definition float_truediv (x y : float) : result float :=
  if is_zero y then Raise ZeroDivisionError
  else Ok (SFdiv prec emax x y).

(** [a // b] on two ints (floor division). *)
Definition int_floordiv (a b : Z) : result Z :=
  if b =? 0 then Raise ZeroDivisionError else Ok (a / b).

(** [int(x)] on a float: truncation toward zero. *)
Definition int_of_float (x : float) : result Z :=
  match x with
  | S754_zero _ => Ok 0
  | S754_infinity _ => Raise OverflowError
  | S754_nan => Raise ValueError
  | S754_finite s m e =>
      let mag :=
        match e with
        | Zneg p => Z.shiftr (Zpos m) (Zpos p)
        | _ => Z.shiftl (Zpos m) e
        end in
      Ok (if s then - mag else mag)
  end.

(** [n * x] for an int and a float. *)
Definition int_mul_float (n : Z) (x : float) : result float :=
  bind (float_of_int n) (fun fn => Ok (fmul fn x)).

(** [n - x] for an int and a float. *)
Definition int_sub_float (n : Z) (x : float) : result float :=
  bind (float_of_int n) (fun fn => Ok (fsub fn x)).

(** [x * n] for a float and an int. *)
Definition float_mul_int (x : float) (n : Z) : result float :=
  bind (float_of_int n) (fun fn => Ok (fmul x fn)).

(** [x / n] for a float and an int. *)
Definition float_div_int (x : float) (n : Z) : result float :=
  bind (float_of_int n) (fun fn => float_truediv x fn).

(** Built-in [min] on two arguments: the first one unless the second
    is strictly smaller. *)
Definition min2 (x y : float) : float := if flt y x then y else x.

(** Built-in [min] on three arguments, scanned from the left. *)
Definition min3 (x y z : float) : float := min2 (min2 x y) z.

(** [str(n)] for an int. *)
Definition str_of_int (n : Z) : string := NilZero.string_of_int (Z.to_int n).

End Py.

Import Py.

Declare Scope py_scope.
Notation "x <- c ;; k" := (Py.bind c (fun x => k))
  (at level 61, c at next level, right associativity) : py_scope.
Notation "' pat <- c ;; k" := (Py.bind c (fun pat => k))
  (at level 61, pat pattern, c at next level, right associativity) : py_scope.
#[local] Open Scope py_scope.

(* ================================================================== *)
(** ** src/core/transaction_builder.py *)
(* ================================================================== *)

Module TransactionBuilder.

(** [fee_rate: float = 0.0025] *)
Definition default_fee_rate : float := literal 25 4.

(** [calculate_swap_amounts]: expected output and price impact. *)
Definition calculate_swap_amounts
    (pool_liquidity_in pool_liquidity_out amount_in : Z) (fee_rate : float)
    : result (Z * float) :=
  one_minus_fee <- int_sub_float 1 fee_rate ;;
  scaled <- int_mul_float amount_in one_minus_fee ;;
  amount_in_after_fee <- int_of_float scaled ;;
  amount_out <- int_floordiv (pool_liquidity_out * amount_in_after_fee)
                             (pool_liquidity_in + amount_in_after_fee) ;;
  price_before <- int_truediv pool_liquidity_out pool_liquidity_in ;;
  price_after <- int_truediv (pool_liquidity_out - amount_out)
                             (pool_liquidity_in + amount_in) ;;
  price_impact <- float_truediv (fabs (fsub price_after price_before)) price_before ;;
  Ok (amount_out, price_impact).

(** The fee step of [calculate_swap_amounts] on its own:
    [int(amount_in * (1 - fee_rate))]. *)
Definition effective_in (amount_in : Z) (fee_rate : float) : result Z :=
  one_minus_fee <- int_sub_float 1 fee_rate ;;
  scaled <- int_mul_float amount_in one_minus_fee ;;
  int_of_float scaled.

(** The rest of [calculate_swap_amounts], from the amount left after the fee. *)
Definition quote_from (pool_liquidity_in pool_liquidity_out amount_in
                       amount_in_after_fee : Z) : result (Z * float) :=
  amount_out <- int_floordiv (pool_liquidity_out * amount_in_after_fee)
                             (pool_liquidity_in + amount_in_after_fee) ;;
  price_before <- int_truediv pool_liquidity_out pool_liquidity_in ;;
  price_after <- int_truediv (pool_liquidity_out - amount_out)
                             (pool_liquidity_in + amount_in) ;;
  price_impact <- float_truediv (fabs (fsub price_after price_before)) price_before ;;
  Ok (amount_out, price_impact).

(** Keys, hashes and program identifiers are kept as their base58 text. *)
Definition Pubkey : Type := string.
Definition Hash : Type := string.

Record Keypair : Type := { pubkey : Pubkey }.

Record AccountMeta : Type :=
  { meta_pubkey : Pubkey; is_signer : bool; is_writable : bool }.

Record Instruction : Type :=
  { program_id : Pubkey; accounts : list AccountMeta; data : list Byte.byte }.

(** What [Message.new_with_blockhash] assembles. *)
Record Message : Type :=
  { message_instructions : list Instruction;
    message_payer : Pubkey;
    message_blockhash : Hash }.

(** A message with its blockhash, signed by the listed keys. *)
Record VersionedTransaction : Type :=
  { instructions : list Instruction;
    payer : Pubkey;
    blockhash : Hash;
    signers : list Pubkey }.

Record TransactionBuilder : Type :=
  { wallet_keypair : Keypair;
    wallet_pubkey : Pubkey;
    RAYDIUM_AMM_PROGRAM : Pubkey;
    TOKEN_PROGRAM : Pubkey }.

(** [__init__] *)
Definition init (wallet : Keypair) : TransactionBuilder :=
  {| wallet_keypair := wallet;
     wallet_pubkey := pubkey wallet;
     RAYDIUM_AMM_PROGRAM := "5quBtoiQqxF9Jv6KYKctB59NT3gtJD2N1RdgFZRnTMK"%string;
     TOKEN_PROGRAM := "TokenkegQfeZyiNwAJbNbGKPFXCWuBvf9Ss623VQ5DA"%string |}.

Definition byte_of_Z (v : Z) : Byte.byte :=
  match Byte.of_N (Z.to_N (v mod 256)) with
  | Some b => b
  | None => Byte.x00
  end.

(** [n] little-endian bytes of [v]. *)
Fixpoint le_bytes (n : nat) (v : Z) : list Byte.byte :=
  match n with
  | O => []
  | S n' => byte_of_Z v :: le_bytes n' (v / 256)
  end.

(** The ["Q"] format code: an unsigned 64-bit field. *)
Definition pack_Q (v : Z) : result (list Byte.byte) :=
  if (0 <=? v) && (v <? 2 ^ 64) then Ok (le_bytes 8 v) else Raise StructError.

(** [_encode_swap_instruction]: [struct.pack("<BQQ", 9, amount_in, minimum_amount_out)]. *)
Definition _encode_swap_instruction (amount_in minimum_amount_out : Z)
    : result (list Byte.byte) :=
  let instruction_type := 9 in
  a <- pack_Q amount_in ;;
  m <- pack_Q minimum_amount_out ;;
  Ok (byte_of_Z instruction_type :: a ++ m).

(** [VersionedTransaction(message)]: the constructor of the library
    takes the message together with the key pairs that sign it.  Called
    with the message alone, as [build_raydium_swap] calls it, it raises
    [TypeError], whatever the message. *)
Definition VersionedTransaction_new (message : Message) : result VersionedTransaction :=
  Raise TypeError.

(** [transaction.sign([...])]: a versioned transaction has no method of
    that name, so the call raises [AttributeError]. *)
Definition sign (transaction : VersionedTransaction) (keypairs : list Keypair)
    : result unit :=
  Raise AttributeError.

(** [build_raydium_swap]: one signed swap transaction, or [None] when
    anything inside the [try] raised: packing the instruction data, the
    construction of the transaction or its signing. *)
Definition build_raydium_swap (self : TransactionBuilder)
    (pool_id token_in_mint token_out_mint : Pubkey)
    (amount_in minimum_amount_out : Z) (recent_blockhash : Hash)
    : option VersionedTransaction :=
  try_except
    (instruction_data <- _encode_swap_instruction amount_in minimum_amount_out ;;
     let accounts :=
       [ {| meta_pubkey := wallet_pubkey self; is_signer := true; is_writable := true |};
         {| meta_pubkey := pool_id; is_signer := false; is_writable := true |};
         {| meta_pubkey := token_in_mint; is_signer := false; is_writable := false |};
         {| meta_pubkey := token_out_mint; is_signer := false; is_writable := false |};
         {| meta_pubkey := TOKEN_PROGRAM self; is_signer := false; is_writable := false |} ] in
     let swap_instruction :=
       {| program_id := RAYDIUM_AMM_PROGRAM self;
          accounts := accounts;
          data := instruction_data |} in
     let message :=
       {| message_instructions := [swap_instruction];
          message_payer := wallet_pubkey self;
          message_blockhash := recent_blockhash |} in
     transaction <- VersionedTransaction_new message ;;
     _ <- sign transaction [wallet_keypair self] ;;
     Ok (Some transaction))
    (fun _ => None).

(** The values [build_sandwich_transactions] computes before it decides
    anything (its lines up to [profit_percentage]).  The integer [0] the
    source takes as ratio when the front-run amount is not positive is
    only ever compared with [0.01]; it is kept as the float zero. *)
Record bracket : Type :=
  { front_run_amount : Z;
    front_run_output : Z;
    new_liquidity_in : Z;
    new_liquidity_out : Z;
    target_output : Z;
    final_liquidity_in : Z;
    final_liquidity_out : Z;
    back_run_amount : Z;
    back_run_output : Z;
    profit : Z;
    profit_percentage : float }.

Definition simulate_bracket
    (pool_liquidity_in pool_liquidity_out target_amount_in : Z)
    : result bracket :=
  let front_run_amount := Z.min (target_amount_in / 4) (pool_liquidity_in / 100) in
  '(front_run_output, front_run_impact) <-
    calculate_swap_amounts pool_liquidity_in pool_liquidity_out front_run_amount
                           default_fee_rate ;;
  let new_liquidity_in := pool_liquidity_in + front_run_amount in
  let new_liquidity_out := pool_liquidity_out - front_run_output in
  '(target_output, target_impact) <-
    calculate_swap_amounts new_liquidity_in new_liquidity_out target_amount_in
                           default_fee_rate ;;
  let final_liquidity_in := new_liquidity_in + target_amount_in in
  let final_liquidity_out := new_liquidity_out - target_output in
  let back_run_amount := front_run_output in
  '(back_run_output, back_run_impact) <-
    calculate_swap_amounts final_liquidity_out final_liquidity_in back_run_amount
                           default_fee_rate ;;
  let profit := back_run_output - front_run_amount in
  profit_percentage <-
    (if 0 <? front_run_amount then int_truediv profit front_run_amount
     else Ok (S754_zero false)) ;;
  Ok {| front_run_amount := front_run_amount;
        front_run_output := front_run_output;
        new_liquidity_in := new_liquidity_in;
        new_liquidity_out := new_liquidity_out;
        target_output := target_output;
        final_liquidity_in := final_liquidity_in;
        final_liquidity_out := final_liquidity_out;
        back_run_amount := back_run_amount;
        back_run_output := back_run_output;
        profit := profit;
        profit_percentage := profit_percentage |}.

(** [int(n * 0.98)]: the minimum acceptable output, 2% below [n]. *)
Definition with_slippage (n : Z) : result Z :=
  x <- int_mul_float n (literal 98 2) ;;
  int_of_float x.

(** [build_sandwich_transactions]: what the two calls of
    [build_raydium_swap] gave and the profit ratio, or
    [(None, None, 0.0)] when the bracket is rejected. *)
Definition build_sandwich_transactions (self : TransactionBuilder)
    (target_transaction : string) (pool_id token_in token_out : Pubkey)
    (pool_liquidity_in pool_liquidity_out target_amount_in : Z)
    (recent_blockhash : Hash)
    : result (option VersionedTransaction * option VersionedTransaction * float) :=
  b <- simulate_bracket pool_liquidity_in pool_liquidity_out target_amount_in ;;
  if flt (profit_percentage b) (literal 1 2) then
    Ok (None, None, S754_zero false)
  else
    front_min <- with_slippage (front_run_output b) ;;
    let front_run_tx :=
      build_raydium_swap self pool_id token_in token_out
                         (front_run_amount b) front_min recent_blockhash in
    back_min <- with_slippage (back_run_output b) ;;
    let back_run_tx :=
      build_raydium_swap self pool_id token_out token_in
                         (back_run_amount b) back_min recent_blockhash in
    Ok (front_run_tx, back_run_tx, profit_percentage b).

End TransactionBuilder.

(* ================================================================== *)
(** ** config/settings.py and src/dex/raydium.py: the data read by the engine *)
(* ================================================================== *)

Module Settings.

Record Settings : Type :=
  { MAX_SLIPPAGE : float;
    MIN_PROFIT_THRESHOLD : float;
    MAX_POSITION_SIZE : float;
    DEBUG_MODE : bool;
    DRY_RUN : bool }.

(** The values taken when the environment sets none of the variables. *)
Definition defaults : Settings :=
  {| MAX_SLIPPAGE := literal 5 2;
     MIN_PROFIT_THRESHOLD := literal 1 3;
     MAX_POSITION_SIZE := literal 10 1;
     DEBUG_MODE := true;
     DRY_RUN := true |}.

End Settings.

Module Raydium.

Record PoolInfo : Type :=
  { pool_id : string;
    base_mint : string;
    quote_mint : string;
    base_symbol : string;
    quote_symbol : string;
    liquidity : float;
    volume_24h : float;
    price : float }.


(** [_get_devnet_mock_pools] *)
Definition _get_devnet_mock_pools : list PoolInfo :=
  [ {| pool_id := "mock_sol_usdc_pool";
       base_mint := "So11111111111111111111111111111111111111112";
       quote_mint := "EPjFWdd5AufqSSqeM2qN1xzybapC8G4wEGGkZwyTDt1v";
       base_symbol := "SOL";
       quote_symbol := "USDC";
       liquidity := literal 10000000 1;
       volume_24h := literal 5000000 1;
       price := literal 2550 2 |};
    {| pool_id := "mock_ray_sol_pool";
       base_mint := "4k3Dyjzvzp8eMZWUXbBCjEvwSkkk59S5iCNLY3QrkX6R";
       quote_mint := "So11111111111111111111111111111111111111112";
       base_symbol := "RAY";
       quote_symbol := "SOL";
       liquidity := literal 7500000 1;
       volume_24h := literal 3000000 1;
       price := literal 125 3 |};
    {| pool_id := "mock_orca_sol_pool";
       base_mint := "orcaEKTdK7LKz57vaAYr9QeNsVEPfiu6QeMU1kektZE";
       quote_mint := "So11111111111111111111111111111111111111112";
       base_symbol := "ORCA";
       quote_symbol := "SOL";
       liquidity := literal 5000000 1;
       volume_24h := literal 2000000 1;
       price := literal 85 2 |} ]%string.

(** [min_liquidity: float = 100000] of [get_sandwich_targets]. *)
Definition default_min_liquidity : float := literal 100000 0.

(** [get_pool_info]: [pools] is what [get_popular_pools] lists. *)
Fixpoint get_pool_info (pools : list PoolInfo) (wanted : string) : option PoolInfo :=
  match pools with
  | [] => None
  | pool :: rest =>
      if String.eqb (pool_id pool) wanted then Some pool else get_pool_info rest wanted
  end.

(** [get_sandwich_targets]: the listed pools with enough liquidity and
    a daily volume above a tenth of it. *)
Fixpoint get_sandwich_targets (pools : list PoolInfo) (min_liquidity : float)
    : list PoolInfo :=
  match pools with
  | [] => []
  | pool :: rest =>
      if fle min_liquidity (liquidity pool)
         && flt (fmul (liquidity pool) (literal 1 1)) (volume_24h pool)
      then pool :: get_sandwich_targets rest min_liquidity
      else get_sandwich_targets rest min_liquidity
  end.

End Raydium.

(* ================================================================== *)
(** ** src/core/rpc_client.py *)
(* ================================================================== *)

Module RPCClientWrapper.

(** The ledger client is a collaborator: [client_get_balance] is its
    [get_balance], returning the lamports of [response.value] or raising. *)
Definition get_balance (client_get_balance : TransactionBuilder.Pubkey -> result Z)
    (pubkey : TransactionBuilder.Pubkey) : float :=
  try_except
    (balance_lamports <- client_get_balance pubkey ;;
     int_truediv balance_lamports 1000000000)
    (fun _ => S754_zero false).

(** [self.stats] *)
Record Stats : Type :=
  { transactions_sent : Z;
    transactions_confirmed : Z;
    transactions_failed : Z;
    average_confirmation_time : float }.

(** The statistics set by [__init__]. *)
Definition init_stats : Stats :=
  {| transactions_sent := 0;
     transactions_confirmed := 0;
     transactions_failed := 0;
     average_confirmation_time := S754_zero false |}.

(** [send_transaction]: [client_send] is the client's [send_transaction],
    returning the text of [response.value], [None] when that value is
    empty, or raising. *)
Definition send_transaction
    (client_send : TransactionBuilder.VersionedTransaction -> result (option string))
    (stats : Stats) (transaction : TransactionBuilder.VersionedTransaction)
    : option string * Stats :=
  let failed :=
    {| transactions_sent := transactions_sent stats;
       transactions_confirmed := transactions_confirmed stats;
       transactions_failed := transactions_failed stats + 1;
       average_confirmation_time := average_confirmation_time stats |} in
  try_except
    (response_value <- client_send transaction ;;
     match response_value with
     | Some signature =>
         Ok (Some signature,
             {| transactions_sent := transactions_sent stats + 1;
                transactions_confirmed := transactions_confirmed stats;
                transactions_failed := transactions_failed stats;
                average_confirmation_time := average_confirmation_time stats |})
     | None => Ok (None, failed)
     end)
    (fun _ => (None, failed)).

(** What one call of the client's [get_signature_statuses] gives inside
    the polling loop of [confirm_transaction]. *)
Inductive status_poll : Type :=
| StatusRaises                      (* the call raises *)
| StatusMissing                     (* no value, or no first entry *)
| StatusPending                     (* an entry without confirmation_status *)
| StatusConfirmed (now : float).    (* confirmed; [now] is time.time() then *)

(** The [for _ in range(timeout)] loop of [confirm_transaction], with
    [n] turns left and [i] the index of the next poll.  The counter is
    raised before the average is recomputed; when recomputing raises,
    the inner handler resumes the loop with the counter already raised. *)
Fixpoint confirm_polls (n i : nat) (poll : nat -> status_poll) (start_time : float)
    (stats : Stats) : bool * Stats :=
  match n with
  | O => (false, stats)
  | S n' =>
      match poll i with
      | StatusConfirmed now =>
          let confirmation_time := fsub now start_time in
          let confirmed := transactions_confirmed stats + 1 in
          let with_average (avg : float) :=
            {| transactions_sent := transactions_sent stats;
               transactions_confirmed := confirmed;
               transactions_failed := transactions_failed stats;
               average_confirmation_time := avg |} in
          if 1 <? confirmed then
            let current_avg := average_confirmation_time stats in
            match (scaled <- float_mul_int current_avg (confirmed - 1) ;;
                   float_div_int (fadd scaled confirmation_time) confirmed) with
            | Ok new_avg => (true, with_average new_avg)
            | Raise _ => confirm_polls n' (S i) poll start_time (with_average current_avg)
            end
          else (true, with_average confirmation_time)
      | _ => confirm_polls n' (S i) poll start_time stats
      end
  end.

(** [confirm_transaction]; [start_time] is the clock on entry. *)
Definition confirm_transaction (poll : nat -> status_poll) (start_time : float)
    (stats : Stats) (timeout : Z) : bool * Stats :=
  confirm_polls (Z.to_nat timeout) 0 poll start_time stats.

(** [get_recent_blockhash]: the text of the latest blockhash, or [None]
    when the client raises. *)
Definition get_recent_blockhash (client_get_latest_blockhash : result string)
    : option string :=
  try_except (blockhash <- client_get_latest_blockhash ;; Ok (Some blockhash))
             (fun _ => None).

End RPCClientWrapper.

(* ================================================================== *)
(** ** src/core/mempool_monitor.py *)
(* ================================================================== *)

Module MempoolMonitor.

Record PendingSwap : Type :=
  { signature : string;
    user_wallet : string;
    token_in : string;
    token_out : string;
    amount_in : float;
    pool_address : string;
    estimated_price_impact : float;
    timestamp : float }.

(** What one call of [_generate_simulated_opportunity] reads from the
    random generator and the clock, in the order it reads them. *)
Record SimDraws : Type :=
  { gate : float;
    pair_choice : nat;
    amount : float;
    sig_clock : float;
    sig_suffix : Z;
    user_suffix : Z;
    impact : float;
    stamp : float }.

Definition pairs : list (string * string * string * string) :=
  [ ("SOL", "USDC", "So11111111111111111111111111111111111111112",
     "EPjFWdd5AufqSSqeM2qN1xzybapC8G4wEGGkZwyTDt1v");
    ("RAY", "SOL", "4k3Dyjzvzp8eMZWUXbBCjEvwSkkk59S5iCNLY3QrkX6R",
     "So11111111111111111111111111111111111111112");
    ("ORCA", "SOL", "orcaEKTdK7LKz57vaAYr9QeNsVEPfiu6QeMU1kektZE",
     "So11111111111111111111111111111111111111112") ]%string.

(** [_generate_simulated_opportunity] *)
Definition _generate_simulated_opportunity (d : SimDraws) : result (option PendingSwap) :=
  if flt (literal 3 1) (gate d) then Ok None
  else
    let '(token_in_symbol, token_out_symbol, token_in_mint, token_out_mint) :=
      nth (pair_choice d) pairs (EmptyString, EmptyString, EmptyString, EmptyString) in
    millis <- float_mul_int (sig_clock d) 1000 ;;
    stamp_ms <- int_of_float millis ;;
    Ok (Some {| signature :=
                  ("sim_" ++ str_of_int stamp_ms ++ "_" ++ str_of_int (sig_suffix d))%string;
                user_wallet := ("user_" ++ str_of_int (user_suffix d))%string;
                token_in := token_in_symbol;
                token_out := token_out_symbol;
                amount_in := amount d;
                pool_address :=
                  ("pool_" ++ token_in_symbol ++ "_" ++ token_out_symbol)%string;
                estimated_price_impact := impact d;
                timestamp := stamp d |}).

(** The shapes of an inbound message that [_process_websocket_message]
    tells apart: no [params.result], a result without [value], and a
    [value] with or without an [account] entry. *)
Inductive Message : Type :=
| NoParamsResult
| ResultWithoutValue
| ResultValue (has_account : bool).

(** What [_parse_real_transaction] reads from the clock and the generator. *)
Record ParseDraws : Type :=
  { parse_clock : float;
    parse_amount : float;
    parse_impact : float;
    parse_stamp : float }.

(** [_is_raydium_transaction] *)
Definition _is_raydium_transaction (has_account : bool) : bool := has_account.

(** [_parse_real_transaction] *)
Definition _parse_real_transaction (d : ParseDraws) : option PendingSwap :=
  try_except
    (millis <- float_mul_int (parse_clock d) 1000 ;;
     stamp_ms <- int_of_float millis ;;
     Ok (Some {| signature := ("real_" ++ str_of_int stamp_ms)%string;
                 user_wallet := "real_user_wallet";
                 token_in := "SOL";
                 token_out := "USDC";
                 amount_in := parse_amount d;
                 pool_address := "real_pool_address";
                 estimated_price_impact := parse_impact d;
                 timestamp := parse_stamp d |}))
    (fun _ => None).

(** How the subscription attempt goes before the message loop. *)
Inductive ws_setup : Type :=
| ConnectFails        (* websockets.connect raises *)
| ConnectHangs        (* the 30 s of wait_for pass while connecting *)
| AckTimeout          (* no reply to logsSubscribe within 5 s *)
| AckErrorResponse    (* the reply carries "error" *)
| AckWithoutResult    (* the reply carries neither "error" nor "result" *)
| AckResult.          (* the reply carries "result" *)

(** What happens at one turn of the message loop. *)
Inductive ws_event : Type :=
| Recv (m : Message) (d : ParseDraws)   (* a message arrives within 5 s *)
| RecvBad                               (* recv or json.loads raises *)
| RecvTimeout                           (* 5 s pass without a message *)
| StopRequested                         (* stop_monitoring() ran meanwhile *)
| Deadline.                             (* the 30 s of wait_for are over *)

(** What happens at one turn of the polling loop. *)
Inductive poll_event : Type :=
| Cycle (d : SimDraws)     (* the body runs; [d] is read if it generates *)
| PollStop                 (* stop_monitoring() ran meanwhile *)
| PollInterrupt.           (* KeyboardInterrupt inside the body *)

(** The observable steps of a feed session. *)
Inductive feed_event : Type :=
| StreamingStarted
| PollingStarted
| DeliveredFromStream (p : PendingSwap)
| DeliveredFromPoll (p : PendingSwap)
| PollingCompleted.

Section Feed.

(** The state the callback works on, and the callback: it returns the
    new state and the exception it raised, if any. *)
Variable S : Type.

Definition Callback : Type := PendingSwap -> S -> S * option exn.

Record MempoolMonitor : Type :=
  { is_monitoring : bool;
    opportunity_callback : option Callback;
    connection_attempts : Z;
    max_connection_attempts : Z }.

(** [__init__] *)
Definition init : MempoolMonitor :=
  {| is_monitoring := false;
     opportunity_callback := None;
     connection_attempts := 0;
     max_connection_attempts := 3 |}.

(** [stop_monitoring] *)
Definition stop_monitoring (self : MempoolMonitor) : MempoolMonitor :=
  {| is_monitoring := false;
     opportunity_callback := opportunity_callback self;
     connection_attempts := connection_attempts self;
     max_connection_attempts := max_connection_attempts self |}.

(** A session state: the monitor, the callback's state, the log. *)
Record session : Type :=
  { monitor : MempoolMonitor;
    cb_state : S;
    log : list feed_event }.

Definition note (ev : feed_event) (x : session) : session :=
  {| monitor := monitor x; cb_state := cb_state x; log := log x ++ [ev] |}.

Definition stopped (x : session) : session :=
  {| monitor := stop_monitoring (monitor x); cb_state := cb_state x; log := log x |}.

(** Calling the registered callback on a candidate. *)
Definition deliver (tag : PendingSwap -> feed_event) (cb : Callback)
    (p : PendingSwap) (x : session) : session * option exn :=
  let '(s', raised) := cb p (cb_state x) in
  ({| monitor := monitor x; cb_state := s'; log := log x ++ [tag p] |}, raised).

(** [_process_websocket_message]: every exception is caught inside. *)
Definition _process_websocket_message (m : Message) (d : ParseDraws)
    (x : session) : session :=
  match m with
  | ResultValue has_account =>
      if _is_raydium_transaction has_account then
        match _parse_real_transaction d, opportunity_callback (monitor x) with
        | Some opportunity, Some cb => fst (deliver DeliveredFromStream cb opportunity x)
        | _, _ => x
        end
      else x
  | _ => x
  end.

(** The message loop of [_try_websocket_monitoring]. *)
Fixpoint _websocket_loop (events : list ws_event) (x : session)
    : outcome unit * session :=
  if negb (is_monitoring (monitor x)) then (Done tt, x)
  else
    match events with
    | [] => (Cancelled, x)
    | Recv m d :: rest => _websocket_loop rest (_process_websocket_message m d x)
    | RecvBad :: rest => _websocket_loop rest x
    | RecvTimeout :: rest => _websocket_loop rest x
    | StopRequested :: rest => _websocket_loop rest (stopped x)
    | Deadline :: _ => (Raised TimeoutError, x)
    end.

(** [_try_websocket_monitoring], under the [wait_for] of its caller. *)
Definition _try_websocket_monitoring (setup : ws_setup) (events : list ws_event)
    (x : session) : outcome unit * session :=
  match setup with
  | ConnectFails => (Raised (OtherError "connect"), x)
  | ConnectHangs => (Raised TimeoutError, x)
  | AckTimeout => (Raised TimeoutError, x)
  | AckErrorResponse => (Raised (OtherError "Subscription failed"), x)
  | AckWithoutResult => (Raised (OtherError "No subscription result received"), x)
  | AckResult => _websocket_loop events x
  end.

(** The loop of [_polling_monitoring]. *)
Fixpoint _polling_loop (events : list poll_event)
    (cycle_count opportunities_found : Z) (x : session)
    : outcome unit * session :=
  if negb (is_monitoring (monitor x)) then (Done tt, note PollingCompleted x)
  else
    match events with
    | [] => (Cancelled, x)
    | PollStop :: rest => _polling_loop rest cycle_count opportunities_found (stopped x)
    | PollInterrupt :: _ => (Done tt, note PollingCompleted x)
    | Cycle d :: rest =>
        let cycle_count := cycle_count + 1 in
        if cycle_count mod 2 =? 0 then
          match _generate_simulated_opportunity d with
          | Raise _ => _polling_loop rest cycle_count opportunities_found x
          | Ok None => _polling_loop rest cycle_count opportunities_found x
          | Ok (Some opportunity) =>
              let opportunities_found := opportunities_found + 1 in
              match opportunity_callback (monitor x) with
              | Some cb =>
                  _polling_loop rest cycle_count opportunities_found
                                (fst (deliver DeliveredFromPoll cb opportunity x))
              | None => _polling_loop rest cycle_count opportunities_found x
              end
          end
        else _polling_loop rest cycle_count opportunities_found x
    end.

(** [_polling_monitoring] *)
Definition _polling_monitoring (events : list poll_event) (x : session)
    : outcome unit * session :=
  _polling_loop events 0 0 (note PollingStarted x).

(** [start_monitoring] *)
Definition start_monitoring (self : MempoolMonitor) (callback : Callback)
    (setup : ws_setup) (ws_events : list ws_event) (poll_events : list poll_event)
    (s : S) : outcome unit * session :=
  let self :=
    {| is_monitoring := true;
       opportunity_callback := Some callback;
       connection_attempts := connection_attempts self;
       max_connection_attempts := max_connection_attempts self |} in
  let x := {| monitor := self; cb_state := s; log := [StreamingStarted] |} in
  match _try_websocket_monitoring setup ws_events x with
  | (Done tt, x') => (Done tt, x')
  | (Raised _, x') => _polling_monitoring poll_events x'
  | (Cancelled, x') => (Cancelled, x')
  end.

End Feed.

Arguments is_monitoring {S} _.
Arguments opportunity_callback {S} _.
Arguments monitor {S} _.
Arguments cb_state {S} _.
Arguments log {S} _.
Arguments start_monitoring {S} _ _ _ _ _ _.
Arguments _polling_monitoring {S} _ _.
Arguments _polling_loop {S} _ _ _ _.
Arguments _try_websocket_monitoring {S} _ _ _.
Arguments _websocket_loop {S} _ _.
Arguments _process_websocket_message {S} _ _ _.
Arguments deliver {S} _ _ _ _.
Arguments note {S} _ _.
Arguments stopped {S} _.
Arguments stop_monitoring {S} _.

End MempoolMonitor.

(* ================================================================== *)
(** ** src/utils/wallet_manager.py *)
(* ================================================================== *)

Module WalletManager.

Import TransactionBuilder.

Record WalletManager : Type :=
  { keypair : option Keypair;
    public_key : option Pubkey }.

(** [__init__]: no wallet is loaded yet. *)
Definition init : WalletManager :=
  {| keypair := None; public_key := None |}.

(** [load_keypair_from_file]: [read_keypair] stands for opening the
    file, parsing it and building the key pair from its bytes; whatever
    it raises is raised again, before the manager is changed. *)
Definition load_keypair_from_file (read_keypair : string -> result Keypair)
    (self : WalletManager) (file_path : string) : result Keypair * WalletManager :=
  match read_keypair file_path with
  | Ok loaded =>
      (Ok loaded, {| keypair := Some loaded; public_key := Some (pubkey loaded) |})
  | Raise e => (Raise e, self)
  end.

(** [get_balance]: the balance in SOL of the loaded wallet; the
    client's exceptions are raised again. *)
Definition get_balance (client_get_balance : Pubkey -> result Z) (self : WalletManager)
    : result float :=
  match public_key self with
  | None => Raise ValueError
  | Some key =>
      balance_lamports <- client_get_balance key ;;
      int_truediv balance_lamports 1000000000
  end.

(** [get_address] *)
Definition get_address (self : WalletManager) : result string :=
  match public_key self with
  | None => Raise ValueError
  | Some key => Ok key
  end.

End WalletManager.

(* ================================================================== *)
(** ** src/core/sandwich_engine.py *)
(* ================================================================== *)

Module SandwichEngine.

Import Settings Raydium MempoolMonitor.

Record SandwichOpportunity : Type :=
  { pool_info : option PoolInfo;
    target_transaction : string;
    estimated_profit : float;
    front_run_amount : float;
    back_run_amount : float;
    gas_cost : float;
    confidence_score : float }.

Record SandwichResult : Type :=
  { opportunity : SandwichOpportunity;
    front_run_signature : option string;
    back_run_signature : option string;
    actual_profit : float;
    execution_time : float;
    success : bool;
    error_message : option string }.

(** [self.stats] *)
Record Stats : Type :=
  { opportunities_detected : Z;
    sandwiches_attempted : Z;
    successful_sandwiches : Z;
    total_profit : float;
    total_gas_spent : float }.

Record SandwichEngine : Type :=
  { min_profit_threshold : float;
    max_slippage : float;
    max_position_size : float;
    stats : Stats }.

(** [__init__] *)
Definition init (settings : Settings) : SandwichEngine :=
  {| min_profit_threshold := MIN_PROFIT_THRESHOLD settings;
     max_slippage := MAX_SLIPPAGE settings;
     max_position_size := MAX_POSITION_SIZE settings;
     stats := {| opportunities_detected := 0;
                 sandwiches_attempted := 0;
                 successful_sandwiches := 0;
                 total_profit := S754_zero false;
                 total_gas_spent := S754_zero false |} |}.

Definition with_stats (self : SandwichEngine) (st : Stats) : SandwichEngine :=
  {| min_profit_threshold := min_profit_threshold self;
     max_slippage := max_slippage self;
     max_position_size := max_position_size self;
     stats := st |}.

(** [_simulate_opportunity]; [now] is the reading of [time.time()]. *)
Definition _simulate_opportunity (self : SandwichEngine) (now : float) (pool : PoolInfo)
    : option SandwichOpportunity :=
  try_except
    (let front_run_amount :=
       min2 (fmul (liquidity pool) (literal 1 3)) (max_position_size self) in
     ratio <- float_truediv front_run_amount (liquidity pool) ;;
     let estimated_slippage := fmul ratio (literal 5 1) in
     let estimated_profit :=
       fmul (fmul front_run_amount estimated_slippage) (literal 8 1) in
     let gas_cost := literal 1 3 in
     turnover <- float_truediv (volume_24h pool) (liquidity pool) ;;
     depth <- float_div_int (liquidity pool) 100000 ;;
     confidence_score <- float_mul_int (min3 turnover depth (literal 10 1)) 100 ;;
     let net_profit := fsub estimated_profit gas_cost in
     if flt (min_profit_threshold self) net_profit then
       seconds <- int_of_float now ;;
       Ok (Some {| pool_info := Some pool;
                   target_transaction :=
                     ("simulated_tx_" ++ str_of_int seconds)%string;
                   estimated_profit := estimated_profit;
                   front_run_amount := front_run_amount;
                   back_run_amount := front_run_amount;
                   gas_cost := gas_cost;
                   confidence_score := confidence_score |})
     else Ok None)
    (fun _ => None).

(** [detect_sandwich_opportunities]: [target_pools] is what the exchange
    collaborator lists, [clock i] the time read for the [i]-th pool. *)
Fixpoint detect_loop (pools : list PoolInfo) (i : nat) (clock : nat -> float)
    (self : SandwichEngine) (opportunities : list SandwichOpportunity)
    : list SandwichOpportunity * SandwichEngine :=
  match pools with
  | [] => (opportunities, self)
  | pool :: rest =>
      match _simulate_opportunity self (clock i) pool with
      | Some opportunity =>
          if flt (min_profit_threshold self) (estimated_profit opportunity) then
            let st := stats self in
            detect_loop rest (S i) clock
              (with_stats self
                 {| opportunities_detected := opportunities_detected st + 1;
                    sandwiches_attempted := sandwiches_attempted st;
                    successful_sandwiches := successful_sandwiches st;
                    total_profit := total_profit st;
                    total_gas_spent := total_gas_spent st |})
              (opportunities ++ [opportunity])
          else detect_loop rest (S i) clock self opportunities
      | None => detect_loop rest (S i) clock self opportunities
      end
  end.

Definition detect_sandwich_opportunities (self : SandwichEngine)
    (target_pools : list PoolInfo) (clock : nat -> float)
    : list SandwichOpportunity * SandwichEngine :=
  detect_loop (firstn 3 target_pools) 0 clock self [].

(** What one execution reads from the clock and the random generator. *)
Record ExecEnv : Type :=
  { t_start : float;        (* time.time() on entry *)
    t_front : float;        (* time.time() for the front-run signature *)
    t_back : float;         (* time.time() for the back-run signature *)
    t_end : float;          (* time.time() when the duration is taken *)
    u_success : float;      (* random.random() deciding the outcome *)
    u_variation : float }.  (* random.random() varying the profit *)

(** [_simulate_sandwich_execution] *)
Definition _simulate_sandwich_execution (self : SandwichEngine)
    (opportunity : SandwichOpportunity) (start_time : float) (env : ExecEnv)
    : SandwichResult * SandwichEngine :=
  let execution_time := fsub (t_end env) start_time in
  let success := flt (literal 1 1) (u_success env) in
  let st := stats self in
  let '(actual_profit, successful, profit_total) :=
    if success then
      let actual_profit :=
        fmul (estimated_profit opportunity)
             (fadd (literal 8 1) (fmul (u_variation env) (literal 4 1))) in
      (actual_profit, successful_sandwiches st + 1, fadd (total_profit st) actual_profit)
    else
      (SFopp (gas_cost opportunity), successful_sandwiches st, total_profit st) in
  let st' :=
    {| opportunities_detected := opportunities_detected st;
       sandwiches_attempted := sandwiches_attempted st + 1;
       successful_sandwiches := successful;
       total_profit := profit_total;
       total_gas_spent := fadd (total_gas_spent st) (gas_cost opportunity) |} in
  ({| opportunity := opportunity;
      front_run_signature := if success then Some "simulated_front_run_tx"%string else None;
      back_run_signature := if success then Some "simulated_back_run_tx"%string else None;
      actual_profit := actual_profit;
      execution_time := execution_time;
      success := success;
      error_message := if success then None else Some "Simulated failure"%string |},
   with_stats self st').

(** [_execute_real_sandwich] *)
Definition _execute_real_sandwich (self : SandwichEngine)
    (opportunity : SandwichOpportunity) (start_time : float) (env : ExecEnv)
    : SandwichResult * SandwichEngine :=
  ({| opportunity := opportunity;
      front_run_signature := None;
      back_run_signature := None;
      actual_profit := S754_zero false;
      execution_time := fsub (t_end env) start_time;
      success := false;
      error_message := Some "Real execution not implemented yet"%string |},
   self).

(** [execute_sandwich]: the result, or the exception raised, and the
    engine afterwards.  With [DEBUG_MODE] on, its first lines print the
    symbols of [opportunity.pool_info], which raises when there is no
    pool; nothing has been executed or counted then. *)
Definition execute_sandwich (settings : Settings) (self : SandwichEngine)
    (opportunity : SandwichOpportunity) (env : ExecEnv)
    : result SandwichResult * SandwichEngine :=
  let start_time := t_start env in
  match (if DEBUG_MODE settings then
           match pool_info opportunity with
           | None => Raise AttributeError
           | Some _ => Ok tt
           end
         else Ok tt) with
  | Raise e => (Raise e, self)
  | Ok _ =>
      let executed :=
        if DRY_RUN settings then _simulate_sandwich_execution self opportunity start_time env
        else _execute_real_sandwich self opportunity start_time env in
      (Ok (fst executed), snd executed)
  end.

(** [f"{prefix}{int(time.time()*1000)}"] *)
Definition stamped (prefix : string) (now : float) : result string :=
  millis <- float_mul_int now 1000 ;;
  n <- int_of_float millis ;;
  Ok (prefix ++ str_of_int n)%string.

(** [_execute_simulated_sandwich] *)
Definition _execute_simulated_sandwich (settings : Settings) (self : SandwichEngine)
    (pending_swap : PendingSwap) (expected_profit : float) (env : ExecEnv)
    : result (SandwichResult * SandwichEngine) :=
  let start_time := t_start env in
  let front_run_amount := fmul (amount_in pending_swap) (literal 25 2) in
  let back_run_amount := front_run_amount in
  let gas_cost := literal 1 3 in
  front_run_signature <-
    (if DRY_RUN settings then stamped "sim_front_" (t_front env)
     else stamped "real_front_" (t_front env)) ;;
  back_run_signature <-
    (if DRY_RUN settings then stamped "sim_back_" (t_back env)
     else stamped "real_back_" (t_back env)) ;;
  let success := flt (u_success env) (literal 80 2) in
  let execution_time := fsub (t_end env) start_time in
  let st := stats self in
  let '(actual_profit, front_sig, back_sig, error_msg, successful, profit_total) :=
    if success then
      let profit_variation := fadd (literal 8 1) (fmul (u_variation env) (literal 4 1)) in
      let actual_profit := fsub (fmul expected_profit profit_variation) gas_cost in
      (actual_profit, Some front_run_signature, Some back_run_signature, None,
       successful_sandwiches st + 1, fadd (total_profit st) actual_profit)
    else
      (SFopp gas_cost, None, None,
       Some "Sandwich failed - target transaction reverted or price moved unfavorably"%string,
       successful_sandwiches st, total_profit st) in
  let st' :=
    {| opportunities_detected := opportunities_detected st;
       sandwiches_attempted := sandwiches_attempted st + 1;
       successful_sandwiches := successful;
       total_profit := profit_total;
       total_gas_spent := fadd (total_gas_spent st) gas_cost |} in
  let opportunity :=
    {| pool_info := None;
       target_transaction := signature pending_swap;
       estimated_profit := expected_profit;
       front_run_amount := front_run_amount;
       back_run_amount := back_run_amount;
       gas_cost := gas_cost;
       confidence_score := literal 750 1 |} in
  Ok ({| opportunity := opportunity;
         front_run_signature := front_sig;
         back_run_signature := back_sig;
         actual_profit := actual_profit;
         execution_time := execution_time;
         success := success;
         error_message := error_msg |},
      with_stats self st').

(** [_print_sandwich_result]: its first lines read the symbols of
    [result.opportunity.pool_info] before testing it, which raises when
    there is no pool. *)
Definition _print_sandwich_result (result : SandwichResult) : Py.result unit :=
  match pool_info (opportunity result) with
  | None => Raise AttributeError
  | Some _ => Ok tt
  end.

(** [_handle_real_opportunity]: the callback given to the monitor.  Every
    exception is caught inside; what remains is the engine's state. *)
Definition _handle_real_opportunity (settings : Settings) (self : SandwichEngine)
    (pending_swap : PendingSwap) (env : ExecEnv) : SandwichEngine :=
  let st := stats self in
  let self :=
    with_stats self
      {| opportunities_detected := opportunities_detected st + 1;
         sandwiches_attempted := sandwiches_attempted st;
         successful_sandwiches := successful_sandwiches st;
         total_profit := total_profit st;
         total_gas_spent := total_gas_spent st |} in
  let expected_profit :=
    fmul (fmul (amount_in pending_swap) (estimated_price_impact pending_swap))
         (literal 5 1) in
  let gas_cost := literal 1 3 in
  let net_profit := fsub expected_profit gas_cost in
  if flt (literal 1 4) net_profit then
    match _execute_simulated_sandwich settings self pending_swap expected_profit env with
    | Ok (result, self') =>
        try_except (_ <- _print_sandwich_result result ;; Ok self') (fun _ => self')
    | Raise _ => self
    end
  else self.

(** What the ledger answers during one real bracket: the signature
    returned for each submission, and whether each was confirmed in time. *)
Record RpcRun : Type :=
  { front_sent : option string;
    front_confirmed : bool;
    back_sent : option string;
    back_confirmed : bool }.

(** Truth value of an optional signature: [None] and the empty string
    count as false. *)
Definition truthy (signature : option string) : bool :=
  match signature with
  | Some (String _ _) => true
  | _ => false
  end.

(** [_execute_real_sandwich_attack]: the two legs in sequence. *)
Definition _execute_real_sandwich_attack (self : SandwichEngine) (rpc : RpcRun)
    : SandwichEngine :=
  if negb (truthy (front_sent rpc)) then self
  else if negb (front_confirmed rpc) then self
  else if negb (truthy (back_sent rpc)) then self
  else if back_confirmed rpc then
    let st := stats self in
    with_stats self
      {| opportunities_detected := opportunities_detected st;
         sandwiches_attempted := sandwiches_attempted st;
         successful_sandwiches := successful_sandwiches st + 1;
         total_profit := total_profit st;
         total_gas_spent := total_gas_spent st |}
  else self.


(** [max(opportunities, key=lambda x: x.estimated_profit)] on a list
    that starts with [best]: a later element replaces the current one
    only when its profit is strictly greater. *)
Fixpoint max_by_profit (best : SandwichOpportunity) (rest : list SandwichOpportunity)
    : SandwichOpportunity :=
  match rest with
  | [] => best
  | candidate :: rest' =>
      max_by_profit
        (if flt (estimated_profit best) (estimated_profit candidate) then candidate else best)
        rest'
  end.

(** What [print_final_stats] computes for its report: the success rate
    in percent when something was attempted, the net profit, and
    whether the session is reported as profitable. *)
Record FinalReport : Type :=
  { success_rate : option float;
    net_profit : float;
    profitable : bool }.

(** [print_final_stats] *)
Definition print_final_stats (self : SandwichEngine) : result FinalReport :=
  let st := stats self in
  rate <-
    (if 0 <? sandwiches_attempted st then
       ratio <- int_truediv (successful_sandwiches st) (sandwiches_attempted st) ;;
       percent <- float_mul_int ratio 100 ;;
       Ok (Some percent)
     else Ok None) ;;
  let net_profit := fsub (total_profit st) (total_gas_spent st) in
  Ok {| success_rate := rate;
        net_profit := net_profit;
        profitable := flt (S754_zero false) net_profit |}.

(** What one turn of the loop of [run_monitoring_loop] reads from its
    surroundings. *)
Record CycleEnv : Type :=
  { loop_clock : float;               (* time.time() in the loop condition *)
    listed_targets : list PoolInfo;   (* what get_sandwich_targets() lists *)
    pool_clock : nat -> float;        (* time.time() for each evaluated pool *)
    exec_env : ExecEnv;               (* clock and generator of the execution *)
    interrupted : bool }.             (* KeyboardInterrupt in the wait that ends the turn *)

(** The body of the loop of [run_monitoring_loop]: scan, execute the
    best opportunity if there is one, print its result. *)
Definition monitoring_cycle (settings : Settings) (self : SandwichEngine) (c : CycleEnv)
    : SandwichEngine :=
  let '(opportunities, self) :=
    detect_sandwich_opportunities self (listed_targets c) (pool_clock c) in
  match opportunities with
  | [] => self
  | first :: rest =>
      let best_opportunity := max_by_profit first rest in
      let '(result, self) := execute_sandwich settings self best_opportunity (exec_env c) in
      try_except (result <- result ;; _ <- _print_sandwich_result result ;; Ok self)
                 (fun _ => self)
  end.

(** The loop of [run_monitoring_loop] over the turns given: it ends
    when the clock has reached [end_time] or on an interrupt. *)
Fixpoint monitoring_loop (settings : Settings) (end_time : float) (cycles : list CycleEnv)
    (self : SandwichEngine) : SandwichEngine :=
  match cycles with
  | [] => self
  | c :: rest =>
      if flt (loop_clock c) end_time then
        let self := monitoring_cycle settings self c in
        if interrupted c then self else monitoring_loop settings end_time rest self
      else self
  end.

(** [run_monitoring_loop]; [now] is the clock on entry.  The engine is
    returned as the loop left it, also when the report raises. *)
Definition run_monitoring_loop (settings : Settings) (self : SandwichEngine)
    (now : float) (duration_seconds : Z) (cycles : list CycleEnv)
    : result FinalReport * SandwichEngine :=
  match (duration <- float_of_int duration_seconds ;; Ok (fadd now duration)) with
  | Raise e => (Raise e, self)
  | Ok end_time =>
      let self := monitoring_loop settings end_time cycles self in
      (print_final_stats self, self)
  end.

(** The callback [start_real_monitoring] registers: the engine, and the
    number of calls so far, which selects the readings of clock and
    generator of the call.  [_handle_real_opportunity] lets no exception
    out. *)
Definition real_callback (settings : Settings) (envs : nat -> ExecEnv)
    : Callback (SandwichEngine * nat) :=
  fun pending_swap state =>
    let '(self, calls) := state in
    ((_handle_real_opportunity settings self pending_swap (envs calls), S calls), None).

(** [start_real_monitoring]: a fresh monitor and a transaction builder
    for the wallet's key pair, then the feed with the engine's handler.
    Building the transaction builder reads [keypair.pubkey()], which
    raises when no wallet is loaded. *)
Definition start_real_monitoring (settings : Settings) (self : SandwichEngine)
    (wallet_manager : WalletManager.WalletManager) (envs : nat -> ExecEnv)
    (setup : ws_setup) (ws_events : list ws_event) (poll_events : list poll_event)
    : result (outcome unit * session (SandwichEngine * nat)) :=
  let mempool_monitor := MempoolMonitor.init (SandwichEngine * nat) in
  match WalletManager.keypair wallet_manager with
  | None => Raise AttributeError
  | Some wallet_keypair =>
      let transaction_builder := TransactionBuilder.init wallet_keypair in
      Ok (start_monitoring mempool_monitor (real_callback settings envs)
                           setup ws_events poll_events (self, 0%nat))
  end.

End SandwichEngine.

(* ================================================================== *)
(** ** The specification's reading of the bracket and of the quote *)
(* ================================================================== *)

Module BracketSpec.

Import TransactionBuilder.

(** A reserve pair, seen from the side of the asset paid in. *)
Record reserves : Type := { reserve_in : Z; reserve_out : Z }.

(** Applying a trade of [amount] to a reserve pair through the quote:
    the output it buys and the pair it leaves behind. *)
Definition apply_trade (r : reserves) (amount : Z) : result (Z * reserves) :=
  '(out, _) <- calculate_swap_amounts (reserve_in r) (reserve_out r) amount
                                      default_fee_rate ;;
  Ok (out, {| reserve_in := reserve_in r + amount;
              reserve_out := reserve_out r - out |}).

(** The same pair seen from the other asset. *)
Definition reversed (r : reserves) : reserves :=
  {| reserve_in := reserve_out r; reserve_out := reserve_in r |}.

(** Front-run on the original pair, target on the once-updated pair,
    back-run of what the front-run bought on the twice-updated pair,
    in the other direction. *)
Definition three_steps (r0 : reserves) (front target : Z)
    : result (reserves * reserves * (Z * Z * Z)) :=
  '(front_out, r1) <- apply_trade r0 front ;;
  '(target_out, r2) <- apply_trade r1 target ;;
  '(back_out, _) <- apply_trade (reversed r2) front_out ;;
  Ok (r1, r2, (front_out, target_out, back_out)).

(** A worked bracket: reserves (1,000,000 / 25,000,000), target 5,000. *)
Definition sample_bracket : bracket :=
  {| front_run_amount := 1250;
     front_run_output := 31111;
     new_liquidity_in := 1001250;
     new_liquidity_out := 24968889;
     target_output := 123748;
     final_liquidity_in := 1006250;
     final_liquidity_out := 24845141;
     back_run_amount := 31111;
     back_run_output := 1255;
     profit := 5;
     profit_percentage := S754_finite false 4611686018427388 (-60) |}.

Definition sample_builder : TransactionBuilder :=
  init {| pubkey := "wallet"%string |}.

End BracketSpec.

Module QuoteSpec.

(** The constant-product rule of the specification on an effective
    input that may be fractional: the floor of
    [reserve_out * effective_in / (reserve_in + effective_in)]. *)
Definition constant_product_out (reserve_in reserve_out : Z) (effective : Q) : Z :=
  Qfloor (inject_Z reserve_out * effective / (inject_Z reserve_in + effective)).

(** The quote as the specification words it: the fee is taken off the
    amount without rounding, [effective_in = amount_in * (1 - fee_rate)]. *)
Definition quote_amount_out_spec (reserve_in reserve_out amount_in : Z) (fee_rate : Q) : Z :=
  constant_product_out reserve_in reserve_out (inject_Z amount_in * (1 - fee_rate)).

End QuoteSpec.

Module FeedSpec.

Import MempoolMonitor.

(** The streaming attempt never acknowledges the subscription, or is
    subscribed and sees no message until the deadline. *)
Definition never_delivers (setup : ws_setup) (events : list ws_event) : Prop :=
  setup = AckTimeout \/
  (setup = AckResult /\
   exists n rest, events = repeat RecvTimeout n ++ Deadline :: rest).

(** The candidates the fallback generates while monitoring stays on:
    one draw at every second cycle, kept when the draw yields a swap. *)
Fixpoint poll_candidates (events : list poll_event) (cycle_count : Z)
    : list PendingSwap :=
  match events with
  | Cycle d :: rest =>
      let cycle_count := cycle_count + 1 in
      if cycle_count mod 2 =? 0 then
        match _generate_simulated_opportunity d with
        | Ok (Some p) => p :: poll_candidates rest cycle_count
        | _ => poll_candidates rest cycle_count
        end
      else poll_candidates rest cycle_count
  | _ => []
  end.

Definition is_polling_started (ev : feed_event) : bool :=
  match ev with PollingStarted => true | _ => false end.

Definition is_streaming (ev : feed_event) : bool :=
  match ev with StreamingStarted | DeliveredFromStream _ => true | _ => false end.

(** The deliveries of a log, in order. *)
Fixpoint deliveries (l : list feed_event) : list PendingSwap :=
  match l with
  | [] => []
  | DeliveredFromStream p :: rest => p :: deliveries rest
  | DeliveredFromPoll p :: rest => p :: deliveries rest
  | _ :: rest => deliveries rest
  end.

(** What the callback's state becomes over a list of candidates. *)
Definition after_deliveries {S : Type} (cb : Callback S)
    (candidates : list PendingSwap) (s : S) : S :=
  fold_left (fun st p => fst (cb p st)) candidates s.

(** Sample polling turns: four cycles whose second draw passes the gate. *)
Definition sample_draws (gate : float) : SimDraws :=
  {| gate := gate;
     pair_choice := 0;
     amount := literal 25 1;
     sig_clock := literal 1700000000 0;
     sig_suffix := 1234;
     user_suffix := 5678;
     impact := literal 1 2;
     stamp := literal 1700000000 0 |}.

Definition sample_polls : list poll_event :=
  [ Cycle (sample_draws (literal 9 1)); Cycle (sample_draws (literal 1 1));
    Cycle (sample_draws (literal 9 1)); Cycle (sample_draws (literal 9 1)) ].

End FeedSpec.

Module EngineSpec.

Import SandwichEngine.

#[local] Open Scope string_scope.
#[local] Open Scope Z_scope.


(** A run of executions, each with its own readings of clock and generator. *)
Fixpoint execute_all (settings : Settings.Settings) (self : SandwichEngine)
    (attempts : list (SandwichOpportunity * ExecEnv)) : SandwichEngine :=
  match attempts with
  | [] => self
  | (opportunity, env) :: rest =>
      execute_all settings (snd (execute_sandwich settings self opportunity env)) rest
  end.

(** How an opportunity made from a pending swap is sized: it carries
    no pool, and its front-run and back-run amounts are a quarter of the
    swap's input amount. *)
Definition sized_from_swap (pending_swap : MempoolMonitor.PendingSwap)
    (o : SandwichOpportunity) : Prop :=
  pool_info o = None /\
  front_run_amount o = fmul (MempoolMonitor.amount_in pending_swap) (literal 25 2) /\
  back_run_amount o = front_run_amount o.

(** Whether an opportunity carries a pool. *)
Definition has_pool (o : SandwichOpportunity) : bool :=
  match pool_info o with Some _ => true | None => false end.

(** The value a computation returned, if it returned. *)
Definition result_value {A : Type} (c : Py.result A) : option A :=
  match c with Py.Ok a => Some a | Py.Raise _ => None end.

(** The sizing bound of the specification for an opportunity that
    carries its pool: the front-run amount is the smaller of 0.1% of the
    pool's liquidity and the maximum position size, hence below both. *)
Definition within_sizing_bound (self : SandwichEngine) (o : SandwichOpportunity) : Prop :=
  exists pool,
    pool_info o = Some pool /\
    front_run_amount o
    = min2 (fmul (Raydium.liquidity pool) (literal 1 3)) (max_position_size self) /\
    fle (front_run_amount o) (fmul (Raydium.liquidity pool) (literal 1 3)) = true /\
    fle (front_run_amount o) (max_position_size self) = true.

(** Sample data: the first mock pool of the exchange module, settings
    with room for a position of 0.1% of it, a pending swap of 10 SOL, and
    readings of clock and generator for one execution. *)
Definition sample_pool : Raydium.PoolInfo :=
  {| Raydium.pool_id := "mock_sol_usdc_pool";
     Raydium.base_mint := "So11111111111111111111111111111111111111112";
     Raydium.quote_mint := "EPjFWdd5AufqSSqeM2qN1xzybapC8G4wEGGkZwyTDt1v";
     Raydium.base_symbol := "SOL";
     Raydium.quote_symbol := "USDC";
     Raydium.liquidity := literal 1000000 0;
     Raydium.volume_24h := literal 500000 0;
     Raydium.price := literal 2550 2 |}.

Definition roomy_settings : Settings.Settings :=
  {| Settings.MAX_SLIPPAGE := literal 5 2;
     Settings.MIN_PROFIT_THRESHOLD := literal 1 3;
     Settings.MAX_POSITION_SIZE := literal 1000000 0;
     Settings.DEBUG_MODE := true;
     Settings.DRY_RUN := true |}.

Definition sample_swap : MempoolMonitor.PendingSwap :=
  {| MempoolMonitor.signature := "sim_1700000000000_1234";
     MempoolMonitor.user_wallet := "user_1234";
     MempoolMonitor.token_in := "SOL";
     MempoolMonitor.token_out := "USDC";
     MempoolMonitor.amount_in := literal 100 1;
     MempoolMonitor.pool_address := "pool_SOL_USDC";
     MempoolMonitor.estimated_price_impact := literal 2 2;
     MempoolMonitor.timestamp := literal 1700000000 0 |}.

Definition sample_env : ExecEnv :=
  {| t_start := literal 1700000000 0;
     t_front := literal 17000000001 1;
     t_back := literal 17000000002 1;
     t_end := literal 17000000003 1;
     u_success := literal 5 1;
     u_variation := literal 5 1 |}.

Definition sample_opportunity : SandwichOpportunity :=
  {| pool_info := Some sample_pool;
     target_transaction := "simulated_tx_1700000000";
     estimated_profit := literal 4 1;
     front_run_amount := literal 1000 0;
     back_run_amount := literal 1000 0;
     gas_cost := literal 1 3;
     confidence_score := literal 50 0 |}.

End EngineSpec.

(* ================================================================== *)
(** ** Reading a swap instruction back *)
(* ================================================================== *)

Module WireSpec.

(** The number a little-endian byte string stands for. *)
Fixpoint le_value (bytes : list Byte.byte) : Z :=
  match bytes with
  | [] => 0
  | b :: rest => Z.of_N (Byte.to_N b) + 256 * le_value rest
  end.

(** [struct.unpack("<BQQ", data)]: one byte and two unsigned 64-bit
    fields, from exactly 17 bytes. *)
Definition unpack_BQQ (data : list Byte.byte) : option (Z * Z * Z) :=
  match data with
  | tag :: fields =>
      if (List.length fields =? 16)%nat then
        Some (le_value [tag], le_value (firstn 8 fields), le_value (skipn 8 fields))
      else None
  | [] => None
  end.

End WireSpec.

(* ================================================================== *)
(** ** Runs of the ledger client wrapper *)
(* ================================================================== *)

Module RpcSpec.

Import RPCClientWrapper.

(** Submitting transactions one after the other, on the same statistics. *)
Fixpoint submit_all
    (client_send : TransactionBuilder.VersionedTransaction -> result (option string))
    (stats : Stats) (transactions : list TransactionBuilder.VersionedTransaction)
    : list (option string) * Stats :=
  match transactions with
  | [] => ([], stats)
  | transaction :: rest =>
      let '(signature, stats1) := send_transaction client_send stats transaction in
      let '(signatures, stats2) := submit_all client_send stats1 rest in
      (signature :: signatures, stats2)
  end.

Definition is_signature (s : option string) : bool :=
  match s with Some _ => true | None => false end.

(** Polls that confirm at the third call. *)
Definition sample_polls (i : nat) : status_poll :=
  match i with
  | 2%nat => StatusConfirmed (literal 17000000025 1)
  | _ => StatusPending
  end.

End RpcSpec.

(* ================================================================== *)
(** ** Runs of the engine *)
(* ================================================================== *)

Module EngineRunSpec.

Import SandwichEngine.

(** The counters are sound when no more successes than attempts are
    recorded. *)
Definition sound_counts (st : Stats) : Prop :=
  0 <= successful_sandwiches st <= sandwiches_attempted st.

(** [self'] is [self] with [n] more opportunities detected and nothing
    else changed. *)
Definition detected_more (n : Z) (self self' : SandwichEngine) : Prop :=
  self' = with_stats self
            {| opportunities_detected := opportunities_detected (stats self) + n;
               sandwiches_attempted := sandwiches_attempted (stats self);
               successful_sandwiches := successful_sandwiches (stats self);
               total_profit := total_profit (stats self);
               total_gas_spent := total_gas_spent (stats self) |}.

(** What the scan keeps of an opportunity: it carries one of the pools
    scanned, a gas cost of 0.001 and equal front-run and back-run
    amounts, and its estimated profit is above the threshold before and
    after the gas cost is taken off. *)
Definition kept_by_scan (self : SandwichEngine) (pools : list Raydium.PoolInfo)
    (opp : SandwichOpportunity) : Prop :=
  exists pool,
    In pool pools /\ pool_info opp = Some pool /\
    gas_cost opp = literal 1 3 /\
    back_run_amount opp = front_run_amount opp /\
    flt (min_profit_threshold self) (fsub (estimated_profit opp) (gas_cost opp)) = true /\
    flt (min_profit_threshold self) (estimated_profit opp) = true.

(** The handler called on a run of pending swaps, each with its own
    readings of clock and generator. *)
Fixpoint handle_all (settings : Settings.Settings) (self : SandwichEngine)
    (swaps : list (MempoolMonitor.PendingSwap * ExecEnv)) : SandwichEngine :=
  match swaps with
  | [] => self
  | (pending_swap, env) :: rest =>
      handle_all settings (_handle_real_opportunity settings self pending_swap env) rest
  end.


(** Settings with [DRY_RUN] off and room for a position of 0.1% of the
    sample pool, under which a scan of that pool finds an opportunity. *)
Definition real_roomy_settings : Settings.Settings :=
  {| Settings.MAX_SLIPPAGE := literal 5 2;
     Settings.MIN_PROFIT_THRESHOLD := literal 1 3;
     Settings.MAX_POSITION_SIZE := literal 1000000 0;
     Settings.DEBUG_MODE := true;
     Settings.DRY_RUN := false |}.

(** One turn of the monitoring loop on the sample pool. *)
Definition sample_cycle : CycleEnv :=
  {| loop_clock := literal 1700000000 0;
     listed_targets := [EngineSpec.sample_pool];
     pool_clock := fun _ => literal 1700000000 0;
     exec_env := EngineSpec.sample_env;
     interrupted := false |}.

End EngineRunSpec.

(* ================================================================== *)
(** ** Sessions of the feed *)
(* ================================================================== *)

Module FeedRunSpec.

Import MempoolMonitor.

(** The candidates a subscribed stream hands over: one for every
    message that carries a value with an account entry and parses, up to
    the first stop request or the deadline. *)
Fixpoint stream_candidates (events : list ws_event) : list PendingSwap :=
  match events with
  | Recv (ResultValue true) d :: rest =>
      match _parse_real_transaction d with
      | Some p => p :: stream_candidates rest
      | None => stream_candidates rest
      end
  | Recv _ _ :: rest => stream_candidates rest
  | RecvBad :: rest => stream_candidates rest
  | RecvTimeout :: rest => stream_candidates rest
  | _ => []
  end.

(** How the message loop of a subscribed stream ends: it returns after
    a stop request, times out at the deadline, and is still waiting when
    the events run out. *)
Fixpoint stream_end (events : list ws_event) : outcome unit :=
  match events with
  | [] => Cancelled
  | StopRequested :: _ => Done tt
  | Deadline :: _ => Raised TimeoutError
  | _ :: rest => stream_end rest
  end.

(** The same for the whole streaming attempt. *)
Definition attempt_candidates (setup : ws_setup) (events : list ws_event)
    : list PendingSwap :=
  match setup with
  | AckResult => stream_candidates events
  | _ => []
  end.

Definition attempt_end (setup : ws_setup) (events : list ws_event) : outcome unit :=
  match setup with
  | ConnectFails => Raised (OtherError "connect")
  | ConnectHangs => Raised TimeoutError
  | AckTimeout => Raised TimeoutError
  | AckErrorResponse => Raised (OtherError "Subscription failed")
  | AckWithoutResult => Raised (OtherError "No subscription result received")
  | AckResult => stream_end events
  end.

Definition is_cycle (ev : poll_event) : bool :=
  match ev with Cycle _ => true | _ => false end.

Definition keeps_streaming (ev : ws_event) : bool :=
  match ev with StopRequested | Deadline => false | _ => true end.

(** Readings for a message that parses. *)
Definition sample_parse : ParseDraws :=
  {| parse_clock := literal 1700000000 0;
     parse_amount := literal 50 1;
     parse_impact := literal 2 2;
     parse_stamp := literal 1700000000 0 |}.

End FeedRunSpec.

(* ================================================================== *)
(** ** Scans under the default settings *)
(* ================================================================== *)

Module DefaultScanSpec.

Import SandwichEngine.

(** An engine with the default thresholds: a minimum profit of 0.001
    and a maximum position size of 1.0. *)
Definition default_thresholds (self : SandwichEngine) : Prop :=
  min_profit_threshold self = literal 1 3 /\ max_position_size self = literal 10 1.

(** Pools whose liquidity is a binary64 number in canonical form, as
    every float of the interpreter is. *)
Definition well_formed (pools : list Raydium.PoolInfo) : Prop :=
  Forall (fun pool => valid_binary prec emax (Raydium.liquidity pool) = true) pools.

(** A turn of the monitoring loop whose targets are those the exchange
    module selects, with its default minimum, from well-formed pools. *)
Definition listed_by_exchange (c : CycleEnv) : Prop :=
  exists pools,
    well_formed pools /\
    listed_targets c = Raydium.get_sandwich_targets pools Raydium.default_min_liquidity.

(** A turn on the mock pools of the development network. *)
Definition mock_cycle : CycleEnv :=
  {| loop_clock := literal 1700000000 0;
     listed_targets :=
       Raydium.get_sandwich_targets Raydium._get_devnet_mock_pools
                                    Raydium.default_min_liquidity;
     pool_clock := fun _ => literal 1700000000 0;
     exec_env := EngineSpec.sample_env;
     interrupted := false |}.

End DefaultScanSpec.

(* ================================================================== *)
(** ** Facts about binary64 rounding *)
(* ================================================================== *)

Module PyFacts.

Lemma shr_1_nonneg mrs : 0 <= shr_m mrs -> 0 <= shr_m (shr_1 mrs).
Proof.
  destruct mrs as [m r s]; simpl.
  destruct m as [|p|p]; simpl; try lia; destruct p; simpl; lia.
Qed.

Lemma iter_shr_1_nonneg p : forall mrs, 0 <= shr_m mrs -> 0 <= shr_m (iter_pos shr_1 p mrs).
Proof.
  induction p as [p IH|p IH|]; intros mrs H; simpl.
  - apply IH, IH, shr_1_nonneg, H.
  - apply IH, IH, H.
  - apply shr_1_nonneg, H.
Qed.

Lemma shr_record_of_loc_m m l : shr_m (shr_record_of_loc m l) = m.
Proof. destruct l as [|[| |]]; reflexivity. Qed.

Lemma shr_nonneg mrs e n : 0 <= shr_m mrs -> 0 <= shr_m (fst (shr mrs e n)).
Proof.
  intros H. destruct n; simpl; auto. apply iter_shr_1_nonneg, H.
Qed.

Lemma shr_fexp_nonneg pr em m e l : 0 <= m -> 0 <= shr_m (fst (shr_fexp pr em m e l)).
Proof.
  intros H. unfold shr_fexp. apply shr_nonneg. rewrite shr_record_of_loc_m. exact H.
Qed.

Lemma round_nearest_even_nonneg m l : 0 <= m -> 0 <= round_nearest_even m l.
Proof.
  intros H. destruct l as [|[| |]]; simpl; try lia. destruct (Z.even m); lia.
Qed.

Lemma binary_round_aux_signed pr em s m e l :
  0 <= m -> signed s (binary_round_aux pr em s m e l).
Proof.
  intros H. unfold binary_round_aux.
  pose proof (shr_fexp_nonneg pr em m e l H) as H1.
  destruct (shr_fexp pr em m e l) as [mrs' e'] eqn:E1. simpl in H1.
  pose proof (round_nearest_even_nonneg _ (loc_of_shr_record mrs') H1) as H2.
  pose proof (shr_fexp_nonneg pr em _ e' loc_Exact H2) as H3.
  destruct (shr_fexp pr em _ e' loc_Exact) as [mrs'' e''] eqn:E2. simpl in H3.
  destruct (shr_m mrs'') as [|p|p]; simpl; try reflexivity; try lia.
  destruct (e'' <=? em - pr); reflexivity.
Qed.

Lemma binary_round_signed pr em s m e : signed s (binary_round pr em s m e).
Proof.
  unfold binary_round. destruct (shl_align _ _ _) as [mz ez].
  apply binary_round_aux_signed. lia.
Qed.

Lemma digits2_pos_size p : digits2_pos p = Pos.size p.
Proof. induction p; simpl; congruence. Qed.

Lemma digits2_pos_bounds p :
  2 ^ (Zpos (digits2_pos p) - 1) <= Zpos p < 2 ^ Zpos (digits2_pos p).
Proof.
  rewrite digits2_pos_size.
  pose proof (Pos.size_gt p) as Hgt. pose proof (Pos.size_le p) as Hle.
  apply Pos2Z.pos_lt_pos in Hgt. apply Pos2Z.pos_le_pos in Hle.
  rewrite Pos2Z.inj_pow in Hgt, Hle.
  split; [|exact Hgt].
  replace (Zpos (Pos.size p)) with (Z.succ (Zpos (Pos.size p) - 1)) in Hle by lia.
  rewrite Z.pow_succ_r in Hle by lia. lia.
Qed.

Lemma Zdigits2_nonneg m : 0 <= Zdigits2 m.
Proof. destruct m; simpl; lia. Qed.

Lemma Zdigits2_bounds m : 0 < m -> 2 ^ (Zdigits2 m - 1) <= m < 2 ^ Zdigits2 m.
Proof. destruct m; try lia. intros _. apply digits2_pos_bounds. Qed.

(** [m < 2 ^ k] bounds the number of digits by [k]. *)
Lemma Zdigits2_le m k : 0 <= m -> 0 <= k -> m < 2 ^ k -> Zdigits2 m <= k.
Proof.
  intros Hm Hk H. destruct (Z.eq_dec m 0) as [->|Hne]; [simpl; lia|].
  destruct (Zdigits2_bounds m) as [Hlo _]; [lia|].
  destruct (Z_le_gt_dec (Zdigits2 m) k) as [|Hgt]; [assumption|exfalso].
  assert (2 ^ k <= 2 ^ (Zdigits2 m - 1)) by (apply Z.pow_le_mono_r; lia). lia.
Qed.

(** At least [k] digits from [2 ^ (k - 1) <= m]. *)
Lemma Zdigits2_ge m k : 0 < k -> 2 ^ (k - 1) <= m -> k <= Zdigits2 m.
Proof.
  intros Hk H. assert (0 < m) by (pose proof (Z.pow_pos_nonneg 2 (k - 1)); lia).
  destruct (Zdigits2_bounds m) as [_ Hhi]; [lia|].
  destruct (Z_le_gt_dec k (Zdigits2 m)) as [|Hgt]; [assumption|exfalso].
  assert (2 ^ Zdigits2 m <= 2 ^ (k - 1)) by (apply Z.pow_le_mono_r; lia). lia.
Qed.

Lemma shr_1_m mrs : 0 <= shr_m mrs -> shr_m (shr_1 mrs) = shr_m mrs / 2.
Proof.
  destruct mrs as [m r s]; simpl. intros H.
  destruct m as [|p|p]; try lia; [reflexivity|].
  destruct p as [p|p|]; simpl.
  - rewrite Pos2Z.inj_xI. apply Z.div_unique with (r := 1); lia.
  - rewrite Pos2Z.inj_xO. apply Z.div_unique with (r := 0); lia.
  - reflexivity.
Qed.

Lemma iter_shr_1_m p : forall mrs,
  0 <= shr_m mrs -> shr_m (iter_pos shr_1 p mrs) = shr_m mrs / 2 ^ Zpos p.
Proof.
  assert (Hnn : forall q mrs, 0 <= shr_m mrs -> 0 <= shr_m (iter_pos shr_1 q mrs)).
  { induction q as [q IH|q IH|]; intros mrs H; simpl.
    - apply IH, IH. rewrite shr_1_m by assumption. apply Z.div_pos; lia.
    - apply IH, IH, H.
    - rewrite shr_1_m by assumption. apply Z.div_pos; lia. }
  induction p as [p IH|p IH|]; intros mrs H; cbn [iter_pos].
  - assert (H1 : 0 <= shr_m (shr_1 mrs)) by (rewrite shr_1_m by assumption; apply Z.div_pos; lia).
    rewrite IH by (apply Hnn, H1). rewrite IH by exact H1. rewrite shr_1_m by assumption.
    assert (0 < 2 ^ Zpos p) by (apply Z.pow_pos_nonneg; lia).
    rewrite !Z.div_div by lia.
    f_equal. replace (Zpos p~1) with (1 + Zpos p + Zpos p) by lia.
    rewrite !Z.pow_add_r by lia. lia.
  - rewrite IH by (apply Hnn, H). rewrite IH by exact H.
    assert (0 < 2 ^ Zpos p) by (apply Z.pow_pos_nonneg; lia).
    rewrite Z.div_div by lia.
    f_equal. replace (Zpos p~0) with (Zpos p + Zpos p) by lia.
    rewrite !Z.pow_add_r by lia. lia.
  - rewrite shr_1_m by assumption. reflexivity.
Qed.

(** The first component and the exponent after [shr_fexp]. *)
Lemma shr_fexp_spec pr em m e l :
  0 <= m ->
  let n := Z.max 0 (fexp pr em (Zdigits2 m + e) - e) in
  shr_m (fst (shr_fexp pr em m e l)) = m / 2 ^ n /\
  snd (shr_fexp pr em m e l) = e + n.
Proof.
  intros Hm n. unfold shr_fexp, shr. subst n.
  destruct (fexp pr em (Zdigits2 m + e) - e) as [|p|p] eqn:E; simpl.
  - rewrite shr_record_of_loc_m. rewrite Z.div_1_r. split; lia.
  - rewrite iter_shr_1_m by (rewrite shr_record_of_loc_m; exact Hm).
    rewrite shr_record_of_loc_m. rewrite Z.max_r by lia. split; reflexivity.
  - rewrite shr_record_of_loc_m. rewrite Z.div_1_r. split; lia.
Qed.

Lemma pow2_pos k : 0 <= k -> 0 < 2 ^ k.
Proof. intros. apply Z.pow_pos_nonneg; lia. Qed.

Lemma pow2_lt_exp_nonneg m k : 0 <= m -> m < 2 ^ k -> 0 <= k.
Proof.
  intros Hm H. destruct (Z_lt_le_dec k 0) as [Hk|]; [|assumption].
  rewrite Z.pow_neg_r in H by assumption. lia.
Qed.

Lemma fexp_le pr em x B : x <= B -> fexp pr em x <= Z.max (B - pr) (emin pr em).
Proof. unfold fexp. lia. Qed.

(** One alignment step keeps a magnitude bound. *)
Lemma shr_fexp_le pr em m e l X E :
  0 <= m -> m < 2 ^ (X - e) -> e <= E -> emin pr em <= X -> 0 <= pr ->
  let r := shr_fexp pr em m e l in
  0 <= shr_m (fst r) /\
  shr_m (fst r) < 2 ^ (X - snd r) /\
  snd r <= Z.max E (Z.max (X - pr) (emin pr em)) /\
  snd r <= X.
Proof.
  intros Hm Hlt HE Hmin Hpr r.
  destruct (shr_fexp_spec pr em m e l Hm) as [Hm1 He1]. fold r in Hm1, He1.
  set (n := Z.max 0 (fexp pr em (Zdigits2 m + e) - e)) in *.
  pose proof (pow2_lt_exp_nonneg _ _ Hm Hlt) as HXe.
  assert (Hd : Zdigits2 m <= X - e) by (apply Zdigits2_le; assumption).
  pose proof (fexp_le pr em (Zdigits2 m + e) X ltac:(lia)) as Hf.
  assert (Hn : 0 <= n) by (unfold n; lia).
  assert (He1X : e + n <= X) by (unfold n; lia).
  rewrite Hm1, He1. repeat split.
  - apply Z.div_pos; [assumption | apply pow2_pos; assumption].
  - apply Z.div_lt_upper_bound; [apply pow2_pos; assumption|].
    rewrite <- Z.pow_add_r by lia. replace (n + (X - (e + n))) with (X - e) by lia. assumption.
  - unfold n. lia.
  - assumption.
Qed.

(** One alignment step keeps a positive mantissa positive above the
    smallest exponent, and does not lose magnitude digits. *)
Lemma shr_fexp_pos pr em m e l :
  0 < pr -> 0 < m -> emin pr em < Zdigits2 m + e ->
  let r := shr_fexp pr em m e l in
  0 < shr_m (fst r) /\ Zdigits2 m + e <= Zdigits2 (shr_m (fst r)) + snd r.
Proof.
  intros Hpr Hm Hmin r.
  destruct (shr_fexp_spec pr em m e l ltac:(lia)) as [Hm1 He1]. fold r in Hm1, He1.
  set (n := Z.max 0 (fexp pr em (Zdigits2 m + e) - e)) in *.
  destruct (Zdigits2_bounds m Hm) as [Hlo Hhi].
  assert (Hd0 : 0 < Zdigits2 m) by (destruct m; simpl; lia).
  assert (Hn : 0 <= n < Zdigits2 m) by (unfold n, fexp; lia).
  assert (Hdiv : 2 ^ (Zdigits2 m - 1 - n) <= m / 2 ^ n).
  { apply Z.div_le_lower_bound; [apply pow2_pos; lia|].
    rewrite <- Z.pow_add_r by lia.
    replace (n + (Zdigits2 m - 1 - n)) with (Zdigits2 m - 1) by lia. assumption. }
  rewrite Hm1, He1. split.
  - pose proof (pow2_pos (Zdigits2 m - 1 - n) ltac:(lia)). lia.
  - assert (Zdigits2 m - n <= Zdigits2 (m / 2 ^ n)).
    { apply Zdigits2_ge; [lia|].
      replace (Zdigits2 m - n - 1) with (Zdigits2 m - 1 - n) by lia. assumption. }
    lia.
Qed.

Lemma round_nearest_even_range m l :
  m <= round_nearest_even m l <= m + 1.
Proof. destruct l as [|[| |]]; simpl; try lia. destruct (Z.even m); lia. Qed.

Lemma Zdigits2_mono a b : 0 < a -> a <= b -> Zdigits2 a <= Zdigits2 b.
Proof.
  intros Ha Hab. destruct (Zdigits2_bounds a Ha) as [Hlo _].
  apply Zdigits2_ge; [|lia].
  destruct a; simpl; lia.
Qed.

(** Rounding a bounded magnitude: the result is zero or finite, and
    bounded one binade higher. *)
Lemma binary_round_aux_bounded pr em s m e l X E :
  0 < pr -> 0 <= m -> m < 2 ^ (X - e) -> e <= E ->
  emin pr em <= X -> X + 1 <= em -> E <= em - pr -> emin pr em <= em - pr ->
  bounded_by (X + 1) (Z.max E (Z.max (X + 1 - pr) (emin pr em)))
             (binary_round_aux pr em s m e l).
Proof.
  intros Hpr Hm Hlt HE Hmin HX HEm Hfmt. unfold binary_round_aux.
  destruct (shr_fexp_le pr em m e l X E Hm Hlt HE Hmin ltac:(lia)) as (H1a & H1b & H1c & H1d).
  destruct (shr_fexp pr em m e l) as [mrs' e'] eqn:E1. simpl in H1a, H1b, H1c, H1d.
  pose proof (round_nearest_even_range (shr_m mrs') (loc_of_shr_record mrs')) as Hr.
  set (m2 := round_nearest_even (shr_m mrs') (loc_of_shr_record mrs')) in *.
  assert (H2lt : m2 < 2 ^ (X + 1 - e')).
  { replace (X + 1 - e') with (Z.succ (X - e')) by lia.
    rewrite Z.pow_succ_r by lia. lia. }
  destruct (shr_fexp_le pr em m2 e' loc_Exact (X + 1)
              (Z.max E (Z.max (X - pr) (emin pr em))) ltac:(lia) H2lt H1c ltac:(lia) ltac:(lia))
    as (H3a & H3b & H3c & H3d).
  destruct (shr_fexp pr em m2 e' loc_Exact) as [mrs'' e''] eqn:E2.
  simpl in H3a, H3b, H3c, H3d.
  destruct (shr_m mrs'') as [|p|p]; simpl; try exact I; try lia.
  assert (He'' : e'' <= em - pr) by lia.
  apply Z.leb_le in He''. rewrite He''. simpl. split; [assumption | lia].
Qed.

(** Rounding a positive magnitude above the smallest exponent never
    gives zero. *)
Lemma binary_round_aux_nonzero pr em s m e l :
  0 < pr -> 0 < m -> emin pr em < Zdigits2 m + e ->
  is_zero (binary_round_aux pr em s m e l) = false.
Proof.
  intros Hpr Hm Hmin. unfold binary_round_aux.
  destruct (shr_fexp_pos pr em m e l Hpr Hm Hmin) as [H1a H1b].
  destruct (shr_fexp pr em m e l) as [mrs' e'] eqn:E1. simpl in H1a, H1b.
  pose proof (round_nearest_even_range (shr_m mrs') (loc_of_shr_record mrs')) as Hr.
  set (m2 := round_nearest_even (shr_m mrs') (loc_of_shr_record mrs')) in *.
  assert (Hd : Zdigits2 (shr_m mrs') <= Zdigits2 m2) by (apply Zdigits2_mono; lia).
  destruct (shr_fexp_pos pr em m2 e' loc_Exact Hpr ltac:(lia) ltac:(lia)) as [H3a H3b].
  destruct (shr_fexp pr em m2 e' loc_Exact) as [mrs'' e''] eqn:E2. simpl in H3a, H3b.
  destruct (shr_m mrs'') as [|p|p]; try lia.
  destruct (e'' <=? em - pr); reflexivity.
Qed.

Lemma emin_b64 : emin prec emax = -1074.
Proof. reflexivity. Qed.

Lemma pos_iter_xO m d : Zpos (Pos.iter xO m d) = Zpos m * 2 ^ Zpos d.
Proof.
  induction d as [|d IH] using Pos.peano_ind.
  - simpl. lia.
  - rewrite Pos.iter_succ, Pos2Z.inj_xO, IH, Pos2Z.inj_succ, Z.pow_succ_r by lia. lia.
Qed.

(** Aligning to a lower exponent keeps the value. *)
Lemma shl_align_spec mx ex ex' :
  let r := shl_align mx ex ex' in
  Zpos (fst r) = Zpos mx * 2 ^ (ex - snd r) /\ snd r = Z.min ex ex'.
Proof.
  unfold shl_align. destruct (ex' - ex) as [|d|d] eqn:E; cbv zeta; cbn [fst snd].
  - rewrite Z.sub_diag, Z.pow_0_r. lia.
  - rewrite Z.sub_diag, Z.pow_0_r. lia.
  - rewrite pos_iter_xO. split; [|lia]. f_equal. f_equal. lia.
Qed.

Lemma binary_round_bounded s m e X E :
  Zpos m < 2 ^ (X - e) -> e <= E -> -1074 <= X -> X + 1 <= 1024 -> E <= 971 ->
  bounded_by (X + 1) (Z.max E (Z.max (X - 52) (-1074))) (binary_round prec emax s m e).
Proof.
  intros Hlt HE Hmin HX HEm. unfold binary_round.
  destruct (shl_align_spec m e (fexp prec emax (Zpos (digits2_pos m) + e))) as [Hv He].
  destruct (shl_align m e _) as [mz ez]. cbn [fst snd] in Hv, He.
  pose proof (pow2_lt_exp_nonneg _ _ (Pos2Z.is_nonneg m) Hlt) as HXe.
  assert (Hb : bounded_by (X + 1) (Z.max E (Z.max (X + 1 - prec) (emin prec emax)))
                 (binary_round_aux prec emax s (Zpos mz) ez loc_Exact)).
  { apply binary_round_aux_bounded; rewrite ?emin_b64; unfold prec, emax; try lia.
    rewrite Hv. replace (X - ez) with ((X - e) + (e - ez)) by lia.
    rewrite Z.pow_add_r by lia.
    apply Z.mul_lt_mono_pos_r; [apply pow2_pos; lia | exact Hlt]. }
  rewrite emin_b64 in Hb. unfold prec in Hb at 1.
  replace (X + 1 - 53) with (X - 52) in Hb by lia. exact Hb.
Qed.

Lemma binary_normalize_signed n e :
  n <> 0 -> signed (n <? 0) (binary_normalize prec emax n e false).
Proof.
  destruct n as [|p|p]; intros H; [congruence| |]; simpl; apply binary_round_signed.
Qed.

(** [float(n)] succeeds on integers below [2 ^ K]. *)
Lemma float_of_int_bounded n K :
  Z.abs n < 2 ^ K -> 0 <= K <= 1022 ->
  exists x, float_of_int n = Ok x /\
            bounded_by (K + 1) (Z.max 0 (K - 52)) x /\
            (n = 0 -> x = S754_zero false) /\
            (n <> 0 -> signed (n <? 0) x).
Proof.
  intros Hn HK. unfold float_of_int.
  assert (Hb : bounded_by (K + 1) (Z.max 0 (K - 52)) (binary_normalize prec emax n 0 false)).
  { destruct n as [|p|p]; simpl; [exact I| |].
    - pose proof (binary_round_bounded false p 0 K 0) as H.
      replace (Z.max 0 (Z.max (K - 52) (-1074))) with (Z.max 0 (K - 52)) in H by lia.
      apply H; try lia. rewrite Z.sub_0_r. exact Hn.
    - pose proof (binary_round_bounded true p 0 K 0) as H.
      replace (Z.max 0 (Z.max (K - 52) (-1074))) with (Z.max 0 (K - 52)) in H by lia.
      apply H; try lia. rewrite Z.sub_0_r. exact Hn. }
  exists (binary_normalize prec emax n 0 false).
  split; [|split; [exact Hb|split]].
  - destruct (binary_normalize prec emax n 0 false); simpl in *; try reflexivity; contradiction.
  - intros ->. reflexivity.
  - apply binary_normalize_signed.
Qed.

Lemma bounded_by_finite X E x : bounded_by X E x -> is_finite x = true.
Proof. destruct x; simpl; intros H; try reflexivity; contradiction. Qed.

Lemma fmul_signed sx sy x y :
  is_finite x = true -> is_finite y = true -> signed sx x -> signed sy y ->
  signed (xorb sx sy) (fmul x y).
Proof.
  destruct x as [s1|s1| |s1 m1 e1], y as [s2|s2| |s2 m2 e2]; simpl;
    try discriminate; intros _ _ -> ->; try reflexivity.
  apply binary_round_aux_signed. lia.
Qed.

(** Products of bounded floats are bounded: no overflow below the top. *)
Lemma fmul_bounded X1 E1 X2 E2 x y :
  bounded_by X1 E1 x -> bounded_by X2 E2 y ->
  -1074 <= X1 + X2 -> X1 + X2 + 1 <= 1024 -> E1 + E2 <= 971 ->
  is_finite (fmul x y) = true.
Proof.
  destruct x as [s1|s1| |s1 m1 e1], y as [s2|s2| |s2 m2 e2]; simpl;
    try contradiction; try reflexivity.
  intros [H1 H1e] [H2 H2e] Hmin HX HE.
  pose proof (pow2_lt_exp_nonneg _ _ (Pos2Z.is_nonneg m1) H1).
  pose proof (pow2_lt_exp_nonneg _ _ (Pos2Z.is_nonneg m2) H2).
  eapply bounded_by_finite.
  apply (binary_round_aux_bounded prec emax (xorb s1 s2) (Zpos (m1 * m2)) (e1 + e2)
           loc_Exact (X1 + X2) (E1 + E2)); rewrite ?emin_b64; unfold prec, emax; try lia.
  rewrite Pos2Z.inj_mul.
  replace (X1 + X2 - (e1 + e2)) with ((X1 - e1) + (X2 - e2)) by lia.
  rewrite Z.pow_add_r by lia.
  apply Z.mul_lt_mono_nonneg; lia.
Qed.

(** [int(x)] on a finite float: it returns, with the sign of [x]. *)
Lemma int_of_float_finite x :
  is_finite x = true -> exists n, int_of_float x = Ok n.
Proof. destruct x; simpl; try discriminate; eauto. Qed.

Lemma int_of_float_nonneg x n :
  signed false x -> int_of_float x = Ok n -> 0 <= n.
Proof.
  destruct x as [s|s| |s m e]; simpl; try discriminate; try contradiction.
  - intros _ H. injection H as <-. lia.
  - intros -> H. injection H as <-.
    destruct e as [|p|p].
    + rewrite Z.shiftl_0_r. lia.
    + apply Z.shiftl_nonneg. lia.
    + apply Z.shiftr_nonneg. lia.
Qed.

Lemma float_of_int_1 : float_of_int 1 = Ok one.
Proof. reflexivity. Qed.

Lemma valid_mantissa_lt m e :
  valid_binary prec emax (S754_finite false m e) = true -> Zpos m < 2 ^ 53.
Proof.
  cbn [valid_binary]. unfold bounded, canonical_mantissa. intros H.
  apply andb_true_iff in H as [H _]. apply Z.eqb_eq in H.
  destruct (digits2_pos_bounds m) as [_ Hhi].
  assert (Hd : Zpos (digits2_pos m) <= 53) by (revert H; unfold fexp, prec; lia).
  eapply Z.lt_le_trans; [exact Hhi|]. apply Z.pow_le_mono_r; lia.
Qed.

(** [1 - fee_rate] for a fee in the unit interval: a number in [(0, 1]]. *)
Lemma one_minus_fee fee :
  unit_fee fee ->
  exists c, int_sub_float 1 fee = Ok c /\ signed false c /\ bounded_by 1 (-52) c.
Proof.
  intros (Hv & H0 & H1). unfold int_sub_float. rewrite float_of_int_1. cbn [bind].
  eexists; split; [reflexivity|].
  destruct fee as [s|s| |s m e].
  - simpl. split; [reflexivity|]. split; [reflexivity | lia].
  - destruct s; discriminate.
  - discriminate.
  - destruct s; [discriminate|].
    pose proof (valid_mantissa_lt m e Hv) as Hm.
    assert (He : e <= -52 /\ Zpos m < 2 ^ (- e)).
    { revert H1. unfold flt, SFltb, one. cbn [SFcompare].
      destruct (Z.compare_spec e (-52)) as [->|Hlt|Hgt]; try discriminate.
      - intros H. split; [lia|].
        assert (Ec : (m < 4503599627370496)%positive).
        { unfold Pos.lt, Pos.compare. revert H.
          destruct (Pos.compare_cont Eq m 4503599627370496); intros H;
            first [reflexivity | cbn in H; discriminate H]. }
        apply Pos2Z.pos_lt_pos in Ec. exact Ec.
      - intros _. split; [lia|]. eapply Z.lt_le_trans; [exact Hm|].
        apply Z.pow_le_mono_r; lia. }
    destruct He as [He Hlt].
    unfold fsub, one. cbn [SFsub cond_Zopp].
    destruct (shl_align_spec 4503599627370496 (-52) (Z.min (-52) e)) as [Ha1 Ha2].
    destruct (shl_align_spec m e (Z.min (-52) e)) as [Hb1 Hb2].
    rewrite Z.min_r in * by lia.
    rewrite Ha2 in Ha1. rewrite Hb2 in Hb1. rewrite Z.min_id in Hb1.
    rewrite Z.min_r in Ha1 by lia. rewrite Z.sub_diag, Z.pow_0_r, Z.mul_1_r in Hb1.
    rewrite Ha1, Hb1.
    replace (4503599627370496 * 2 ^ (-52 - e)) with (2 ^ (- e)).
    2:{ change 4503599627370496 with (2 ^ 52). rewrite <- Z.pow_add_r by lia.
        f_equal. lia. }
    destruct (2 ^ (- e) - Zpos m) as [|p|p] eqn:ED; try lia.
    cbn [binary_normalize]. split; [apply binary_round_signed|].
    pose proof (binary_round_bounded false p e 0 e) as Hb.
    replace (Z.max e (Z.max (0 - 52) (-1074))) with (-52) in Hb by lia.
    apply Hb; try lia. rewrite Z.sub_0_l. lia.
Qed.

(** The division core on two positive integers. *)
Lemma div_core_spec a b :
  0 < a -> 0 < b ->
  let e' := Z.min (fexp prec emax (Zdigits2 a - Zdigits2 b)) 0 in
  exists l, SFdiv_core_binary prec emax a 0 b 0 = (a * 2 ^ (- e') / b, e', l).
Proof.
  intros Ha Hb e'. unfold SFdiv_core_binary.
  rewrite !Z.add_0_r. rewrite !Z.sub_0_r. fold e'. rewrite Z.sub_0_l.
  assert (He' : e' <= 0) by (unfold e'; lia).
  set (m' := match - e' with Zpos _ => Z.shiftl a (- e') | Z0 => a | Zneg _ => 0 end).
  assert (Hm' : m' = a * 2 ^ (- e')).
  { unfold m'. destruct (- e') as [|p|p] eqn:E; try lia.
    apply Z.shiftl_mul_pow2. lia. }
  rewrite <- Hm'. unfold Z.div.
  destruct (Z.div_eucl m' b) as [q r]. eexists. reflexivity.
Qed.

Lemma round_ratio_signed a b :
  b <> 0 -> signed (xorb (a <? 0) (b <? 0)) (round_ratio a b).
Proof.
  intros Hb. unfold round_ratio.
  destruct (Z.eq_dec a 0) as [->|Ha]; [reflexivity|].
  destruct (div_core_spec (Z.abs a) (Z.abs b) ltac:(lia) ltac:(lia)) as [l Hc].
  rewrite Hc.
  set (q := Z.abs a * 2 ^ _ / Z.abs b).
  assert (Hq : 0 <= q).
  { apply Z.div_pos; [|lia]. apply Z.mul_nonneg_nonneg; [lia|].
    apply Z.pow_nonneg. lia. }
  destruct a; [congruence| |]; apply binary_round_aux_signed; exact Hq.
Qed.

(** The rounded ratio of two positive integers below [2 ^ K]: a finite
    positive float, never zero. *)
Lemma round_ratio_positive a b K :
  0 < a < 2 ^ K -> 0 < b < 2 ^ K -> 0 <= K <= 1022 ->
  signed false (round_ratio a b) /\
  is_finite (round_ratio a b) = true /\
  is_zero (round_ratio a b) = false.
Proof.
  intros Ha Hb HK.
  split.
  { pose proof (round_ratio_signed a b ltac:(lia)) as H.
    replace (a <? 0) with false in H by (symmetry; apply Z.ltb_ge; lia).
    replace (b <? 0) with false in H by (symmetry; apply Z.ltb_ge; lia).
    exact H. }
  unfold round_ratio.
  destruct (div_core_spec (Z.abs a) (Z.abs b) ltac:(lia) ltac:(lia)) as [l Hc].
  destruct a as [|a|a]; try lia. rewrite Hc. clear Hc.
  rewrite !Z.abs_eq by lia.
  set (A := Zpos a) in *.
  set (e' := Z.min (fexp prec emax (Zdigits2 A - Zdigits2 b)) 0).
  assert (HdA : 0 < Zdigits2 A <= K).
  { split; [unfold A; simpl; lia|]. apply Zdigits2_le; lia. }
  assert (Hdb : 0 < Zdigits2 b <= K).
  { split; [destruct b; simpl; lia|]. apply Zdigits2_le; lia. }
  destruct (Zdigits2_bounds A ltac:(lia)) as [HAlo HAhi].
  destruct (Zdigits2_bounds b ltac:(lia)) as [Hblo Hbhi].
  assert (He' : -1074 <= e' <= 0 /\ Zdigits2 b <= Zdigits2 A - 1 - e').
  { unfold e', fexp. rewrite emin_b64. unfold prec. lia. }
  assert (Hp : 0 < 2 ^ (- e')) by (apply pow2_pos; lia).
  assert (Hq1 : 1 <= A * 2 ^ (- e') / b).
  { apply Z.div_le_lower_bound; [lia|]. rewrite Z.mul_1_r.
    assert (2 ^ Zdigits2 b <= 2 ^ (Zdigits2 A - 1 - e')) by (apply Z.pow_le_mono_r; lia).
    replace (Zdigits2 A - 1 - e') with ((Zdigits2 A - 1) + (- e')) in H by lia.
    rewrite Z.pow_add_r in H by lia. nia. }
  assert (Hq2 : A * 2 ^ (- e') / b < 2 ^ (K - e')).
  { apply Z.le_lt_trans with (A * 2 ^ (- e')).
    - apply Z.div_le_upper_bound; [lia|]. nia.
    - replace (K - e') with (K + (- e')) by lia. rewrite Z.pow_add_r by lia.
      apply Z.mul_lt_mono_pos_r; lia. }
  split.
  - eapply bounded_by_finite.
    apply (binary_round_aux_bounded prec emax _ _ e' l K 0);
      rewrite ?emin_b64; unfold prec, emax; lia.
  - apply binary_round_aux_nonzero; [unfold prec; lia | lia |].
    rewrite emin_b64.
    assert (1 <= Zdigits2 (A * 2 ^ (- e') / b)) by (apply Zdigits2_ge; [lia | change (2 ^ (1 - 1)) with 1; lia]).
    lia.
Qed.

Lemma Zdigits2_shift m n :
  0 < m -> 0 <= n < Zdigits2 m -> Zdigits2 (m / 2 ^ n) = Zdigits2 m - n.
Proof.
  intros Hm Hn. destruct (Zdigits2_bounds m Hm) as [Hlo Hhi].
  assert (Hp : 0 < 2 ^ n) by (apply pow2_pos; lia).
  assert (H1 : 2 ^ (Zdigits2 m - n - 1) <= m / 2 ^ n).
  { apply Z.div_le_lower_bound; [exact Hp|].
    rewrite <- Z.pow_add_r by lia.
    replace (n + (Zdigits2 m - n - 1)) with (Zdigits2 m - 1) by lia. exact Hlo. }
  assert (H2 : m / 2 ^ n < 2 ^ (Zdigits2 m - n)).
  { apply Z.div_lt_upper_bound; [exact Hp|].
    rewrite <- Z.pow_add_r by lia.
    replace (n + (Zdigits2 m - n)) with (Zdigits2 m) by lia. exact Hhi. }
  apply Z.le_antisymm.
  - apply Zdigits2_le; [apply Z.div_pos; lia | lia | exact H2].
  - apply Zdigits2_ge; [lia | exact H1].
Qed.

Lemma fexp_mono pr em x y : x <= y -> fexp pr em x <= fexp pr em y.
Proof. unfold fexp. lia. Qed.

Lemma fexp_ge_emin pr em x : emin pr em <= fexp pr em x.
Proof. unfold fexp. lia. Qed.

(** One alignment step on an aligned mantissa: the exponent becomes the
    canonical one, and a mantissa that survives is canonical. *)
Lemma shr_fexp_canonical pr em m e l :
  0 < pr -> 0 <= m -> e <= fexp pr em (Zdigits2 m + e) ->
  let r := shr_fexp pr em m e l in
  0 <= shr_m (fst r) /\
  snd r = fexp pr em (Zdigits2 m + e) /\
  (0 < shr_m (fst r) -> Zdigits2 (shr_m (fst r)) + snd r = Zdigits2 m + e) /\
  (shr_m (fst r) = 0 -> snd r = emin pr em).
Proof.
  intros Hpr Hm Hal r.
  destruct (shr_fexp_spec pr em m e l Hm) as [Hm1 He1]. fold r in Hm1, He1.
  set (n := Z.max 0 (fexp pr em (Zdigits2 m + e) - e)) in *.
  assert (Hn : n = fexp pr em (Zdigits2 m + e) - e) by (unfold n; lia).
  assert (Hp : 0 < 2 ^ n) by (apply pow2_pos; lia).
  rewrite Hm1, He1. split; [apply Z.div_pos; lia|]. split; [lia|].
  pose proof (Zdigits2_nonneg m) as Hd.
  destruct (Z_lt_le_dec n (Zdigits2 m)) as [Hlt|Hge].
  - assert (Hm0 : 0 < m) by (destruct m; simpl in *; lia).
    split.
    + intros _. rewrite Zdigits2_shift by lia. lia.
    + intros H0. exfalso.
      destruct (Zdigits2_bounds m Hm0) as [Hlo _].
      assert (2 ^ n <= 2 ^ (Zdigits2 m - 1)) by (apply Z.pow_le_mono_r; lia).
      assert (1 <= m / 2 ^ n) by (apply Z.div_le_lower_bound; lia).
      lia.
  - assert (Hz : m / 2 ^ n = 0).
    { destruct (Z.eq_dec m 0) as [->|Hne]; [apply Z.div_0_l; lia|].
      apply Z.div_small. destruct (Zdigits2_bounds m ltac:(lia)) as [_ Hhi].
      assert (2 ^ Zdigits2 m <= 2 ^ n) by (apply Z.pow_le_mono_r; lia). lia. }
    rewrite Hz. split; [lia|]. intros _.
    revert Hn Hge. unfold fexp. lia.
Qed.

(** Rounding an aligned mantissa gives a valid float. *)
Lemma binary_round_aux_valid pr em s m e l :
  0 < pr -> 0 <= m -> e <= fexp pr em (Zdigits2 m + e) ->
  valid_binary pr em (binary_round_aux pr em s m e l) = true.
Proof.
  intros Hpr Hm Hal. unfold binary_round_aux.
  destruct (shr_fexp_canonical pr em m e l Hpr Hm Hal) as (H1a & H1b & H1c & H1d).
  destruct (shr_fexp pr em m e l) as [mrs' e'] eqn:E1. cbn [fst snd] in H1a, H1b, H1c, H1d.
  pose proof (round_nearest_even_range (shr_m mrs') (loc_of_shr_record mrs')) as Hr.
  set (m2 := round_nearest_even (shr_m mrs') (loc_of_shr_record mrs')) in *.
  assert (Hal2 : e' <= fexp pr em (Zdigits2 m2 + e')).
  { destruct (Z.eq_dec (shr_m mrs') 0) as [H0|Hne].
    - rewrite (H1d H0). apply fexp_ge_emin.
    - assert (Hpos : 0 < shr_m mrs') by lia.
      specialize (H1c Hpos).
      pose proof (Zdigits2_mono (shr_m mrs') m2 Hpos ltac:(lia)).
      rewrite H1b at 1. apply fexp_mono. lia. }
  destruct (shr_fexp_canonical pr em m2 e' loc_Exact Hpr ltac:(lia) Hal2)
    as (H3a & H3b & H3c & H3d).
  destruct (shr_fexp pr em m2 e' loc_Exact) as [mrs'' e''] eqn:E2.
  cbn [fst snd] in H3a, H3b, H3c, H3d.
  destruct (shr_m mrs'') as [|p|p] eqn:Em; try reflexivity.
  destruct (e'' <=? em - pr) eqn:Ee; [|reflexivity].
  cbn [valid_binary]. unfold bounded, canonical_mantissa. rewrite Ee, andb_true_r.
  apply Z.eqb_eq. specialize (H3c ltac:(lia)). cbn [Zdigits2] in H3c.
  rewrite H3c. symmetry. exact H3b.
Qed.

(** The rounded ratio of two integers is a valid float. *)
Lemma round_ratio_valid a b : b <> 0 -> valid_binary prec emax (round_ratio a b) = true.
Proof.
  intros Hb. unfold round_ratio.
  destruct (Z.eq_dec a 0) as [->|Ha]; [reflexivity|].
  destruct (div_core_spec (Z.abs a) (Z.abs b) ltac:(lia) ltac:(lia)) as [l Hc].
  rewrite Hc.
  set (A := Z.abs a) in *. set (B := Z.abs b) in *.
  set (e' := Z.min (fexp prec emax (Zdigits2 A - Zdigits2 B)) 0).
  set (q := A * 2 ^ (- e') / B).
  assert (HA : 0 < A) by (unfold A; lia). assert (HB : 0 < B) by (unfold B; lia).
  assert (He' : e' <= 0) by (unfold e'; lia).
  assert (Hp : 0 < 2 ^ (- e')) by (apply pow2_pos; lia).
  assert (Hq : 0 <= q) by (apply Z.div_pos; nia).
  assert (Hal : e' <= fexp prec emax (Zdigits2 q + e')).
  { destruct (Zdigits2_bounds A HA) as [HAlo _].
    destruct (Zdigits2_bounds B HB) as [_ HBhi].
    assert (HdA : 0 < Zdigits2 A) by (destruct A; simpl in *; lia).
    assert (HdB : 0 < Zdigits2 B) by (destruct B; simpl in *; lia).
    destruct (Z_le_gt_dec 0 (Zdigits2 A - 1 - e' - Zdigits2 B)) as [Hge|Hlt].
    - assert (Hlow : 2 ^ (Zdigits2 A - 1 - e' - Zdigits2 B) <= q).
      { apply Z.div_le_lower_bound; [lia|].
        assert (H1 : 2 ^ (Zdigits2 A - 1 - e') <= A * 2 ^ (- e')).
        { replace (Zdigits2 A - 1 - e') with ((Zdigits2 A - 1) + (- e')) by lia.
          rewrite Z.pow_add_r by lia. nia. }
        assert (H2 : B * 2 ^ (Zdigits2 A - 1 - e' - Zdigits2 B)
                     <= 2 ^ Zdigits2 B * 2 ^ (Zdigits2 A - 1 - e' - Zdigits2 B)).
        { apply Z.mul_le_mono_nonneg_r; [apply Z.pow_nonneg|]; lia. }
        rewrite <- Z.pow_add_r in H2 by lia.
        replace (Zdigits2 B + (Zdigits2 A - 1 - e' - Zdigits2 B))
          with (Zdigits2 A - 1 - e') in H2 by lia.
        lia. }
      assert (Zdigits2 A - e' - Zdigits2 B <= Zdigits2 q).
      { apply Zdigits2_ge; [lia|].
        replace (Zdigits2 A - e' - Zdigits2 B - 1)
          with (Zdigits2 A - 1 - e' - Zdigits2 B) by lia. exact Hlow. }
      apply Z.le_trans with (fexp prec emax (Zdigits2 A - Zdigits2 B)); [unfold e'; lia|].
      apply fexp_mono. lia.
    - assert (e' = emin prec emax).
      { revert Hlt. unfold e', fexp. rewrite emin_b64. unfold prec. lia. }
      rewrite H at 1. apply fexp_ge_emin. }
  destruct a; [congruence| |]; apply binary_round_aux_valid; unfold prec; try lia;
    exact Hal.
Qed.

(** Against the double [0.01], a valid float compares as its value
    compares with one hundredth. *)
Lemma flt_one_percent x :
  valid_binary prec emax x = true -> is_finite x = true ->
  flt x (literal 1 2) = true <-> (float_to_Q x < 1 # 100)%Q.
Proof.
  intros Hv Hf.
  replace (literal 1 2) with (S754_finite false 5764607523034235 (-59))
    by (vm_compute; reflexivity).
  destruct x as [s|s| |s m e]; try discriminate.
  - split; [intros _; reflexivity | intros _; reflexivity].
  - destruct s.
    + split; [intros _ | intros _; reflexivity].
      cbn [float_to_Q].
      set (mag := match e with
                  | Zneg p => Qmake (Zpos m) (2 ^ p)%positive
                  | _ => inject_Z (Zpos m * 2 ^ e)
                  end).
      assert (Hn : 0 <= Qnum mag).
      { unfold mag. destruct e; cbn [Qnum inject_Z];
          first [lia | apply Z.mul_nonneg_nonneg; [lia | apply Z.pow_nonneg; lia]]. }
      unfold Qlt, Qopp. cbn [Qnum Qden]. lia.
    + assert (Hm : Zpos m < 2 ^ 53) by (apply valid_mantissa_lt with (e := e); exact Hv).
      assert (Hcanon : fexp prec emax (Zpos (digits2_pos m) + e) = e).
      { cbn [valid_binary] in Hv. unfold bounded, canonical_mantissa in Hv.
        apply andb_true_iff in Hv as [Hv _]. apply Z.eqb_eq in Hv. exact Hv. }
      destruct (digits2_pos_bounds m) as [Hlo Hhi].
      unfold flt, SFltb. cbn [SFcompare float_to_Q].
      destruct (Z.compare_spec e (-59)) as [->|Hlt|Hgt].
      * rewrite Pos.compare_cont_spec. unfold Qlt. cbn [Qnum Qden].
        change (Zpos (2 ^ 59)) with 576460752303423488.
        destruct (Pos.compare_spec m 5764607523034235) as [->|Hl|Hg]; cbn [Pos.switch_Eq].
        -- split; [discriminate | intros H; exfalso; lia].
        -- apply Pos2Z.pos_lt_pos in Hl. split; [intros _; lia | reflexivity].
        -- apply Pos2Z.pos_lt_pos in Hg. split; [discriminate | intros H; exfalso; lia].
      * split; [intros _ | reflexivity].
        destruct e as [|p|p]; try lia.
        unfold Qlt. cbn [Qnum Qden]. rewrite Pos2Z.inj_pow.
        assert (2 ^ 60 <= 2 ^ Zpos p) by (apply Z.pow_le_mono_r; lia).
        change (2 ^ 60) with 1152921504606846976 in H.
        change (2 ^ 53) with 9007199254740992 in Hm. lia.
      * split; [discriminate|]. intros H. exfalso.
        assert (Hd : Zpos (digits2_pos m) = 53).
        { revert Hcanon. unfold fexp. rewrite emin_b64. unfold prec. lia. }
        rewrite Hd in Hlo. change (2 ^ (53 - 1)) with 4503599627370496 in Hlo.
        destruct e as [|p|p].
        -- revert H. unfold Qlt. cbn. lia.
        -- revert H. unfold inject_Z, Qlt. cbn [Qnum Qden].
           assert (0 < 2 ^ Zpos p) by (apply pow2_pos; lia).
           assert (Zpos m * 1 <= Zpos m * 2 ^ Zpos p)
             by (apply Z.mul_le_mono_nonneg_l; lia).
           lia.
        -- revert H. unfold Qlt. cbn [Qnum Qden]. rewrite Pos2Z.inj_pow.
           assert (2 ^ Zpos p <= 2 ^ 58) by (apply Z.pow_le_mono_r; lia).
           change (2 ^ 58) with 288230376151711744 in H. lia.
Qed.

(** Rounding never goes beyond the next point of the grid it rounds to:
    with [e1] the exponent after the first alignment, the result is at
    most [(m / 2 ^ (e1 - e) + 1) * 2 ^ e1]. *)
Lemma binary_round_aux_upper pr em s m e l :
  0 <= m ->
  let e1 := e + Z.max 0 (fexp pr em (Zdigits2 m + e) - e) in
  match binary_round_aux pr em s m e l with
  | S754_finite _ m3 e3 =>
      e1 <= e3 /\ Zpos m3 * 2 ^ (e3 - e1) <= m / 2 ^ (e1 - e) + 1
  | _ => True
  end.
Proof.
  intros Hm e1. unfold binary_round_aux.
  destruct (shr_fexp_spec pr em m e l Hm) as [H1m H1e].
  destruct (shr_fexp pr em m e l) as [mrs' e'] eqn:E1. cbn [fst snd] in H1m, H1e.
  fold e1 in H1e. subst e'.
  replace (Z.max 0 (fexp pr em (Zdigits2 m + e) - e)) with (e1 - e) in H1m
    by (unfold e1; lia).
  pose proof (round_nearest_even_range (shr_m mrs') (loc_of_shr_record mrs')) as Hr.
  set (m2 := round_nearest_even (shr_m mrs') (loc_of_shr_record mrs')) in *.
  assert (Hm1 : 0 <= shr_m mrs').
  { rewrite H1m. apply Z.div_pos; [exact Hm|]. apply pow2_pos. unfold e1. lia. }
  destruct (shr_fexp_spec pr em m2 e1 loc_Exact ltac:(lia)) as [H3m H3e].
  destruct (shr_fexp pr em m2 e1 loc_Exact) as [mrs'' e''] eqn:E2.
  cbn [fst snd] in H3m, H3e.
  set (n2 := Z.max 0 (fexp pr em (Zdigits2 m2 + e1) - e1)) in *.
  destruct (shr_m mrs'') as [|p|p] eqn:Em; try exact I.
  destruct (e'' <=? em - pr); [|exact I].
  assert (Hn2 : 0 <= n2) by (unfold n2; lia).
  split; [lia|].
  replace (e'' - e1) with n2 by lia.
  rewrite H3m. rewrite <- H1m.
  assert (Hp : 0 < 2 ^ n2) by (apply pow2_pos; exact Hn2).
  pose proof (Z.mul_div_le m2 (2 ^ n2) Hp). lia.
Qed.

(** A ratio below one hundredth, over a divisor of at most [2 ^ 52],
    rounds to a double that compares below [0.01]. *)
Lemma round_ratio_below_one_percent p f :
  0 < p -> 0 < f <= 2 ^ 52 -> 100 * p < f ->
  flt (round_ratio p f) (literal 1 2) = true.
Proof.
  intros Hp Hf Hlt.
  assert (H52 : 2 ^ 52 < 2 ^ 53) by (apply Z.pow_lt_mono_r; lia).
  destruct (round_ratio_positive p f 53 ltac:(lia) ltac:(lia) ltac:(lia)) as (Hs & Hfin & Hnz).
  apply flt_one_percent; [apply round_ratio_valid; lia | exact Hfin |].
  unfold round_ratio in *.
  destruct (div_core_spec (Z.abs p) (Z.abs f) ltac:(lia) ltac:(lia)) as [l Hc].
  destruct p as [|p|p]; try lia. rewrite Hc in *. clear Hc.
  rewrite !Z.abs_eq in * by lia.
  set (P := Zpos p) in *.
  set (e' := Z.min (fexp prec emax (Zdigits2 P - Zdigits2 f)) 0) in *.
  set (q := P * 2 ^ (- e') / f) in *.
  destruct (Zdigits2_bounds P ltac:(lia)) as [HPlo HPhi].
  destruct (Zdigits2_bounds f ltac:(lia)) as [Hflo Hfhi].
  assert (HdP : 0 < Zdigits2 P) by (unfold P; simpl; lia).
  assert (Hdf : 0 < Zdigits2 f) by (destruct f; simpl in *; lia).
  (* the quotient is below 2^-6 *)
  assert (Hd7 : 7 <= Zdigits2 f).
  { apply Zdigits2_ge; [lia|]. change (2 ^ (7 - 1)) with 64. lia. }
  assert (Hdd : Zdigits2 P <= Zdigits2 f - 6).
  { assert (H6 : 2 ^ Zdigits2 f = 2 ^ (Zdigits2 f - 6) * 2 ^ 6).
    { rewrite <- Z.pow_add_r by lia. f_equal. lia. }
    change (2 ^ 6) with 64 in H6.
    apply Zdigits2_le; lia. }
  assert (He' : e' <= -59 /\ -1074 <= e').
  { unfold e', fexp. rewrite emin_b64. unfold prec. lia. }
  assert (Hpw : 0 < 2 ^ (- e')) by (apply pow2_pos; lia).
  assert (Hq : 0 <= q) by (apply Z.div_pos; nia).
  pose proof (binary_round_aux_upper prec emax (xorb (P <? 0) (f <? 0)) q e' l Hq) as Hup.
  cbv zeta in Hup.
  set (e1 := e' + Z.max 0 (fexp prec emax (Zdigits2 q + e') - e')) in *.
  (* the grid exponent stays at or below -59 *)
  assert (Hq6 : q < 2 ^ (- e' - 6)).
  { apply Z.div_lt_upper_bound; [lia|].
    assert (H6 : 2 ^ (- e') = 2 ^ (- e' - 6) * 2 ^ 6).
    { rewrite <- Z.pow_add_r by lia. f_equal. lia. }
    change (2 ^ 6) with 64 in H6.
    assert (0 < 2 ^ (- e' - 6)) by (apply pow2_pos; lia). nia. }
  assert (Hdq : Zdigits2 q <= - e' - 6) by (apply Zdigits2_le; lia).
  assert (He1 : e' <= e1 <= -59).
  { unfold e1, fexp. rewrite emin_b64. unfold prec. lia. }
  destruct (binary_round_aux prec emax _ q e' l) as [s0|s0| |s0 m3 e3];
    try discriminate.
  cbn [signed] in Hs. subst s0. destruct Hup as [He3 Hup].
  set (G := 2 ^ (- e1)) in *.
  assert (HG : 2 ^ 59 <= G) by (apply Z.pow_le_mono_r; lia).
  change (2 ^ 59) with 576460752303423488 in HG.
  change (2 ^ 52) with 4503599627370496 in Hf.
  (* the truncated quotient on the grid *)
  set (m1 := q / 2 ^ (e1 - e')) in *.
  assert (Hm1 : f * m1 <= P * G).
  { assert (Hp1 : 0 < 2 ^ (e1 - e')) by (apply pow2_pos; lia).
    assert (HGs : 2 ^ (- e') = G * 2 ^ (e1 - e')).
    { unfold G. rewrite <- Z.pow_add_r by lia. f_equal. lia. }
    assert (Hq1 : f * q <= P * 2 ^ (- e')) by (apply Z.mul_div_le; lia).
    assert (Hq2 : 2 ^ (e1 - e') * m1 <= q) by (apply Z.mul_div_le; lia).
    rewrite HGs in Hq1.
    assert (2 ^ (e1 - e') * (f * m1) <= 2 ^ (e1 - e') * (P * G)) by nia.
    apply Z.mul_le_mono_pos_l in H; assumption. }
  assert (Hm1' : 100 * (m1 + 1) < G).
  { assert (100 * (f * m1) <= (f - 1) * G) by nia.
    assert (f * (100 * m1) < f * (G - 100)) by nia.
    apply Z.mul_lt_mono_pos_l in H0; lia. }
  assert (Hp3 : 0 < 2 ^ (e3 - e1)) by (apply pow2_pos; lia).
  assert (He3neg : e3 < 0).
  { destruct (Z_lt_le_dec e3 0) as [|Hge]; [assumption|exfalso].
    assert (G <= 2 ^ (e3 - e1)) by (unfold G; apply Z.pow_le_mono_r; lia).
    nia. }
  destruct e3 as [|p3|p3]; try lia.
  cbn [float_to_Q]. unfold Qlt. cbn [Qnum Qden]. rewrite Pos2Z.inj_pow.
  assert (HG3 : G = 2 ^ Zpos p3 * 2 ^ (Z.neg p3 - e1)).
  { unfold G. rewrite <- Z.pow_add_r by lia. f_equal. lia. }
  assert (0 < 2 ^ Zpos p3) by (apply pow2_pos; lia).
  nia.
Qed.


(** [float(n)] of a non-zero integer is not zero. *)
Lemma binary_normalize_nonzero n :
  n <> 0 -> is_zero (binary_normalize prec emax n 0 false) = false.
Proof.
  assert (H : forall s p, is_zero (binary_round prec emax s p 0) = false).
  { intros s p. unfold binary_round.
    destruct (shl_align_spec p 0 (fexp prec emax (Zpos (digits2_pos p) + 0))) as [Hv He].

    destruct (shl_align p 0 _) as [mz ez]. cbn [fst snd] in Hv, He.
    apply binary_round_aux_nonzero; [reflexivity | lia |].
    pose proof (fexp_ge_emin prec emax (Zpos (digits2_pos p) + 0)) as Hf.
    rewrite emin_b64 in *.
    assert (0 < Zdigits2 (Zpos mz)) by (simpl; lia). lia. }
  destruct n as [|p|p]; intros Hn; [congruence| |]; apply H.
Qed.

Lemma float_of_int_nonzero n x :
  n <> 0 -> float_of_int n = Ok x -> is_zero x = false.
Proof.
  intros Hn. unfold float_of_int.
  destruct (is_inf (binary_normalize prec emax n 0 false)); [discriminate|].
  intros H. injection H as <-. apply binary_normalize_nonzero, Hn.
Qed.

(** Arithmetic of a float with an integer of moderate size returns. *)
Lemma float_mul_int_returns x n :
  Z.abs n < 2 ^ 1022 -> float_mul_int x n = Ok (fmul x (binary_normalize prec emax n 0 false)).
Proof.
  intros Hn. unfold float_mul_int.
  destruct (float_of_int_bounded n 1022 Hn ltac:(lia)) as (y & Hy & _).
  rewrite Hy. cbn [bind]. unfold float_of_int in Hy.
  destruct (is_inf (binary_normalize prec emax n 0 false)); [discriminate|].
  injection Hy as <-. reflexivity.
Qed.

Lemma float_div_int_returns x n :
  n <> 0 -> Z.abs n < 2 ^ 1022 ->
  float_div_int x n = Ok (SFdiv prec emax x (binary_normalize prec emax n 0 false)).
Proof.
  intros Hn0 Hn. unfold float_div_int.
  destruct (float_of_int_bounded n 1022 Hn ltac:(lia)) as (y & Hy & _).
  rewrite Hy. cbn [bind]. unfold float_truediv.
  rewrite (float_of_int_nonzero n y Hn0 Hy).
  unfold float_of_int in Hy.
  destruct (is_inf (binary_normalize prec emax n 0 false)); [discriminate|].
  injection Hy as <-. reflexivity.
Qed.

(** [<] on floats is transitive. *)
Lemma flt_trans x y z : flt x y = true -> flt y z = true -> flt x z = true.
Proof.
  unfold flt, SFltb.
  destruct x as [sx|sx| |sx mx ex], y as [sy|sy| |sy my ey], z as [sz|sz| |sz mz ez];
    cbn [SFcompare]; try discriminate; try reflexivity;
    repeat match goal with s : bool |- _ => destruct s end;
    try discriminate; try reflexivity.
  all: rewrite ?Pos.compare_cont_spec; unfold Pos.switch_Eq.
  all: destruct (Z.compare_spec ex ey), (Z.compare_spec ey ez), (Z.compare_spec ex ez);
    try lia; try discriminate; try reflexivity.
  all: subst.
  all: destruct (Pos.compare_spec mx my), (Pos.compare_spec my mz), (Pos.compare_spec mx mz);
    cbn [CompOpp]; try lia; try discriminate; try reflexivity.
Qed.

Lemma flt_irrefl x : flt x x = false.
Proof.
  unfold flt, SFltb. destruct x as [s|s| |s m e]; cbn [SFcompare]; try reflexivity;
    destruct s; try reflexivity; rewrite Z.compare_refl, ?Pos.compare_cont_spec,
      Pos.compare_refl; reflexivity.
Qed.


(** *** Upper bounds on rounded results *)

Lemma Zdigits2_mul_pow2 m n : 0 < m -> 0 <= n -> Zdigits2 (m * 2 ^ n) = Zdigits2 m + n.
Proof.
  intros Hm Hn. destruct (Zdigits2_bounds m Hm) as [Hlo Hhi].
  assert (Hp : 0 < 2 ^ n) by (apply pow2_pos; lia).
  assert (Hd : 0 < Zdigits2 m).
  { destruct m; try lia. simpl. lia. }
  apply Z.le_antisymm.
  - apply Zdigits2_le; [nia | lia |].
    rewrite Z.pow_add_r by lia. nia.
  - apply Zdigits2_ge; [lia|].
    replace (Zdigits2 m + n - 1) with ((Zdigits2 m - 1) + n) by lia.
    rewrite Z.pow_add_r by lia. nia.
Qed.

(** [float(n)] of a positive integer is a positive finite number at
    most [n * (1 + 2 ^ -52)]. *)
Lemma float_of_int_upper n fn :
  0 < n -> float_of_int n = Ok fn ->
  exists mf ef,
    fn = S754_finite false mf ef /\ -52 <= ef /\
    Zpos mf * 2 ^ (ef + 53) <= n * (2 ^ 53 + 2).
Proof.
  intros Hn H. unfold float_of_int in H.
  destruct (is_inf (binary_normalize prec emax n 0 false)) eqn:Einf; [discriminate|].
  injection H as <-.
  pose proof (binary_normalize_nonzero n ltac:(lia)) as Hnz.
  pose proof (binary_normalize_signed n 0 ltac:(lia)) as Hs.
  replace (n <? 0) with false in Hs by (symmetry; apply Z.ltb_ge; lia).
  destruct n as [|p|p]; try lia.
  cbn [binary_normalize] in *. unfold binary_round in *.
  destruct (shl_align_spec p 0 (fexp prec emax (Zpos (digits2_pos p) + 0))) as [Hv He].
  destruct (shl_align p 0 _) as [mz ez]. cbn [fst snd] in Hv, He.
  rewrite Z.add_0_r in He.
  change (Zpos (digits2_pos p)) with (Zdigits2 (Zpos p)) in He.
  set (dp := Zdigits2 (Zpos p)) in *.
  destruct (Zdigits2_bounds (Zpos p) ltac:(lia)) as [Hlo Hhi]. fold dp in Hlo, Hhi.
  assert (Hdp : 0 < dp) by (unfold dp; simpl; lia).
  assert (Hf : fexp prec emax dp = dp - 53).
  { unfold fexp. rewrite emin_b64. unfold prec. lia. }
  rewrite Hf in He.
  assert (Hez : ez <= 0 /\ -52 <= ez) by lia.
  assert (Hmz : Zpos mz = Zpos p * 2 ^ (- ez)).
  { replace (- ez) with (0 - ez) by lia. exact Hv. }
  assert (Hdz : Zdigits2 (Zpos mz) + ez = dp).
  { rewrite Hmz, Zdigits2_mul_pow2 by lia. fold dp. lia. }
  pose proof (binary_round_aux_upper prec emax false (Zpos mz) ez loc_Exact ltac:(lia)) as Hup.
  cbv zeta in Hup. rewrite Hdz, Hf in Hup.
  destruct (binary_round_aux prec emax false (Zpos mz) ez loc_Exact) as [s|s| |s mf ef];
    try discriminate; try (exfalso; exact Hs).
  cbn [signed] in Hs. subst s. destruct Hup as [He1 Hup].
  set (e1 := ez + Z.max 0 (dp - 53 - ez)) in *.
  assert (He1v : e1 = dp - 53) by (unfold e1; lia).
  exists mf, ef. split; [reflexivity|]. split; [lia|].
  (* scale the bound to the exponent -53 *)
  assert (Hp1 : 0 < 2 ^ (e1 - ez)) by (apply pow2_pos; lia).
  assert (Hdiv : Zpos mz / 2 ^ (e1 - ez) * 2 ^ (e1 - ez) <= Zpos mz).
  { rewrite Z.mul_comm. apply Z.mul_div_le. exact Hp1. }
  assert (Hp2 : 0 < 2 ^ (ef - e1)) by (apply pow2_pos; lia).
  assert (Hs1 : 2 ^ (ef + 53) = 2 ^ (ef - e1) * 2 ^ (e1 - ez) * 2 ^ (ez + 53)).
  { rewrite <- !Z.pow_add_r by lia. f_equal. lia. }
  assert (Hs2 : 2 ^ (- ez) * 2 ^ (ez + 53) = 2 ^ 53).
  { rewrite <- Z.pow_add_r by lia. f_equal. lia. }
  assert (Hs3 : 2 ^ (e1 - ez) * 2 ^ (ez + 53) = 2 ^ dp).
  { rewrite <- Z.pow_add_r by lia. f_equal. lia. }
  assert (Hs4 : 2 ^ dp = 2 * 2 ^ (dp - 1)).
  { rewrite <- Z.pow_succ_r by lia. f_equal. lia. }
  assert (Hp3 : 0 < 2 ^ (ez + 53)) by (apply pow2_pos; lia).
  assert (Hp4 : 0 < 2 ^ (- ez)) by (apply pow2_pos; lia).
  rewrite Hs1.
  set (A := 2 ^ (ef - e1)) in *. set (B := 2 ^ (e1 - ez)) in *.
  set (C := 2 ^ (ez + 53)) in *. set (D := 2 ^ (- ez)) in *.
  set (q := Zpos mz / B) in *.
  assert (H1 : Zpos mf * A * B <= (q + 1) * B) by nia.
  assert (H2 : (q + 1) * B <= Zpos mz + B) by nia.
  assert (H3 : Zpos mf * A * B * C <= (Zpos mz + B) * C) by nia.
  assert (H4 : (Zpos mz + B) * C = Zpos p * 2 ^ 53 + 2 ^ dp).
  { rewrite Hmz. fold D. rewrite <- Hs2, <- Hs3. ring. }
  change (2 ^ 53) with 9007199254740992 in *.
  nia.
Qed.

(** A product with a factor of full precision is at most the exact
    product times [1 + 2 ^ -52]; [a] shifts both sides to integers. *)
Lemma fmul_upper mf ef mc ec a :
  2 ^ 52 <= Zpos mc -> -1074 <= ef + ec -> 0 <= ef + ec + a ->
  match fmul (S754_finite false mf ef) (S754_finite false mc ec) with
  | S754_finite _ m3 e3 =>
      0 <= e3 + a /\
      Zpos m3 * 2 ^ (e3 + a) * 2 ^ 52
      <= Zpos mf * Zpos mc * (2 ^ 52 + 1) * 2 ^ (ef + ec + a)
  | _ => True
  end.
Proof.
  intros Hmc He Ha. unfold fmul, SFmul. cbn [xorb].
  pose proof (binary_round_aux_upper prec emax false (Zpos (mf * mc)) (ef + ec) loc_Exact
                ltac:(lia)) as Hup.
  cbv zeta in Hup.
  set (P := Zpos (mf * mc)) in *. set (e := ef + ec) in *.
  assert (HP : P = Zpos mf * Zpos mc) by reflexivity.
  assert (HPlo : 2 ^ 52 <= P) by (rewrite HP; nia).
  destruct (Zdigits2_bounds P ltac:(lia)) as [Hlo Hhi].
  assert (HdP : 53 <= Zdigits2 P).
  { apply Zdigits2_ge; [lia|]. exact HPlo. }
  assert (Hf : fexp prec emax (Zdigits2 P + e) = Zdigits2 P + e - 53).
  { unfold fexp. rewrite emin_b64. unfold prec. lia. }
  rewrite Hf in Hup.
  set (e1 := e + Z.max 0 (Zdigits2 P + e - 53 - e)) in *.
  assert (Hk : e1 - e = Zdigits2 P - 53) by (unfold e1; lia).
  destruct (binary_round_aux prec emax false P e loc_Exact) as [s|s| |s m3 e3];
    try exact I.
  destruct Hup as [He1 Hup].
  split; [lia|].
  set (k := e1 - e) in *.
  assert (Hpk : 0 < 2 ^ k) by (apply pow2_pos; lia).
  assert (Hm1 : 2 ^ 52 <= P / 2 ^ k).
  { apply Z.div_le_lower_bound; [exact Hpk|].
    rewrite <- Z.pow_add_r by lia.
    replace (k + 52) with (Zdigits2 P - 1) by lia. exact Hlo. }
  assert (Hdiv : P / 2 ^ k * 2 ^ k <= P).
  { rewrite Z.mul_comm. apply Z.mul_div_le. exact Hpk. }
  assert (Hs1 : 2 ^ (e3 + a) = 2 ^ (e3 - e1) * 2 ^ k * 2 ^ (e + a)).
  { rewrite <- !Z.pow_add_r by lia. f_equal. lia. }
  assert (Hp1 : 0 < 2 ^ (e3 - e1)) by (apply pow2_pos; lia).
  assert (Hp2 : 0 < 2 ^ (e + a)) by (apply pow2_pos; lia).
  rewrite Hs1, <- HP.
  set (A := 2 ^ (e3 - e1)) in *. set (K := 2 ^ k) in *. set (G := 2 ^ (e + a)) in *.
  set (q := P / K) in *.
  change (2 ^ 52) with 4503599627370496 in *.
  assert (H1 : Zpos m3 * A * 4503599627370496 <= q * (4503599627370496 + 1)) by nia.
  assert (H2 : Zpos m3 * A * 4503599627370496 * K <= P * (4503599627370496 + 1)) by nia.
  assert (H3 : Zpos m3 * A * 4503599627370496 * K * G
               <= P * (4503599627370496 + 1) * G) by nia.
  nia.
Qed.


(** [int(n * c)] for a non-negative integer [n] and a float [c] of
    [[0.5, 1)] a few units below one: the product is truncated to an
    integer between [0] and [n]. *)
Lemma int_scaled_below n mc :
  0 <= n < 2 ^ 1022 -> 2 ^ 52 <= Zpos mc <= 2 ^ 53 - 8 ->
  exists x k,
    int_mul_float n (S754_finite false mc (-53)) = Ok x /\
    int_of_float x = Ok k /\ 0 <= k <= n.
Proof.
  intros Hn Hmc. unfold int_mul_float.
  destruct (float_of_int_bounded n 1022 ltac:(lia) ltac:(lia))
    as (fn & Hfn & Hb & H0 & Hsg).
  rewrite Hfn. cbn [bind]. eexists. 
  destruct (Z.eq_dec n 0) as [->|Hnz].
  - rewrite (H0 eq_refl). exists 0. split; [reflexivity|]. split; [reflexivity | lia].
  - destruct (float_of_int_upper n fn ltac:(lia) Hfn) as (mf & ef & -> & Hef & Hup).
    set (c := S754_finite false mc (-53)).
    assert (Hc : bounded_by 0 (-53) c).
    { cbn [bounded_by c]. split; [|lia]. change (0 - -53) with 53. lia. }
    assert (Hfin : is_finite (fmul (S754_finite false mf ef) c) = true).
    { apply (fmul_bounded 1023 (Z.max 0 (1022 - 52)) 0 (-53)); try assumption; lia. }
    assert (Hsign : signed false (fmul (S754_finite false mf ef) c)).
    { apply (fmul_signed false false); reflexivity. }
    pose proof (fmul_upper mf ef mc (-53) 106 ltac:(lia) ltac:(lia) ltac:(lia)) as Hm.
    fold c in Hm.
    destruct (fmul (S754_finite false mf ef) c) as [s|s| |s m3 e3]; try discriminate.
    + exists 0. split; [reflexivity|]. split; [reflexivity | lia].
    + cbn [signed] in Hsign. subst s. destruct Hm as [He3 Hm].
      replace (ef + -53 + 106) with (ef + 53) in Hm by lia.
      assert (Hconst : (2 ^ 53 + 2) * (2 ^ 52 + 1) * (2 ^ 53 - 8) <= 2 ^ 52 * 2 ^ 106).
      { apply Z.leb_le. vm_compute. reflexivity. }
      assert (Hp : 0 < 2 ^ (ef + 53)) by (apply pow2_pos; lia).
      assert (Hq : 0 < 2 ^ (e3 + 106)) by (apply pow2_pos; lia).
      assert (H52 : 0 < 2 ^ 52) by (apply pow2_pos; lia).
      assert (H106 : 0 < 2 ^ 106) by (apply pow2_pos; lia).
      assert (Hmain : Zpos m3 * 2 ^ (e3 + 106) <= n * 2 ^ 106).
      { apply (Z.mul_le_mono_pos_r _ _ (2 ^ 52) H52).
        eapply Z.le_trans; [exact Hm|].
        set (F := Zpos mf * 2 ^ (ef + 53)) in *.
        replace (Zpos mf * Zpos mc * (2 ^ 52 + 1) * 2 ^ (ef + 53))
          with (F * (Zpos mc * (2 ^ 52 + 1))) by (unfold F; ring).
        assert (Hk : 0 <= Zpos mc * (2 ^ 52 + 1)) by (apply Z.mul_nonneg_nonneg; lia).
        eapply Z.le_trans;
          [apply Z.mul_le_mono_nonneg_r; [exact Hk | exact Hup]|].
        replace (n * (2 ^ 53 + 2) * (Zpos mc * (2 ^ 52 + 1)))
          with (n * ((2 ^ 53 + 2) * (2 ^ 52 + 1) * Zpos mc)) by ring.
        replace (n * 2 ^ 106 * 2 ^ 52) with (n * (2 ^ 52 * 2 ^ 106)) by ring.
        apply Z.mul_le_mono_nonneg_l; [lia|].
        eapply Z.le_trans; [|exact Hconst].
        apply Z.mul_le_mono_nonneg_l; [|lia].
        apply Z.mul_nonneg_nonneg; lia. }
      destruct e3 as [|q|q]; cbn [int_of_float]; eexists;
        (split; [reflexivity|]); (split; [reflexivity|]).
      * rewrite Z.shiftl_0_r. change (0 + 106) with 106 in Hmain.
        split; [lia|]. apply (Z.mul_le_mono_pos_r _ _ (2 ^ 106) H106). exact Hmain.
      * rewrite Z.shiftl_mul_pow2 by lia.
        rewrite Z.pow_add_r in Hmain by lia.
        assert (Hpq : 0 < 2 ^ Zpos q) by (apply pow2_pos; lia).
        split; [apply Z.mul_nonneg_nonneg; lia|].
        apply (Z.mul_le_mono_pos_r _ _ (2 ^ 106) H106).
        eapply Z.le_trans; [|exact Hmain]. apply Z.eq_le_incl. ring.
      * rewrite Z.shiftr_div_pow2 by lia.
        assert (Hpq : 0 < 2 ^ Zpos q) by (apply pow2_pos; lia).
        split; [apply Z.div_pos; lia|].
        apply Z.div_le_upper_bound; [exact Hpq|].
        assert (Hsplit : 2 ^ 106 = 2 ^ Zpos q * 2 ^ (Z.neg q + 106)).
        { rewrite <- Z.pow_add_r by lia. f_equal. lia. }
        rewrite Hsplit in Hmain.
        apply (Z.mul_le_mono_pos_r _ _ (2 ^ (Z.neg q + 106)) Hq).
        eapply Z.le_trans; [exact Hmain|]. apply Z.eq_le_incl. ring.
Qed.

(** The double [0.98], and [1 - 0.0025] as the interpreter computes it. *)
Lemma literal_98 : literal 98 2 = S754_finite false 8827055269646172 (-53).
Proof. vm_compute. reflexivity. Qed.

Lemma one_minus_default_fee :
  int_sub_float 1 (literal 25 4) = Ok (S754_finite false 8984681256604140 (-53)).
Proof. vm_compute. reflexivity. Qed.

End PyFacts.

(* ================================================================== *)
(** ** The pricing quote *)
(* ================================================================== *)

Module QuoteFacts.

Import PyFacts TransactionBuilder QuoteSpec.

Lemma bind_Ok_inv {A B} (c : result A) (k : A -> result B) (b : B) :
  Py.bind c k = Ok b -> exists a, c = Ok a /\ k a = Ok b.
Proof. destruct c as [a|e]; simpl; [eauto | discriminate]. Qed.

Lemma calculate_swap_amounts_split Lin Lout amt fee :
  calculate_swap_amounts Lin Lout amt fee =
  (eff <- effective_in amt fee ;; quote_from Lin Lout amt eff).
Proof.
  unfold calculate_swap_amounts, effective_in, quote_from.
  destruct (int_sub_float 1 fee) as [c|]; [|reflexivity]. cbn [bind].
  destruct (int_mul_float amt c) as [sc|]; [|reflexivity]. cbn [bind].
  destruct (int_of_float sc); reflexivity.
Qed.

Lemma is_finite_not_inf x : is_finite x = true -> is_inf x = false.
Proof. destruct x; simpl; congruence. Qed.

Lemma is_finite_not_nan x : is_finite x = true -> is_nan x = false.
Proof. destruct x; simpl; congruence. Qed.

Lemma signed_not_inf_finite s x : signed s x -> is_inf x = false -> is_finite x = true.
Proof. destruct x; simpl; try congruence; contradiction. Qed.

Lemma float_of_int_Ok n x :
  float_of_int n = Ok x ->
  is_finite x = true /\ signed (n <? 0) x.
Proof.
  unfold float_of_int.
  destruct (is_inf (binary_normalize prec emax n 0 false)) eqn:E; [discriminate|].
  intros H. injection H as <-.
  destruct (Z.eq_dec n 0) as [->|Hn]; [split; reflexivity|].
  pose proof (binary_normalize_signed n 0 Hn) as Hs.
  split; [|exact Hs]. eapply signed_not_inf_finite; eassumption.
Qed.

(** The fee step on a non-negative amount never yields a negative amount. *)
Lemma effective_in_nonneg amt fee eff :
  unit_fee fee -> 0 <= amt -> effective_in amt fee = Ok eff -> 0 <= eff.
Proof.
  intros Hfee Hamt H. unfold effective_in in H.
  destruct (one_minus_fee fee Hfee) as (c & Hc & Hcs & Hcb).
  rewrite Hc in H. cbn [bind] in H.
  apply bind_Ok_inv in H as (sc & Hsc & Hint).
  unfold int_mul_float in Hsc. apply bind_Ok_inv in Hsc as (fa & Hfa & Hsc).
  injection Hsc as <-.
  apply float_of_int_Ok in Hfa as [Hfin Hsg].
  replace (amt <? 0) with false in Hsg by (symmetry; apply Z.ltb_ge; lia).
  eapply int_of_float_nonneg; [|exact Hint].
  apply (fmul_signed false false); try assumption.
  eapply bounded_by_finite; eassumption.
Qed.

(** The fee step returns on every amount of the unsigned 64-bit range. *)
Lemma effective_in_returns amt fee :
  unit_fee fee -> 0 <= amt < 2 ^ 64 -> exists eff, effective_in amt fee = Ok eff /\ 0 <= eff.
Proof.
  intros Hfee Hamt.
  destruct (one_minus_fee fee Hfee) as (c & Hc & Hcs & Hcb).
  destruct (float_of_int_bounded amt 64 ltac:(lia) ltac:(lia)) as (fa & Hfa & Hfb & _).
  assert (Hfin : is_finite (fmul fa c) = true).
  { apply (fmul_bounded _ _ _ _ fa c Hfb Hcb); lia. }
  destruct (int_of_float_finite _ Hfin) as [eff Heff].
  assert (H : effective_in amt fee = Ok eff).
  { unfold effective_in. rewrite Hc. cbn [bind]. unfold int_mul_float.
    rewrite Hfa. cbn [bind]. exact Heff. }
  exists eff. split; [exact H|]. apply (effective_in_nonneg amt fee eff Hfee); [lia | exact H].
Qed.

Lemma binary_normalize_number n e :
  exists s, signed s (binary_normalize prec emax n e false).
Proof.
  destruct n as [|p|p]; cbn [binary_normalize].
  - exists false. reflexivity.
  - exists false. apply binary_round_signed.
  - exists true. apply binary_round_signed.
Qed.

(** The difference of two finite floats is a number. *)
Lemma fsub_number x y :
  is_finite x = true -> is_finite y = true -> exists s, signed s (fsub x y).
Proof.
  destruct x as [s1|s1| |s1 m1 e1], y as [s2|s2| |s2 m2 e2]; try discriminate; intros _ _.
  - destruct s1, s2; cbn; eauto.
  - cbn. eauto.
  - cbn. eauto.
  - unfold fsub. cbn [SFsub]. apply binary_normalize_number.
Qed.

Lemma fabs_signed s x : signed s x -> signed false (fabs x).
Proof. destruct x; simpl; try contradiction; reflexivity. Qed.

(** A non-negative number over a positive finite float is non-negative. *)
Lemma SFdiv_signed x m e :
  signed false x -> signed false (SFdiv prec emax x (S754_finite false m e)).
Proof.
  destruct x as [s|s| |s mx ex]; cbn [signed SFdiv]; try contradiction;
    intros ->; try reflexivity.
  unfold SFdiv_core_binary.
  set (m' := match _ with Zpos _ => Z.shiftl (Zpos mx) _ | Z0 => Zpos mx | Zneg _ => 0 end).
  assert (Hm' : 0 <= m').
  { unfold m'. match goal with |- context [match ?s with _ => _ end] => destruct s end;
      try lia. apply Z.shiftl_nonneg. lia. }
  pose proof (Z.div_pos m' (Zpos m) Hm' ltac:(lia)) as Hq. unfold Z.div in Hq.
  destruct (Z.div_eucl m' (Zpos m)) as [q r].
  apply binary_round_aux_signed. exact Hq.
Qed.

Lemma signed_false_nonneg x : signed false x -> fle (S754_zero false) x = true.
Proof. destruct x as [s|s| |s m e]; simpl; try contradiction; intros ->; reflexivity. Qed.

Lemma int_truediv_Ok a b x :
  int_truediv a b = Ok x ->
  b <> 0 /\ x = round_ratio a b /\ is_finite x = true /\
  signed (xorb (a <? 0) (b <? 0)) x.
Proof.
  unfold int_truediv. destruct (Z.eqb_spec b 0) as [|Hb]; [discriminate|].
  destruct (is_inf (round_ratio a b)) eqn:E; [discriminate|].
  intros H. injection H as <-.
  pose proof (round_ratio_signed a b Hb) as Hs.
  repeat split; try assumption. eapply signed_not_inf_finite; eassumption.
Qed.

(** What the quote returns on positive reserves, whatever their size. *)
Lemma quote_from_Ok Lin Lout amt eff out impact :
  0 < Lin -> 0 < Lout -> 0 <= amt -> 0 <= eff ->
  quote_from Lin Lout amt eff = Ok (out, impact) ->
  out = Lout * eff / (Lin + eff) /\ 0 <= out < Lout /\
  signed false impact /\
  impact = SFdiv prec emax
             (fabs (fsub (round_ratio (Lout - out) (Lin + amt)) (round_ratio Lout Lin)))
             (round_ratio Lout Lin).
Proof.
  intros HLin HLout Hamt Heff H. unfold quote_from in H.
  apply bind_Ok_inv in H as (o & Ho & H).
  unfold int_floordiv in Ho. destruct (Z.eqb_spec (Lin + eff) 0); [discriminate|].
  injection Ho as <-.
  apply bind_Ok_inv in H as (pb & Hpb & H).
  apply bind_Ok_inv in H as (pa & Hpa & H).
  apply bind_Ok_inv in H as (pi & Hpi & H).
  injection H as <- <-.
  assert (Hout : 0 <= Lout * eff / (Lin + eff) < Lout).
  { split; [apply Z.div_pos; nia|]. apply Z.div_lt_upper_bound; nia. }
  apply int_truediv_Ok in Hpb as (_ & -> & Hpbf & Hpbs).
  apply int_truediv_Ok in Hpa as (_ & -> & Hpaf & Hpas).
  replace (Lout <? 0) with false in Hpbs by (symmetry; apply Z.ltb_ge; lia).
  replace (Lin <? 0) with false in Hpbs by (symmetry; apply Z.ltb_ge; lia).
  unfold float_truediv in Hpi.
  destruct (is_zero (round_ratio Lout Lin)) eqn:Ez; [discriminate|].
  injection Hpi as <-.
  repeat split; try lia.
  destruct (fsub_number _ _ Hpaf Hpbf) as [s Hs].
  apply fabs_signed in Hs.
  destruct (round_ratio Lout Lin) as [s0|s0| |s0 m0 e0]; try discriminate.
  cbn [signed xorb] in Hpbs. subst s0.
  apply SFdiv_signed. exact Hs.
Qed.

(** On reserves and amounts of the unsigned 64-bit range the quote returns. *)
Lemma quote_from_returns Lin Lout amt eff :
  0 < Lin < 2 ^ 64 -> 0 < Lout < 2 ^ 64 -> 0 <= amt < 2 ^ 64 -> 0 <= eff ->
  exists out impact, quote_from Lin Lout amt eff = Ok (out, impact).
Proof.
  intros HLin HLout Hamt Heff. unfold quote_from.
  unfold int_floordiv. destruct (Z.eqb_spec (Lin + eff) 0); [lia|]. cbn [bind].
  set (out := Lout * eff / (Lin + eff)).
  assert (Hout : 0 <= out < Lout).
  { split; [apply Z.div_pos; nia|]. apply Z.div_lt_upper_bound; nia. }
  assert (H65 : 2 ^ 64 < 2 ^ 65) by (apply Z.pow_lt_mono_r; lia).
  destruct (round_ratio_positive Lout Lin 65 ltac:(lia) ltac:(lia) ltac:(lia)) as (_ & Hbf & Hbz).
  destruct (round_ratio_positive (Lout - out) (Lin + amt) 65 ltac:(lia) ltac:(lia) ltac:(lia))
    as (_ & Haf & _).
  unfold int_truediv.
  destruct (Z.eqb_spec Lin 0); [lia|]. rewrite (is_finite_not_inf _ Hbf). cbn [bind].
  destruct (Z.eqb_spec (Lin + amt) 0); [lia|]. rewrite (is_finite_not_inf _ Haf). cbn [bind].
  unfold float_truediv. rewrite Hbz. cbn [bind]. eauto.
Qed.

(** With an empty side the quote divides by zero. *)
Lemma quote_from_empty Lin Lout amt eff :
  0 <= Lin -> 0 <= Lout -> 0 <= amt -> 0 <= eff ->
  Lin = 0 \/ Lout = 0 ->
  quote_from Lin Lout amt eff = Raise ZeroDivisionError.
Proof.
  intros HLin HLout Hamt Heff Hempty. unfold quote_from, int_floordiv.
  destruct (Z.eqb_spec (Lin + eff) 0) as [|Hne]; [reflexivity|]. cbn [bind].
  unfold int_truediv at 1.
  destruct (Z.eqb_spec Lin 0) as [|HLin0]; [reflexivity|].
  assert (Lout = 0) as -> by lia.
  cbn [round_ratio is_inf bind]. rewrite Z.mul_0_l, Z.div_0_l by lia.
  unfold int_truediv. destruct (Z.eqb_spec (Lin + amt) 0); [reflexivity|].
  cbn. reflexivity.
Qed.

Lemma default_fee_rate_unit : unit_fee default_fee_rate.
Proof. repeat split; vm_compute; reflexivity. Qed.

Lemma Qfloor_div_Z a b : 0 < b -> Qfloor (inject_Z a / inject_Z b) = a / b.
Proof.
  intros Hb. destruct b as [|p|p]; try lia.
  unfold Qdiv, Qinv, Qmult, inject_Z. cbn [Qnum Qden].
  unfold Qfloor. rewrite Z.mul_1_r, Pos.mul_1_l. reflexivity.
Qed.

Lemma constant_product_out_Z Lin Lout eff :
  0 < Lin + eff ->
  constant_product_out Lin Lout (inject_Z eff) = Lout * eff / (Lin + eff).
Proof.
  intros H. unfold constant_product_out.
  rewrite <- Qfloor_div_Z by assumption.
  apply Qfloor_comp.
  rewrite inject_Z_mult, inject_Z_plus. reflexivity.
Qed.

(** C8: on positive reserves, a positive amount and a fee rate of
    [[0, 1)], whatever the quote returns has an output strictly below the
    output reserve and a price impact that is at least zero; and on
    reserves and amounts of the unsigned 64-bit range the quote does
    return. *)
Theorem quote_output_below_reserve :
  forall Lin Lout amt fee,
    unit_fee fee -> 0 < Lin -> 0 < Lout -> 0 < amt ->
    (forall out impact,
        calculate_swap_amounts Lin Lout amt fee = Ok (out, impact) ->
        out < Lout /\ fle (S754_zero false) impact = true) /\
    (Lin < 2 ^ 64 -> Lout < 2 ^ 64 -> amt < 2 ^ 64 ->
     exists out impact,
       calculate_swap_amounts Lin Lout amt fee = Ok (out, impact) /\
       out < Lout /\ fle (S754_zero false) impact = true).
Proof.
  intros Lin Lout amt fee Hfee HLin HLout Hamt.
  assert (Hpart : forall out impact,
             calculate_swap_amounts Lin Lout amt fee = Ok (out, impact) ->
             out < Lout /\ fle (S754_zero false) impact = true).
  { intros out impact H. rewrite calculate_swap_amounts_split in H.
    apply bind_Ok_inv in H as (eff & Heff & H).
    pose proof (effective_in_nonneg amt fee eff Hfee ltac:(lia) Heff) as Hnn.
    destruct (quote_from_Ok Lin Lout amt eff out impact HLin HLout ltac:(lia) Hnn H)
      as (_ & Hout & Hs & _).
    split; [lia | apply signed_false_nonneg, Hs]. }
  split; [exact Hpart|].
  intros BLin BLout Bamt.
  destruct (effective_in_returns amt fee Hfee ltac:(lia)) as (eff & Heff & Hnn).
  destruct (quote_from_returns Lin Lout amt eff ltac:(lia) ltac:(lia) ltac:(lia) Hnn)
    as (out & impact & Hq).
  assert (H : calculate_swap_amounts Lin Lout amt fee = Ok (out, impact)).
  { rewrite calculate_swap_amounts_split, Heff. exact Hq. }
  exists out, impact. split; [exact H | apply Hpart, H].
Qed.

Lemma quote_output_below_reserve_witness :
  exists out impact,
    calculate_swap_amounts 1000000 1000000 1000 default_fee_rate = Ok (out, impact) /\
    out < 1000000 /\ fle (S754_zero false) impact = true.
Proof.
  refine (proj2 (quote_output_below_reserve 1000000 1000000 1000 default_fee_rate
                   default_fee_rate_unit _ _ _) _ _ _); lia.
Defined.

(** C2, as the code has it: on a positive input reserve, a positive
    output reserve, a non-negative amount and a fee rate of [[0, 1)], the
    fee is applied first and the amount left is truncated to an integer,
    [effective_in = int(amount_in * (1 - fee_rate))]; what the quote
    returns is the floor of
    [reserve_out * effective_in / (reserve_in + effective_in)] and the
    impact [|price_after - price_before| / price_before] on the rounded
    prices [reserve_out / reserve_in] before and
    [(reserve_out - amount_out) / (reserve_in + amount_in)] after; and on
    reserves and amounts of the unsigned 64-bit range the quote does
    return. *)
Theorem quote_truncates_then_floors :
  forall Lin Lout amt fee,
    unit_fee fee -> 0 < Lin -> 0 < Lout -> 0 <= amt ->
    (forall out impact,
        calculate_swap_amounts Lin Lout amt fee = Ok (out, impact) ->
        exists eff,
          effective_in amt fee = Ok eff /\ 0 <= eff /\
          out = constant_product_out Lin Lout (inject_Z eff) /\
          impact = SFdiv prec emax
                     (fabs (fsub (round_ratio (Lout - out) (Lin + amt))
                                 (round_ratio Lout Lin)))
                     (round_ratio Lout Lin)) /\
    (Lin < 2 ^ 64 -> Lout < 2 ^ 64 -> amt < 2 ^ 64 ->
     returns (calculate_swap_amounts Lin Lout amt fee) = true).
Proof.
  intros Lin Lout amt fee Hfee HLin HLout Hamt. split.
  - intros out impact H. rewrite calculate_swap_amounts_split in H.
    apply bind_Ok_inv in H as (eff & Heff & H).
    pose proof (effective_in_nonneg amt fee eff Hfee Hamt Heff) as Hnn.
    destruct (quote_from_Ok Lin Lout amt eff out impact HLin HLout Hamt Hnn H)
      as (Hout & _ & _ & Himp).
    exists eff. split; [exact Heff|]. split; [exact Hnn|]. split; [|exact Himp].
    rewrite constant_product_out_Z by lia. exact Hout.
  - intros BLin BLout Bamt.
    destruct (effective_in_returns amt fee Hfee ltac:(lia)) as (eff & Heff & Hnn).
    destruct (quote_from_returns Lin Lout amt eff ltac:(lia) ltac:(lia) ltac:(lia) Hnn)
      as (out & impact & Hq).
    rewrite calculate_swap_amounts_split, Heff. cbn [bind]. rewrite Hq. reflexivity.
Qed.

Lemma quote_truncates_then_floors_witness :
  returns (calculate_swap_amounts 1000000 1000000 1000 default_fee_rate) = true.
Proof.
  refine (proj2 (quote_truncates_then_floors 1000000 1000000 1000 default_fee_rate
                   default_fee_rate_unit _ _ _) _ _ _); lia.
Defined.

(** The example of the specification: reserves of a million each, an
    amount of 1000 and the default fee leave 997 after the fee and buy
    996. *)
Lemma quote_example :
  effective_in 1000 default_fee_rate = Ok 997 /\
  exists impact,
    calculate_swap_amounts 1000000 1000000 1000 default_fee_rate = Ok (996, impact) /\
    (float_to_Q impact < 2 # 1000)%Q /\ (19 # 10000 < float_to_Q impact)%Q.
Proof.
  split; [vm_compute; reflexivity|].
  eexists. split; [vm_compute; reflexivity|]. split; vm_compute; reflexivity.
Qed.

(** C2 as stated fails: with reserves (1, 1000) and an amount of 1 the
    untruncated fee step gives the output 499, the code gives 0; and on
    an empty output reserve the code returns nothing at all. *)
Lemma quote_spec_formula_counterexample :
  (exists out impact,
      calculate_swap_amounts 1 1000 1 default_fee_rate = Ok (out, impact) /\
      out <> quote_amount_out_spec 1 1000 1 (float_to_Q default_fee_rate) /\
      out <> quote_amount_out_spec 1 1000 1 (25 # 10000)) /\
  calculate_swap_amounts 1000 0 10 default_fee_rate = Raise ZeroDivisionError.
Proof.
  split.
  - eexists. eexists. split; [vm_compute; reflexivity|].
    split; vm_compute; discriminate.
  - vm_compute. reflexivity.
Qed.

(** C6, as the code has it: the quote checks none of its arguments; on
    reserves and amounts of the unsigned 64-bit range and a fee rate of
    [[0, 1)], it fails exactly on an empty reserve, and then with a
    division by zero; on positive reserves it returns, also for an
    amount of zero. *)
Theorem quote_fails_on_empty_reserve_only :
  forall Lin Lout amt fee,
    unit_fee fee -> 0 <= Lin < 2 ^ 64 -> 0 <= Lout < 2 ^ 64 -> 0 <= amt < 2 ^ 64 ->
    (Lin = 0 \/ Lout = 0 ->
     calculate_swap_amounts Lin Lout amt fee = Raise ZeroDivisionError) /\
    (0 < Lin -> 0 < Lout ->
     returns (calculate_swap_amounts Lin Lout amt fee) = true).
Proof.
  intros Lin Lout amt fee Hfee HLin HLout Hamt.
  destruct (effective_in_returns amt fee Hfee Hamt) as (eff & Heff & Hnn).
  rewrite calculate_swap_amounts_split, Heff. cbn [bind]. split.
  - intros Hempty. apply quote_from_empty; lia.
  - intros Hi Ho.
    destruct (quote_from_returns Lin Lout amt eff ltac:(lia) ltac:(lia) Hamt Hnn)
      as (out & impact & Hq).
    rewrite Hq. reflexivity.
Qed.

Lemma quote_fails_on_empty_reserve_only_witness :
  (0 = 0 \/ 1000 = 0 ->
   calculate_swap_amounts 0 1000 10 default_fee_rate = Raise ZeroDivisionError) /\
  (0 < 0 -> 0 < 1000 ->
   returns (calculate_swap_amounts 0 1000 10 default_fee_rate) = true).
Proof.
  apply (quote_fails_on_empty_reserve_only 0 1000 10 default_fee_rate
           default_fee_rate_unit); lia.
Defined.

(** C6 as stated fails: an amount of zero and a negative amount are
    quoted without any error, and an amount that passes both stated
    checks reaches a division by zero on an empty input reserve. *)
Lemma quote_validation_counterexample :
  calculate_swap_amounts 1000 1000 0 default_fee_rate = Ok (0, S754_zero false) /\
  returns (calculate_swap_amounts 1000 1000 (-5) default_fee_rate) = true /\
  (0 < 10 /\ 0 < 0 + 10 /\
   calculate_swap_amounts 0 1000 10 default_fee_rate = Raise ZeroDivisionError).
Proof.
  split; [vm_compute; reflexivity|].
  split; [vm_compute; reflexivity|].
  repeat split; vm_compute; reflexivity.
Qed.

End QuoteFacts.

(* ================================================================== *)
(** ** The bracket builder *)
(* ================================================================== *)

Module BuilderFacts.

Import PyFacts QuoteFacts TransactionBuilder BracketSpec.

#[local] Open Scope string_scope.
#[local] Open Scope Z_scope.

Lemma simulate_bracket_steps Lin Lout T b :
  simulate_bracket Lin Lout T = Ok b ->
  front_run_amount b = Z.min (T / 4) (Lin / 100) /\
  back_run_amount b = front_run_output b /\
  three_steps {| reserve_in := Lin; reserve_out := Lout |} (front_run_amount b) T
  = Ok ({| reserve_in := new_liquidity_in b; reserve_out := new_liquidity_out b |},
        {| reserve_in := final_liquidity_in b; reserve_out := final_liquidity_out b |},
        (front_run_output b, target_output b, back_run_output b)).
Proof.
  intros H. unfold simulate_bracket in H.
  apply bind_Ok_inv in H as [[fo fi] [H1 H]].
  apply bind_Ok_inv in H as [[to ti] [H2 H]].
  apply bind_Ok_inv in H as [[bo bi] [H3 H]].
  apply bind_Ok_inv in H as [pp [H4 H]].
  injection H as <-. cbn [front_run_amount back_run_amount front_run_output
    new_liquidity_in new_liquidity_out final_liquidity_in final_liquidity_out
    target_output back_run_output].
  repeat split.
  unfold three_steps, apply_trade. cbn [reserve_in reserve_out].
  rewrite H1. cbn [bind reserve_in reserve_out].
  rewrite H2. cbn [bind reserve_in reserve_out reversed].
  rewrite H3. reflexivity.
Qed.

(** A failing step of the chain fails the whole call with the same error. *)
Lemma three_steps_failure_propagates self tt pool tin tout Lin Lout T bh e :
  three_steps {| reserve_in := Lin; reserve_out := Lout |}
              (Z.min (T / 4) (Lin / 100)) T = Raise e ->
  build_sandwich_transactions self tt pool tin tout Lin Lout T bh = Raise e.
Proof.
  unfold build_sandwich_transactions, simulate_bracket, three_steps, apply_trade.
  cbn [reserve_in reserve_out].
  destruct (calculate_swap_amounts Lin Lout _ _) as [[fo fi]|e1];
    cbn [bind reserve_in reserve_out]; [|intros H; injection H as <-; reflexivity].
  destruct (calculate_swap_amounts (Lin + _) (Lout - fo) T _) as [[to ti]|e2];
    cbn [bind reserve_in reserve_out reversed]; [|intros H; injection H as <-; reflexivity].
  destruct (calculate_swap_amounts _ _ fo _) as [[bo bi]|e3];
    cbn [bind]; [discriminate|intros H; injection H as <-; reflexivity].
Qed.

(** C1: every call of [build_sandwich_transactions] that returns has
    computed its bracket, and the values of that bracket are those of
    three chained trades: the front-run amount on the original reserves,
    the target amount on the once-updated reserves, and a back-run of
    exactly the front-run's output on the twice-updated reserves, in the
    other direction.  When one of the three steps fails, the call fails
    with the same error. *)
Theorem bracket_is_three_chained_steps :
  forall self tt pool tin tout pool_liquidity_in pool_liquidity_out target_amount_in bh,
    (forall res,
        build_sandwich_transactions self tt pool tin tout pool_liquidity_in
                                    pool_liquidity_out target_amount_in bh = Ok res ->
        exists b,
          simulate_bracket pool_liquidity_in pool_liquidity_out target_amount_in = Ok b /\
          front_run_amount b = Z.min (target_amount_in / 4) (pool_liquidity_in / 100) /\
          back_run_amount b = front_run_output b /\
          three_steps {| reserve_in := pool_liquidity_in;
                         reserve_out := pool_liquidity_out |}
                      (front_run_amount b) target_amount_in
          = Ok ({| reserve_in := new_liquidity_in b;
                   reserve_out := new_liquidity_out b |},
                {| reserve_in := final_liquidity_in b;
                   reserve_out := final_liquidity_out b |},
                (front_run_output b, target_output b, back_run_output b))) /\
    (forall e,
        three_steps {| reserve_in := pool_liquidity_in; reserve_out := pool_liquidity_out |}
                    (Z.min (target_amount_in / 4) (pool_liquidity_in / 100))
                    target_amount_in = Raise e ->
        build_sandwich_transactions self tt pool tin tout pool_liquidity_in
                                    pool_liquidity_out target_amount_in bh = Raise e).
Proof.
  intros self tt pool tin tout Lin Lout T bh. split.
  - intros res H. unfold build_sandwich_transactions in H.
    apply bind_Ok_inv in H as (b & Hb & _).
    exists b. split; [exact Hb|]. apply simulate_bracket_steps, Hb.
  - intros e. apply three_steps_failure_propagates.
Qed.

(** The worked bracket: reserves (1,000,000 / 25,000,000) and a target
    of 5,000 give a front-run of 1,250 that buys 31,111, a target that
    buys 123,748 from what is left, and a back-run of those 31,111 that
    brings 1,255. *)
Lemma sample_bracket_steps :
  simulate_bracket 1000000 25000000 5000 = Ok sample_bracket /\
  three_steps {| reserve_in := 1000000; reserve_out := 25000000 |} 1250 5000
  = Ok ({| reserve_in := 1001250; reserve_out := 24968889 |},
        {| reserve_in := 1006250; reserve_out := 24845141 |},
        (31111, 123748, 1255)).
Proof. split; vm_compute; reflexivity. Qed.

Lemma bracket_is_three_chained_steps_witness :
  exists b,
    simulate_bracket 1000000 25000000 5000 = Ok b /\
    front_run_amount b = Z.min (5000 / 4) (1000000 / 100) /\
    back_run_amount b = front_run_output b /\
    three_steps {| reserve_in := 1000000; reserve_out := 25000000 |}
                (front_run_amount b) 5000
    = Ok ({| reserve_in := new_liquidity_in b; reserve_out := new_liquidity_out b |},
          {| reserve_in := final_liquidity_in b; reserve_out := final_liquidity_out b |},
          (front_run_output b, target_output b, back_run_output b)).
Proof.
  apply (proj1 (bracket_is_three_chained_steps sample_builder "target" "pool" "mintA"
                  "mintB" 1000000 25000000 5000 "blockhash")
               (None, None, S754_zero false)).
  vm_compute. reflexivity.
Defined.

Lemma flt_negative_ratio x :
  is_finite x = true -> signed true x -> flt x (literal 1 2) = true.
Proof.
  destruct x as [s|s| |s m e]; try discriminate; intros _ Hs; cbn in Hs; subst s;
    reflexivity.
Qed.

(** C7: the profit ratio is the profit over the front-run amount, as a
    double, and zero when that amount is not positive.  When this ratio
    is below one hundredth the builder returns no transaction and a
    ratio of zero; a call that returns anything else, a leg or another
    ratio, went on to build the legs and had a ratio of at least one
    hundredth, which it returns.  In exact arithmetic: a bracket whose
    front-run amount is at most [2 ^ 52] and whose profit is less than
    a hundredth of it is rejected, and so is, at any size, a bracket
    whose back-run brings no more than the front-run spent. *)
Theorem unprofitable_bracket_is_rejected :
  forall self tt pool tin tout Lin Lout T bh b,
    simulate_bracket Lin Lout T = Ok b ->
    (0 < front_run_amount b ->
     int_truediv (back_run_output b - front_run_amount b) (front_run_amount b)
     = Ok (profit_percentage b)) /\
    (front_run_amount b <= 0 -> profit_percentage b = S754_zero false) /\
    ((float_to_Q (profit_percentage b) < 1 # 100)%Q ->
     build_sandwich_transactions self tt pool tin tout Lin Lout T bh
     = Ok (None, None, S754_zero false)) /\
    (forall front_tx back_tx ratio,
        build_sandwich_transactions self tt pool tin tout Lin Lout T bh
        = Ok (front_tx, back_tx, ratio) ->
        (front_tx, back_tx, ratio) <> (None, None, S754_zero false) ->
        (1 # 100 <= float_to_Q (profit_percentage b))%Q /\
        ratio = profit_percentage b) /\
    (front_run_amount b <= 2 ^ 52 ->
     100 * (back_run_output b - front_run_amount b) < front_run_amount b ->
     build_sandwich_transactions self tt pool tin tout Lin Lout T bh
     = Ok (None, None, S754_zero false)) /\
    (front_run_amount b <= 0 \/ back_run_output b <= front_run_amount b ->
     build_sandwich_transactions self tt pool tin tout Lin Lout T bh
     = Ok (None, None, S754_zero false)).
Proof.
  intros self tt pool tin tout Lin Lout T bh b Hb.
  assert (Hrej : flt (profit_percentage b) (literal 1 2) = true ->
                 build_sandwich_transactions self tt pool tin tout Lin Lout T bh
                 = Ok (None, None, S754_zero false)).
  { intros Hlt. unfold build_sandwich_transactions. rewrite Hb. cbn [bind].
    rewrite Hlt. reflexivity. }
  assert (Hratio : (0 < front_run_amount b ->
             int_truediv (back_run_output b - front_run_amount b) (front_run_amount b)
             = Ok (profit_percentage b)) /\
            (front_run_amount b <= 0 -> profit_percentage b = S754_zero false)).
  { unfold simulate_bracket in Hb.
    apply bind_Ok_inv in Hb as [[fo fi] [H1 Hb]].
    apply bind_Ok_inv in Hb as [[to ti] [H2 Hb]].
    apply bind_Ok_inv in Hb as [[bo bi] [H3 Hb]].
    apply bind_Ok_inv in Hb as [pp [H4 Hb]].
    injection Hb as <-. cbn [front_run_amount back_run_output profit_percentage].
    destruct (Z.ltb_spec 0 (Z.min (T / 4) (Lin / 100))) as [Hpos|Hle].
    - split; [intros _; exact H4 | lia].
    - split; [lia|]. intros _. injection H4 as <-. reflexivity. }
  destruct Hratio as [Hpos Hzero].
  assert (Hnum : valid_binary prec emax (profit_percentage b) = true /\
                 is_finite (profit_percentage b) = true).
  { destruct (Z_le_gt_dec (front_run_amount b) 0) as [Hz|Hgt].
    - rewrite (Hzero Hz). split; reflexivity.
    - destruct (int_truediv_Ok _ _ _ (Hpos ltac:(lia))) as (Hne & Heq & Hfin & _).
      split; [|exact Hfin]. rewrite Heq. apply round_ratio_valid, Hne. }
  destruct Hnum as [Hvalid Hfin].
  pose proof (flt_one_percent (profit_percentage b) Hvalid Hfin) as Hiff.
  assert (Hloss : front_run_amount b <= 0 \/ back_run_output b <= front_run_amount b ->
                  flt (profit_percentage b) (literal 1 2) = true).
  { intros [Hle|Hle].
    - rewrite (Hzero Hle). reflexivity.
    - destruct (Z_le_gt_dec (front_run_amount b) 0) as [Hz|Hgt].
      + rewrite (Hzero Hz). reflexivity.
      + specialize (Hpos ltac:(lia)).
        apply int_truediv_Ok in Hpos as (_ & Heq & Hfin' & Hs).
        replace (front_run_amount b <? 0) with false in Hs
          by (symmetry; apply Z.ltb_ge; lia).
        destruct (Z.eq_dec (back_run_output b - front_run_amount b) 0) as [H0|Hne].
        * rewrite Heq, H0. reflexivity.
        * replace (back_run_output b - front_run_amount b <? 0) with true in Hs
            by (symmetry; apply Z.ltb_lt; lia).
          apply flt_negative_ratio; assumption. }
  split; [exact Hpos|]. split; [exact Hzero|].
  split; [intros Hq; apply Hrej, Hiff, Hq|]. split; [|split].
  - intros f k r H Hleg. unfold build_sandwich_transactions in H.
    rewrite Hb in H. cbn [bind] in H.
    destruct (flt (profit_percentage b) (literal 1 2)) eqn:E.
    + exfalso. apply Hleg. injection H as <- <- <-. reflexivity.
    + split.
      * apply Qnot_lt_le. intros Hq. apply Hiff in Hq. congruence.
      * apply bind_Ok_inv in H as (fm & _ & H).
        apply bind_Ok_inv in H as (bm & _ & H).
        injection H as _ _ <-. reflexivity.
  - intros Hsize Hexact. apply Hrej.
    destruct (Z_le_gt_dec (back_run_output b) (front_run_amount b)) as [Hno|Hyes];
      [apply Hloss; right; exact Hno|].
    assert (Hfront : 0 < front_run_amount b) by lia.
    destruct (int_truediv_Ok _ _ _ (Hpos Hfront)) as (_ & Heq & _ & _).
    rewrite Heq. apply round_ratio_below_one_percent; lia.
  - intros Hl. apply Hrej, Hloss, Hl.
Qed.

Lemma unprofitable_bracket_is_rejected_witness :
  build_sandwich_transactions sample_builder "target" "pool" "mintA" "mintB"
                              1000000 25000000 5000 "blockhash"
  = Ok (None, None, S754_zero false).
Proof.
  assert (Hb : simulate_bracket 1000000 25000000 5000 = Ok sample_bracket)
    by (vm_compute; reflexivity).
  apply (proj1 (proj2 (proj2 (proj2 (proj2 (unprofitable_bracket_is_rejected
                  sample_builder "target" "pool" "mintA" "mintB"
                  1000000 25000000 5000 "blockhash" sample_bracket Hb))))));
    vm_compute; first [reflexivity | discriminate].
Defined.

(** A bracket that is accepted: reserves of 10^9 on both sides and a
    target of 4 * 10^8 give a ratio of 93%, which the call returns. *)
Lemma profitable_bracket_is_accepted :
  exists front_tx back_tx ratio,
    build_sandwich_transactions sample_builder "target" "pool" "mintA" "mintB"
                                1000000000 1000000000 400000000 "blockhash"
    = Ok (front_tx, back_tx, ratio) /\
    (front_tx, back_tx, ratio) <> (None, None, S754_zero false) /\
    (1 # 100 <= float_to_Q ratio)%Q.
Proof.
  eexists. eexists. eexists. split; [vm_compute; reflexivity|].
  split; [discriminate|]. vm_compute. discriminate.
Qed.

End BuilderFacts.

(* ================================================================== *)
(** ** The engine: evaluation, execution, statistics *)
(* ================================================================== *)

Module EngineFacts.

Import PyFacts Settings Raydium SandwichEngine EngineSpec.

#[local] Open Scope Z_scope.

Lemma bind_Some_inv {A B} (c : result A) (k : A -> result (option B)) (b : B) :
  try_except (Py.bind c k) (fun _ => None) = Some b ->
  exists a, c = Ok a /\ try_except (k a) (fun _ => None) = Some b.
Proof. destruct c as [a|e]; cbn; [eauto | discriminate]. Qed.

Lemma fmul_not_nan_l x y : is_nan (fmul x y) = false -> is_nan x = false.
Proof. destruct x; cbn; congruence. Qed.

Lemma fsub_not_nan_l x y : is_nan (fsub x y) = false -> is_nan x = false.
Proof. destruct x; cbn; congruence. Qed.

Lemma flt_not_nan_r x y : flt x y = true -> is_nan y = false.
Proof.
  destruct y; try reflexivity. unfold flt, SFltb. destruct x; cbn; discriminate.
Qed.

Lemma SFcompare_refl x : is_nan x = false -> SFcompare x x = Some Eq.
Proof.
  destruct x as [s|s| |s m e]; cbn; try discriminate; intros _.
  - reflexivity.
  - destruct s; reflexivity.
  - rewrite Z.compare_refl.
    assert (H : Pos.compare_cont Eq m m = Eq) by apply Pos.compare_refl.
    rewrite H. destruct s; reflexivity.
Qed.

Lemma fle_refl x : is_nan x = false -> fle x x = true.
Proof. intros H. unfold fle, SFleb. rewrite SFcompare_refl by assumption. reflexivity. Qed.

Lemma SFcompare_antisym x y :
  is_nan x = false -> is_nan y = false ->
  exists c, SFcompare x y = Some c /\ SFcompare y x = Some (CompOpp c).
Proof.
  destruct x as [s1|s1| |s1 m1 e1], y as [s2|s2| |s2 m2 e2]; cbn; try discriminate;
    intros _ _; try (destruct s1; eauto; fail); try (destruct s2; eauto; fail);
    try (destruct s1, s2; eauto; fail); eauto.
  assert (Hm : Pos.compare_cont Eq m2 m1 = CompOpp (Pos.compare_cont Eq m1 m2)).
  { change (Pos.compare m2 m1 = CompOpp (Pos.compare m1 m2)). apply Pos.compare_antisym. }
  rewrite (Z.compare_antisym e1 e2). rewrite Hm.
  destruct s1, s2; eexists; (split; [reflexivity|]);
    destruct (e1 ?= e2); cbn; try reflexivity;
    destruct (Pos.compare_cont Eq m1 m2); reflexivity.
Qed.

(** The built-in [min] of two numbers is below both. *)
Lemma min2_below x y :
  is_nan x = false -> is_nan y = false ->
  fle (min2 x y) x = true /\ fle (min2 x y) y = true.
Proof.
  intros Hx Hy. unfold min2.
  destruct (SFcompare_antisym y x Hy Hx) as (c & H1 & H2).
  unfold flt, SFltb, fle, SFleb. rewrite H1.
  destruct c; cbn in H2; rewrite ?H1, ?H2, ?SFcompare_refl by assumption; split; reflexivity.
Qed.

Lemma min2_not_nan_l x y : is_nan (min2 x y) = false -> is_nan y = false -> is_nan x = false.
Proof.
  unfold min2. destruct x; try reflexivity.
  unfold flt, SFltb. destruct y; cbn; congruence.
Qed.

(** One evaluation of a pool: an opportunity comes with its pool and
    within the sizing bound. *)
Lemma simulated_opportunity_sized self now pool opp :
  is_nan (max_position_size self) = false ->
  _simulate_opportunity self now pool = Some opp ->
  within_sizing_bound self opp.
Proof.
  intros Hmax H. unfold _simulate_opportunity in H.
  set (fra := min2 (fmul (liquidity pool) (literal 1 3)) (max_position_size self)) in *.
  apply bind_Some_inv in H as (ratio & _ & H).
  apply bind_Some_inv in H as (turnover & _ & H).
  apply bind_Some_inv in H as (depth & _ & H).
  apply bind_Some_inv in H as (conf & _ & H).
  destruct (flt (min_profit_threshold self) _) eqn:Hnet; [|discriminate].
  apply bind_Some_inv in H as (seconds & _ & H).
  cbn in H. injection H as <-.
  apply flt_not_nan_r, fsub_not_nan_l, fmul_not_nan_l, fmul_not_nan_l in Hnet.
  pose proof (min2_not_nan_l _ _ Hnet Hmax) as Ha.
  destruct (min2_below _ _ Ha Hmax) as [H1 H2].
  exists pool. cbn [pool_info front_run_amount]. repeat split; assumption.
Qed.

Lemma detect_loop_sized pools : forall i clock self acc,
  is_nan (max_position_size self) = false ->
  Forall (within_sizing_bound self) acc ->
  Forall (within_sizing_bound self) (fst (detect_loop pools i clock self acc)) /\
  max_position_size (snd (detect_loop pools i clock self acc)) = max_position_size self.
Proof.
  induction pools as [|pool rest IH]; intros i clock self acc Hmax Hacc; cbn [detect_loop].
  - split; [exact Hacc | reflexivity].
  - destruct (_simulate_opportunity self (clock i) pool) as [opp|] eqn:E.
    + destruct (flt (min_profit_threshold self) (estimated_profit opp)).
      * apply (IH (S i) clock (with_stats self _) (acc ++ [opp]) Hmax).
        apply Forall_app. split; [exact Hacc|].
        constructor; [|constructor].
        exact (simulated_opportunity_sized self (clock i) pool opp Hmax E).
      * apply IH; assumption.
    + apply IH; assumption.
Qed.

(** An opportunity made from a pending swap, whatever the swap: no
    pool, and front-run and back-run amounts of a quarter of the swap's
    input. *)
Lemma mempool_opportunity_sized settings self pending_swap expected_profit env res self' :
  _execute_simulated_sandwich settings self pending_swap expected_profit env
  = Ok (res, self') ->
  sized_from_swap pending_swap (opportunity res).
Proof.
  unfold _execute_simulated_sandwich. intros H.
  apply QuoteFacts.bind_Ok_inv in H as (fs & _ & H).
  apply QuoteFacts.bind_Ok_inv in H as (bs & _ & H).
  destruct (flt (u_success env) (literal 80 2)); injection H as <- _;
    repeat split.
Qed.

(** C4, as the code has it: every opportunity found by scanning pools
    carries its pool, and its front-run amount is the smaller of 0.1% of
    that pool's liquidity and the maximum position size, so it is below
    both.  Every opportunity made from a pending swap carries no pool
    and is sized as a quarter of the swap's input amount, whatever the
    maximum position size. *)
Theorem scanned_opportunities_within_sizing_bound :
  forall self target_pools clock,
    is_nan (max_position_size self) = false ->
    Forall (within_sizing_bound self)
           (fst (detect_sandwich_opportunities self target_pools clock)) /\
    (forall settings pending_swap expected_profit env res self',
        _execute_simulated_sandwich settings self pending_swap expected_profit env
        = Ok (res, self') ->
        sized_from_swap pending_swap (opportunity res)).
Proof.
  intros self pools clock Hmax. split.
  - unfold detect_sandwich_opportunities.
    apply detect_loop_sized; [exact Hmax | constructor].
  - intros settings pending_swap expected_profit env res self'.
    apply mempool_opportunity_sized.
Qed.

Lemma scanned_opportunities_within_sizing_bound_witness :
  Forall (within_sizing_bound (init roomy_settings))
         (fst (detect_sandwich_opportunities (init roomy_settings) [sample_pool]
                 (fun _ => literal 1700000000 0))) /\
  exists res self',
    _execute_simulated_sandwich roomy_settings (init roomy_settings) sample_swap
                                (literal 1 1) sample_env
    = Ok (res, self') /\
    sized_from_swap sample_swap (opportunity res).
Proof.
  assert (Hmax : is_nan (max_position_size (init roomy_settings)) = false) by reflexivity.
  pose proof (scanned_opportunities_within_sizing_bound
                (init roomy_settings) [sample_pool]
                (fun _ => literal 1700000000 0) Hmax) as [Hscan Hswap].
  split; [exact Hscan|].
  destruct (_execute_simulated_sandwich roomy_settings (init roomy_settings) sample_swap
              (literal 1 1) sample_env) as [[res self']|e] eqn:E.
  - exists res, self'. split; [reflexivity|]. exact (Hswap _ _ _ _ _ _ E).
  - vm_compute in E. discriminate E.
Defined.

Lemma scan_finds_the_sample :
  List.length (fst (detect_sandwich_opportunities (init roomy_settings) [sample_pool]
                 (fun _ => literal 1700000000 0))) = 1%nat.
Proof. vm_compute. reflexivity. Qed.

(** C4 as stated fails on the other path: an opportunity made from a
    pending swap of 10 SOL has no pool and a front-run amount of 2.5,
    above the default maximum position size of 1.0 and so above the
    smaller of that size and any share of any liquidity. *)
Lemma mempool_opportunity_exceeds_bound :
  exists res self',
    _execute_simulated_sandwich defaults (init defaults) sample_swap (literal 1 1) sample_env
    = Ok (res, self') /\
    pool_info (opportunity res) = None /\
    front_run_amount (opportunity res) = literal 25 1 /\
    max_position_size (init defaults) = literal 10 1 /\
    fle (front_run_amount (opportunity res)) (max_position_size (init defaults)) = false /\
    forall liquidity,
      fle (front_run_amount (opportunity res))
          (min2 (fmul liquidity (literal 1 3)) (max_position_size (init defaults))) = false.
Proof.
  eexists. eexists. split; [vm_compute; reflexivity|].
  split; [reflexivity|]. split; [vm_compute; reflexivity|].
  split; [vm_compute; reflexivity|]. split; [vm_compute; reflexivity|].
  intros liq. generalize (fmul liq (literal 1 3)). intros a.
  change (front_run_amount _) with (fmul (literal 100 1) (literal 25 2)).
  replace (fmul (literal 100 1) (literal 25 2))
    with (S754_finite false 5629499534213120 (-51)) by (vm_compute; reflexivity).
  replace (max_position_size (init defaults))
    with (S754_finite false 4503599627370496 (-52)) by (vm_compute; reflexivity).
  unfold min2, flt, fle, SFltb, SFleb.
  destruct a as [s|s| |s m e]; cbn [SFcompare]; try reflexivity.
  - destruct s; reflexivity.
  - destruct s; [reflexivity|].
    destruct (Z.compare (-52) e) eqn:E1.
    + apply Z.compare_eq in E1. subst e.
      destruct (Pos.compare_cont Eq 4503599627370496 m); reflexivity.
    + reflexivity.
    + cbn [SFcompare].
      assert (E2 : (-51 ?= e) = Gt) by (apply Z.compare_gt_iff; apply Z.compare_gt_iff in E1; lia).
      rewrite E2. reflexivity.
Qed.




Lemma evaluation_sample_labels :
  option_map target_transaction
    (_simulate_opportunity (init roomy_settings) (literal 1700000000 0) sample_pool)
  = Some "simulated_tx_1700000000"%string /\
  option_map target_transaction
    (_simulate_opportunity (init roomy_settings) (literal 1700000001 0) sample_pool)
  = Some "simulated_tx_1700000001"%string.
Proof. split; vm_compute; reflexivity. Qed.

(** A simulated execution counts its attempt once, whatever its outcome. *)
Lemma simulated_execution_counts_once self opportunity start_time env :
  sandwiches_attempted
    (stats (snd (_simulate_sandwich_execution self opportunity start_time env)))
  = sandwiches_attempted (stats self) + 1.
Proof.
  unfold _simulate_sandwich_execution.
  destruct (flt (literal 1 1) (u_success env)); reflexivity.
Qed.

(** The execution driven by a pending swap counts its attempt once too. *)
Lemma mempool_execution_counts_once settings self swap expected env res self' :
  _execute_simulated_sandwich settings self swap expected env = Ok (res, self') ->
  sandwiches_attempted (stats self') = sandwiches_attempted (stats self) + 1.
Proof.
  unfold _execute_simulated_sandwich. intros H.
  apply QuoteFacts.bind_Ok_inv in H as (fs & _ & H).
  apply QuoteFacts.bind_Ok_inv in H as (bs & _ & H).
  destruct (flt (u_success env) (literal 80 2)); injection H as _ <-; reflexivity.
Qed.

(** The placeholder for real execution leaves the statistics as they are. *)
Lemma real_execution_counts_nothing self opportunity start_time env :
  snd (_execute_real_sandwich self opportunity start_time env) = self.
Proof. reflexivity. Qed.

(** What [execute_sandwich] leaves of the engine: the engine itself
    when its first lines raised, and otherwise what the execution
    selected by [DRY_RUN] left. *)
Lemma execute_sandwich_engine settings self opportunity env :
  snd (execute_sandwich settings self opportunity env)
  = if DEBUG_MODE settings && negb (has_pool opportunity) then self
    else if DRY_RUN settings
         then snd (_simulate_sandwich_execution self opportunity (t_start env) env)
         else snd (_execute_real_sandwich self opportunity (t_start env) env).
Proof.
  unfold execute_sandwich, has_pool.
  destruct (DEBUG_MODE settings), (pool_info opportunity), (DRY_RUN settings); reflexivity.
Qed.

(** In a dry run every attempt on an opportunity whose symbols can be
    printed is counted once. *)
Lemma dry_runs_count_every_attempt settings attempts : forall self,
  DRY_RUN settings = true ->
  Forall (fun attempt => DEBUG_MODE settings && negb (has_pool (fst attempt)) = false)
         attempts ->
  sandwiches_attempted (stats (execute_all settings self attempts))
  = sandwiches_attempted (stats self) + Z.of_nat (List.length attempts).
Proof.
  induction attempts as [|[opp env] rest IH]; intros self Hdry Hall.
  - cbn. lia.
  - inversion Hall as [|? ? Hopp Hrest]; subst. cbn [fst] in Hopp.
    cbn [execute_all List.length]. rewrite IH by assumption.
    rewrite execute_sandwich_engine, Hopp, Hdry.
    rewrite simulated_execution_counts_once. lia.
Qed.

(** With [DEBUG_MODE] on, an attempt on an opportunity without a pool
    raises before anything is counted, in a dry run as in real mode. *)
Lemma debug_print_precedes_counting settings self opportunity env :
  DEBUG_MODE settings = true -> pool_info opportunity = None ->
  execute_sandwich settings self opportunity env = (Raise AttributeError, self).
Proof. intros Hd Hp. unfold execute_sandwich. rewrite Hd, Hp. reflexivity. Qed.

(** C3 in real mode: with [DRY_RUN] off, no run of executions, however
    long, moves the attempted counter. *)
Theorem real_mode_never_counts_attempts :
  forall max_slippage min_profit max_position debug self attempts,
    sandwiches_attempted
      (stats (execute_all {| MAX_SLIPPAGE := max_slippage;
                             MIN_PROFIT_THRESHOLD := min_profit;
                             MAX_POSITION_SIZE := max_position;
                             DEBUG_MODE := debug;
                             DRY_RUN := false |} self attempts))
    = sandwiches_attempted (stats self).
Proof.
  intros ms mp mx dbg self attempts. revert self.
  induction attempts as [|[opp env] rest IH]; intros self; [reflexivity|].
  cbn [execute_all]. rewrite IH, execute_sandwich_engine. cbn [DRY_RUN].
  destruct (_ && _); reflexivity.
Qed.

(** Three attempts started in real mode on a fresh engine: the counter
    reads zero, and each attempt ended in failure. *)
Lemma real_mode_three_attempts :
  let settings := {| MAX_SLIPPAGE := literal 5 2;
                     MIN_PROFIT_THRESHOLD := literal 1 3;
                     MAX_POSITION_SIZE := literal 10 1;
                     DEBUG_MODE := true;
                     DRY_RUN := false |} in
  sandwiches_attempted
    (stats (execute_all settings (init settings)
              [(sample_opportunity, sample_env); (sample_opportunity, sample_env);
               (sample_opportunity, sample_env)])) = 0 /\
  option_map success
    (result_value (fst (execute_sandwich settings (init settings) sample_opportunity
                                         sample_env)))
  = Some false.
Proof. split; reflexivity. Qed.

(** The bracket sent to the ledger: whatever the ledger answers, the
    attempted counter stays; a confirmed back-run adds a success. *)
Lemma real_attack_never_counts_attempt self rpc :
  sandwiches_attempted (stats (_execute_real_sandwich_attack self rpc))
  = sandwiches_attempted (stats self).
Proof.
  unfold _execute_real_sandwich_attack.
  destruct (truthy (front_sent rpc)), (front_confirmed rpc), (truthy (back_sent rpc)),
    (back_confirmed rpc); reflexivity.
Qed.

Lemma real_attack_counts_success self :
  successful_sandwiches
    (stats (_execute_real_sandwich_attack self
              {| front_sent := Some "front"%string; front_confirmed := true;
                 back_sent := Some "back"%string; back_confirmed := true |}))
  = successful_sandwiches (stats self) + 1.
Proof. reflexivity. Qed.

(** The callback on the sample swap: one detection, one attempt, and an
    opportunity without a pool behind it. *)
Lemma handler_counts_sample_swap :
  let self' := _handle_real_opportunity defaults (init defaults) sample_swap sample_env in
  opportunities_detected (stats self') = 1 /\ sandwiches_attempted (stats self') = 1.
Proof. vm_compute. split; reflexivity. Qed.

End EngineFacts.

(* ================================================================== *)
(** ** The feed: fallback from streaming to polling *)
(* ================================================================== *)

Module FeedFacts.

Import MempoolMonitor FeedSpec.

#[local] Open Scope Z_scope.

Section Fallback.

Variable S : Type.
Variable cb : Callback S.

(** The polling loop, while monitoring is on and [cb] is registered:
    it appends one delivery per generated candidate, in order, and at
    most a closing mark; it never goes back to streaming. *)
Lemma polling_loop_delivers events : forall cycle_count found (x : session S) out x',
  is_monitoring (monitor x) = true ->
  opportunity_callback (monitor x) = Some cb ->
  _polling_loop events cycle_count found x = (out, x') ->
  exists ending,
    log x' = log x ++ map DeliveredFromPoll (poll_candidates events cycle_count) ++ ending /\
    (ending = [] \/ ending = [PollingCompleted]) /\
    cb_state x' = after_deliveries cb (poll_candidates events cycle_count) (cb_state x).
Proof.
  induction events as [|ev rest IH]; intros c f x out x' Hon Hcb H; cbn [_polling_loop] in H;
    rewrite Hon in H; cbn [negb] in H.
  - injection H as <- <-. exists []. cbn. rewrite app_nil_r. auto.
  - destruct ev as [d| |].
    + cbn [poll_candidates].
      destruct ((c + 1) mod 2 =? 0); [|eapply IH; eassumption].
      destruct (_generate_simulated_opportunity d) as [[p|]|e];
        try (eapply IH; eassumption).
      rewrite Hcb in H.
      unfold deliver in H. destruct (cb p (cb_state x)) as [s' raised] eqn:Ecb.
      cbn [fst] in H.
      apply IH in H; [|exact Hon|exact Hcb].
      destruct H as (ending & Hlog & Hend & Hst).
      cbn [log cb_state monitor] in Hlog, Hst.
      exists ending. split; [|split; [exact Hend|]].
      * rewrite Hlog. cbn [map]. rewrite <- !app_assoc. reflexivity.
      * rewrite Hst. unfold after_deliveries. cbn [fold_left]. rewrite Ecb. reflexivity.
    + cbn [poll_candidates].
      destruct rest as [|ev' rest']; cbn [_polling_loop] in H; cbn in H;
        injection H as <- <-; exists [PollingCompleted]; cbn; auto.
    + cbn [poll_candidates]. injection H as <- <-.
      exists [PollingCompleted]. cbn. auto.
Qed.

(** A subscribed stream that sees no message until the deadline times out
    and leaves the session as it was. *)
Lemma silent_stream_times_out n rest (x : session S) :
  is_monitoring (monitor x) = true ->
  _websocket_loop (repeat RecvTimeout n ++ Deadline :: rest) x = (Raised TimeoutError, x).
Proof.
  intros Hon. induction n as [|n IH]; cbn [repeat app _websocket_loop];
    rewrite Hon; cbn [negb]; [reflexivity | exact IH].
Qed.

Lemma never_delivers_raises setup events (x : session S) :
  never_delivers setup events ->
  is_monitoring (monitor x) = true ->
  _try_websocket_monitoring setup events x = (Raised TimeoutError, x).
Proof.
  intros [->|[-> (n & rest & ->)]] Hon; [reflexivity|].
  cbn [_try_websocket_monitoring]. apply silent_stream_times_out, Hon.
Qed.

(** C9: when the streaming attempt never acknowledges, or is subscribed
    and sees no message until the deadline, the session enters polling:
    the log opens with the start of streaming and the one start of
    polling, and everything after comes from the polling loop; every
    candidate the fallback generates is handed to the callback, once and
    in order; nothing of streaming follows. *)
Theorem fallback_entered_once_and_kept :
  forall self setup ws_events poll_events s out x,
    never_delivers setup ws_events ->
    start_monitoring self cb setup ws_events poll_events s = (out, x) ->
    exists tail,
      log x = StreamingStarted :: PollingStarted :: tail /\
      List.length (filter is_polling_started (log x)) = 1%nat /\
      filter is_streaming tail = [] /\
      deliveries (log x) = poll_candidates poll_events 0 /\
      cb_state x = after_deliveries cb (poll_candidates poll_events 0) s.
Proof.
  intros self setup ws poll s out x Hnever H. unfold start_monitoring in H.
  cbv zeta in H.
  set (x0 := {| monitor := _; cb_state := s; log := [StreamingStarted] |}) in H.
  assert (Hon : is_monitoring (monitor x0) = true) by reflexivity.
  rewrite (never_delivers_raises setup ws x0 Hnever Hon) in H.
  unfold _polling_monitoring in H.
  apply polling_loop_delivers in H; [|exact Hon|reflexivity].
  destruct H as (ending & Hlog & Hend & Hst).
  assert (Hlog' : log x = StreamingStarted :: PollingStarted
                            :: (map DeliveredFromPoll (poll_candidates poll 0) ++ ending)).
  { rewrite Hlog. reflexivity. }
  assert (Hpoll : forall l, filter is_polling_started (map DeliveredFromPoll l) = []).
  { induction l; cbn; auto. }
  assert (Hstream : forall l, filter is_streaming (map DeliveredFromPoll l) = []).
  { induction l; cbn; auto. }
  assert (Hdel : forall l e, (e = [] \/ e = [PollingCompleted]) ->
             deliveries (map DeliveredFromPoll l ++ e) = l).
  { induction l as [|p l IHl]; intros e He; cbn.
    - destruct He as [->| ->]; reflexivity.
    - f_equal. apply IHl, He. }
  exists (map DeliveredFromPoll (poll_candidates poll 0) ++ ending).
  rewrite Hlog'. split; [reflexivity|]. split; [|split; [|split]].
  - cbn [filter is_polling_started List.length]. rewrite filter_app, Hpoll.
    destruct Hend as [->| ->]; reflexivity.
  - rewrite filter_app, Hstream. destruct Hend as [->| ->]; reflexivity.
  - cbn [deliveries]. apply Hdel, Hend.
  - exact Hst.
Qed.

End Fallback.

Lemma fallback_entered_once_and_kept_witness :
  exists tail,
    log (snd (start_monitoring (init nat) (fun _ n => (Datatypes.S n, None)) AckTimeout []
                               sample_polls 0%nat))
    = StreamingStarted :: PollingStarted :: tail /\
    List.length
      (filter is_polling_started
         (log (snd (start_monitoring (init nat) (fun _ n => (Datatypes.S n, None))
                                     AckTimeout [] sample_polls 0%nat)))) = 1%nat /\
    filter is_streaming tail = [] /\
    deliveries
      (log (snd (start_monitoring (init nat) (fun _ n => (Datatypes.S n, None))
                                  AckTimeout [] sample_polls 0%nat)))
    = poll_candidates sample_polls 0 /\
    cb_state (snd (start_monitoring (init nat) (fun _ n => (Datatypes.S n, None))
                                    AckTimeout [] sample_polls 0%nat))
    = after_deliveries (fun _ (n : nat) => (Datatypes.S n, @None exn))
                       (poll_candidates sample_polls 0) 0%nat.
Proof.
  apply (fallback_entered_once_and_kept nat (fun _ n => (Datatypes.S n, None))
           (init nat) AckTimeout [] sample_polls 0%nat
           (fst (start_monitoring (init nat) (fun _ n => (Datatypes.S n, None))
                                  AckTimeout [] sample_polls 0%nat))).
  - left. reflexivity.
  - apply surjective_pairing.
Defined.

Lemma sample_polls_deliver_one :
  List.length (poll_candidates sample_polls 0) = 1%nat.
Proof. vm_compute. reflexivity. Qed.

End FeedFacts.

(* ================================================================== *)
(** ** The balance query *)
(* ================================================================== *)

Module RpcFacts.

Import RPCClientWrapper.

#[local] Open Scope string_scope.
#[local] Open Scope Z_scope.

(** C10: when the ledger's balance query raises, whatever the error,
    [get_balance] returns 0.0 and raises nothing; the result is the one
    given for an account that holds no lamports. *)
Theorem get_balance_hides_failure :
  forall client pubkey e,
    client pubkey = Raise e ->
    get_balance client pubkey = S754_zero false /\
    forall empty, empty pubkey = Ok 0 ->
                  get_balance empty pubkey = get_balance client pubkey.
Proof.
  intros client pk e H. unfold get_balance. rewrite H. cbn [bind try_except].
  split; [reflexivity|]. intros empty ->. reflexivity.
Qed.

Lemma get_balance_hides_failure_witness :
  get_balance (fun _ => Raise (OtherError "connection refused")) "11111111111111111111111111111111"
  = S754_zero false /\
  forall empty, empty "11111111111111111111111111111111" = Ok 0 ->
                get_balance empty "11111111111111111111111111111111"
                = get_balance (fun _ => Raise (OtherError "connection refused"))
                              "11111111111111111111111111111111".
Proof.
  apply (get_balance_hides_failure (fun _ => Raise (OtherError "connection refused"))
           "11111111111111111111111111111111" (OtherError "connection refused")).
  reflexivity.
Defined.

(** A query that answers is converted from lamports to SOL. *)
Lemma get_balance_converts :
  get_balance (fun _ => Ok 2500000000) "11111111111111111111111111111111" = literal 25 1.
Proof. vm_compute. reflexivity. Qed.

End RpcFacts.

(* ================================================================== *)
(** ** The swap instruction on the wire *)
(* ================================================================== *)

Module WireFacts.

Import TransactionBuilder WireSpec.

Lemma byte_of_Z_value v : Z.of_N (Byte.to_N (byte_of_Z v)) = v mod 256.
Proof.
  unfold byte_of_Z.
  assert (Hr : 0 <= v mod 256 < 256) by (apply Z.mod_pos_bound; lia).
  destruct (Byte.of_N (Z.to_N (v mod 256))) as [b|] eqn:E.
  - apply Byte.to_of_N in E. rewrite E. lia.
  - apply Byte.of_N_None_iff in E. lia.
Qed.

Lemma le_bytes_length n : forall v, List.length (le_bytes n v) = n.
Proof. induction n as [|n IH]; intros v; simpl; [reflexivity | now rewrite IH]. Qed.

Lemma le_value_le_bytes n : forall v, 0 <= v ->
  le_value (le_bytes n v) = v mod 256 ^ Z.of_nat n.
Proof.
  induction n as [|n IH]; intros v Hv.
  - cbn [le_bytes le_value]. change (256 ^ Z.of_nat 0) with 1. now rewrite Z.mod_1_r.
  - cbn [le_bytes le_value]. rewrite byte_of_Z_value.
    rewrite IH by (apply Z.div_pos; lia).
    rewrite Nat2Z.inj_succ, Z.pow_succ_r by lia.
    rewrite Z.rem_mul_r by (try apply Z.pow_pos_nonneg; lia). lia.
Qed.

Lemma le_value_field v : 0 <= v < 2 ^ 64 -> le_value (le_bytes 8 v) = v.
Proof.
  intros Hv. rewrite le_value_le_bytes by lia.
  change (256 ^ Z.of_nat 8) with (2 ^ 64). apply Z.mod_small. exact Hv.
Qed.

Lemma pack_Q_Ok v d : pack_Q v = Ok d -> 0 <= v < 2 ^ 64 /\ d = le_bytes 8 v.
Proof.
  unfold pack_Q. destruct (Z.leb_spec 0 v); [|discriminate].
  destruct (Z.ltb_spec v (2 ^ 64)); [|discriminate].
  cbn [andb]. intros Hd. injection Hd as <-. split; [lia | reflexivity].
Qed.

Lemma pack_Q_in_range v : 0 <= v < 2 ^ 64 -> pack_Q v = Ok (le_bytes 8 v).
Proof.
  intros Hv. unfold pack_Q.
  destruct (Z.leb_spec 0 v); [|lia]. destruct (Z.ltb_spec v (2 ^ 64)); [|lia].
  reflexivity.
Qed.

Lemma pack_Q_out_of_range v : ~ (0 <= v < 2 ^ 64) -> pack_Q v = Raise StructError.
Proof.
  intros Hv. unfold pack_Q.
  destruct (Z.leb_spec 0 v); [|reflexivity].
  destruct (Z.ltb_spec v (2 ^ 64)); [lia|reflexivity].
Qed.

Lemma unpack_fields a m :
  0 <= a < 2 ^ 64 -> 0 <= m < 2 ^ 64 ->
  unpack_BQQ (byte_of_Z 9 :: le_bytes 8 a ++ le_bytes 8 m) = Some (9, a, m).
Proof.
  intros Ha Hm. unfold unpack_BQQ.
  rewrite length_app, !le_bytes_length. cbn [Nat.add Nat.eqb].
  rewrite firstn_app, skipn_app, !le_bytes_length.
  change (8 - 8)%nat with 0%nat. rewrite firstn_O, skipn_O, app_nil_r.
  rewrite firstn_all2 by (rewrite le_bytes_length; lia).
  rewrite skipn_all2 by (rewrite le_bytes_length; lia).
  cbn [app]. rewrite !le_value_field by assumption. reflexivity.
Qed.

(** X1: an instruction encoded from two amounts of the unsigned 64-bit
    range has 17 bytes and reads back as the tag 9 and the two amounts. *)
Theorem swap_instruction_round_trip :
  forall amount_in minimum_amount_out,
    0 <= amount_in < 2 ^ 64 -> 0 <= minimum_amount_out < 2 ^ 64 ->
    exists data,
      _encode_swap_instruction amount_in minimum_amount_out = Ok data /\
      List.length data = 17%nat /\
      unpack_BQQ data = Some (9, amount_in, minimum_amount_out).
Proof.
  intros a m Ha Hm. unfold _encode_swap_instruction.
  rewrite (pack_Q_in_range a Ha), (pack_Q_in_range m Hm). cbn [bind].
  eexists. split; [reflexivity|]. split.
  - cbn [List.length]. rewrite length_app, !le_bytes_length. reflexivity.
  - apply unpack_fields; assumption.
Qed.

Lemma swap_instruction_round_trip_witness :
  exists data,
    _encode_swap_instruction 1250 30488 = Ok data /\
    List.length data = 17%nat /\
    unpack_BQQ data = Some (9, 1250, 30488).
Proof. apply swap_instruction_round_trip; lia. Defined.

(** X2: encoding fails, with the packing error, exactly when one of the
    two amounts is negative or does not fit in 64 bits; two encodings
    that succeed with the same bytes had the same amounts. *)
Theorem swap_instruction_rejects_out_of_range :
  forall amount_in minimum_amount_out,
    (_encode_swap_instruction amount_in minimum_amount_out = Raise StructError <->
     ~ (0 <= amount_in < 2 ^ 64 /\ 0 <= minimum_amount_out < 2 ^ 64)) /\
    (forall amount_in' minimum_amount_out' data,
        _encode_swap_instruction amount_in minimum_amount_out = Ok data ->
        _encode_swap_instruction amount_in' minimum_amount_out' = Ok data ->
        amount_in = amount_in' /\ minimum_amount_out = minimum_amount_out').
Proof.
  intros a m. split.
  - unfold _encode_swap_instruction. split.
    + intros H [Ha Hm].
      rewrite (pack_Q_in_range a Ha), (pack_Q_in_range m Hm) in H. discriminate.
    + intros H.
      destruct (Z_le_dec 0 a) as [Ha1|Ha1]; [|rewrite pack_Q_out_of_range by lia; reflexivity].
      destruct (Z_lt_dec a (2 ^ 64)) as [Ha2|Ha2];
        [|rewrite pack_Q_out_of_range by lia; reflexivity].
      rewrite pack_Q_in_range by lia. cbn [bind].
      rewrite pack_Q_out_of_range by lia. reflexivity.
  - intros a' m' d H H'. unfold _encode_swap_instruction in H, H'.
    destruct (pack_Q a) as [da|] eqn:Ea; [|discriminate].
    destruct (pack_Q m) as [dm|] eqn:Em; [|discriminate].
    destruct (pack_Q a') as [da'|] eqn:Ea'; [|discriminate].
    destruct (pack_Q m') as [dm'|] eqn:Em'; [|discriminate].
    apply pack_Q_Ok in Ea as [Ha ->]. apply pack_Q_Ok in Em as [Hm ->].
    apply pack_Q_Ok in Ea' as [Ha' ->]. apply pack_Q_Ok in Em' as [Hm' ->].
    cbn [bind] in H, H'.
    pose proof (unpack_fields a m Ha Hm) as U.
    pose proof (unpack_fields a' m' Ha' Hm') as U'.
    assert (E : byte_of_Z 9 :: le_bytes 8 a ++ le_bytes 8 m
                = byte_of_Z 9 :: le_bytes 8 a' ++ le_bytes 8 m') by congruence.
    rewrite E in U. rewrite U' in U. injection U as <- <-. split; reflexivity.
Qed.

End WireFacts.

(* ================================================================== *)
(** ** The ledger client wrapper: submissions and confirmations *)
(* ================================================================== *)

Module RpcStatsFacts.

Import PyFacts RPCClientWrapper RpcSpec.

Lemma send_transaction_step client_send stats transaction :
  let r := send_transaction client_send stats transaction in
  transactions_sent (snd r) + transactions_failed (snd r)
  = transactions_sent stats + transactions_failed stats + 1 /\
  transactions_sent (snd r)
  = transactions_sent stats + (if is_signature (fst r) then 1 else 0) /\
  transactions_confirmed (snd r) = transactions_confirmed stats /\
  average_confirmation_time (snd r) = average_confirmation_time stats /\
  (forall signature, fst r = Some signature <-> client_send transaction = Ok (Some signature)).
Proof.
  unfold send_transaction.
  destruct (client_send transaction) as [[signature|]|e];
    cbn [bind try_except fst snd is_signature transactions_sent transactions_failed
         transactions_confirmed average_confirmation_time];
    repeat split; try lia; try congruence; intros H; congruence.
Qed.

(** X3: every transaction handed to [send_transaction] is counted
    exactly once, as sent when the client returned a signature and as
    failed otherwise (an empty answer or an exception): after any run of
    submissions the two counters together have grown by the number of
    submissions, the sent counter by the number of signatures returned,
    and no exception escapes. *)
Theorem submissions_are_counted_once :
  forall client_send transactions stats,
    let r := submit_all client_send stats transactions in
    List.length (fst r) = List.length transactions /\
    transactions_sent (snd r) + transactions_failed (snd r)
    = transactions_sent stats + transactions_failed stats
      + Z.of_nat (List.length transactions) /\
    transactions_sent (snd r)
    = transactions_sent stats
      + Z.of_nat (List.length (filter is_signature (fst r))) /\
    transactions_confirmed (snd r) = transactions_confirmed stats /\
    average_confirmation_time (snd r) = average_confirmation_time stats.
Proof.
  intros client_send transactions.
  induction transactions as [|transaction rest IH]; intros stats.
  - cbn. repeat split; lia.
  - cbn [submit_all].
    pose proof (send_transaction_step client_send stats transaction) as Hs.
    cbv zeta in Hs.
    destruct (send_transaction client_send stats transaction) as [signature stats1].
    cbn [fst snd] in Hs. destruct Hs as (H1 & H2 & H3 & H4 & _).
    specialize (IH stats1). cbv zeta in IH.
    destruct (submit_all client_send stats1 rest) as [signatures stats2].
    cbn [fst snd] in IH |- *. destruct IH as (I0 & I1 & I2 & I3 & I4).
    cbn [List.length filter]. rewrite I0.
    repeat split; try congruence; try lia.
    destruct (is_signature signature); cbn [List.length]; lia.
Qed.

Lemma confirm_polls_spec n : forall i poll start_time stats,
  0 <= transactions_confirmed stats < 2 ^ 1000 ->
  let r := confirm_polls n i poll start_time stats in
  (fst r = true <->
   exists j, (i <= j < i + n)%nat /\ exists now, poll j = StatusConfirmed now) /\
  transactions_confirmed (snd r)
  = transactions_confirmed stats + (if fst r then 1 else 0) /\
  transactions_sent (snd r) = transactions_sent stats /\
  transactions_failed (snd r) = transactions_failed stats /\
  (fst r = false -> snd r = stats) /\
  (fst r = true -> transactions_confirmed stats = 0 ->
   exists j now, (i <= j < i + n)%nat /\ poll j = StatusConfirmed now /\
                 (forall k now', (i <= k < j)%nat -> poll k <> StatusConfirmed now') /\
                 average_confirmation_time (snd r) = fsub now start_time).
Proof.
  induction n as [|n IH]; intros i poll start_time stats Hc.
  - cbn. repeat split; try lia; try congruence.
    intros (j & Hj & _). lia.
  - cbn [confirm_polls].
    assert (Hpow : 2 ^ 1000 < 2 ^ 1022) by (apply Z.pow_lt_mono_r; lia).
    destruct (poll i) as [| | |now] eqn:Ep.
    1-3: specialize (IH (S i) poll start_time stats Hc); cbv zeta in IH |- *;
      destruct (confirm_polls n (S i) poll start_time stats) as [ok stats'];
      cbn [fst snd] in IH |- *; destruct IH as (I1 & I2 & I3 & I4 & I5 & I6);
      repeat split; try assumption;
      [ intros Hok; apply I1 in Hok as (j & Hj & Hn); exists j; split; [lia|exact Hn]
      | intros (j & Hj & now & Hn); apply I1; exists j; split; [|eauto];
        destruct (Nat.eq_dec j i) as [->|]; [congruence|lia]
      | intros Hok H0; destruct (I6 Hok H0) as (j & now & Hj & Hp & Hfirst & Ha);
        exists j, now; repeat split; try lia; try assumption;
        intros k now' Hk; destruct (Nat.eq_dec k i) as [->|]; [congruence|];
        apply Hfirst; lia ].
    destruct (Z.ltb_spec 1 (transactions_confirmed stats + 1)) as [Hmany|Hfirst].
    + rewrite float_mul_int_returns by lia. cbn [bind].
      rewrite float_div_int_returns by lia.
      cbv zeta. cbn [fst snd transactions_confirmed transactions_sent transactions_failed].
      repeat split; try lia; try congruence.
      intros _. exists i. split; [lia|eauto].
    + cbv zeta. cbn [fst snd transactions_confirmed transactions_sent transactions_failed
                     average_confirmation_time].
      repeat split; try lia; try congruence.
      * intros _. exists i. split; [lia|eauto].
      * intros _ _. exists i, now. repeat split; try lia; try assumption.
Qed.

(** X4: with a confirmation counter in the range of a machine integer,
    [confirm_transaction] returns [True] exactly when one of its first
    [timeout] polls shows a confirmation status.  It then adds one to
    [transactions_confirmed], and for the first confirmation ever the
    average is the time that confirmation took; when it returns [False]
    the statistics are unchanged.  The other counters never change. *)
Theorem confirmation_needs_a_confirmed_poll :
  forall poll start_time stats timeout,
    0 <= transactions_confirmed stats < 2 ^ 1000 ->
    let r := confirm_transaction poll start_time stats timeout in
    (fst r = true <->
     exists j, (j < Z.to_nat timeout)%nat /\ exists now, poll j = StatusConfirmed now) /\
    transactions_confirmed (snd r)
    = transactions_confirmed stats + (if fst r then 1 else 0) /\
    transactions_sent (snd r) = transactions_sent stats /\
    transactions_failed (snd r) = transactions_failed stats /\
    (fst r = false -> snd r = stats) /\
    (fst r = true -> transactions_confirmed stats = 0 ->
     exists j now, (j < Z.to_nat timeout)%nat /\ poll j = StatusConfirmed now /\
                   (forall k now', (k < j)%nat -> poll k <> StatusConfirmed now') /\
                   average_confirmation_time (snd r) = fsub now start_time).
Proof.
  intros poll start_time stats timeout Hc. unfold confirm_transaction.
  pose proof (confirm_polls_spec (Z.to_nat timeout) 0 poll start_time stats Hc) as H.
  cbv zeta in H |- *.
  destruct (confirm_polls (Z.to_nat timeout) 0 poll start_time stats) as [ok stats'].
  cbn [fst snd] in H |- *. destruct H as (H1 & H2 & H3 & H4 & H5 & H6).
  repeat split; try assumption.
  - intros Hok. apply H1 in Hok as (j & Hj & Hn). exists j. split; [lia|exact Hn].
  - intros (j & Hj & Hn). apply H1. exists j. split; [lia|exact Hn].
  - intros Hok H0. destruct (H6 Hok H0) as (j & now & Hj & Hp & Hfirst & Ha).
    exists j, now. repeat split; try lia; try assumption.
    intros k now' Hk. apply Hfirst. lia.
Qed.

Lemma confirmation_needs_a_confirmed_poll_witness :
  fst (confirm_transaction sample_polls (literal 1700000000 0) init_stats 5) = true /\
  transactions_confirmed
    (snd (confirm_transaction sample_polls (literal 1700000000 0) init_stats 5)) = 1.
Proof.
  pose proof (confirmation_needs_a_confirmed_poll sample_polls (literal 1700000000 0)
                init_stats 5) as H.
  cbv zeta in H.
  assert (Hc : 0 <= transactions_confirmed init_stats < 2 ^ 1000).
  { change (transactions_confirmed init_stats) with 0.
    split; [lia | apply Z.pow_pos_nonneg; lia]. }
  destruct (H Hc) as (H1 & H2 & _).
  assert (Hok : fst (confirm_transaction sample_polls (literal 1700000000 0) init_stats 5)
                = true).
  { apply H1. exists 2%nat. split; [cbn; lia|]. eexists. reflexivity. }
  split; [exact Hok|]. rewrite H2, Hok. reflexivity.
Defined.

(** A poll that is never confirmed, or no poll at all, leaves the
    statistics as they were. *)
Lemma unconfirmed_signature_changes_nothing start_time stats timeout :
  confirm_transaction (fun _ => StatusPending) start_time stats timeout = (false, stats).
Proof.
  unfold confirm_transaction. generalize 0%nat.
  induction (Z.to_nat timeout) as [|n IH]; intros i; [reflexivity|]. cbn. apply IH.
Qed.

End RpcStatsFacts.

(* ================================================================== *)
(** ** The wallet manager and the two balance queries *)
(* ================================================================== *)

Module WalletFacts.

Import PyFacts QuoteFacts TransactionBuilder.

#[local] Open Scope string_scope.
#[local] Open Scope Z_scope.

(** X5: a wallet manager without a loaded wallet raises [ValueError]
    from [get_balance] and [get_address], whatever the client would
    answer.  A load that succeeds makes [get_address] return the key of
    the loaded pair and makes [get_balance] query exactly that key; a
    load that fails raises the reader's exception and leaves the
    manager as it was. *)
Theorem wallet_queries_need_a_loaded_wallet :
  forall read_keypair client self file_path,
    WalletManager.get_balance client WalletManager.init = Raise ValueError /\
    WalletManager.get_address WalletManager.init = Raise ValueError /\
    (forall loaded,
        read_keypair file_path = Ok loaded ->
        let r := WalletManager.load_keypair_from_file read_keypair self file_path in
        fst r = Ok loaded /\
        WalletManager.get_address (snd r) = Ok (pubkey loaded) /\
        WalletManager.get_balance client (snd r)
        = (balance_lamports <- client (pubkey loaded) ;;
           int_truediv balance_lamports 1000000000)) /\
    (forall e,
        read_keypair file_path = Raise e ->
        WalletManager.load_keypair_from_file read_keypair self file_path
        = (Raise e, self)).
Proof.
  intros read_keypair client self file_path.
  split; [reflexivity|]. split; [reflexivity|]. split.
  - intros loaded H. unfold WalletManager.load_keypair_from_file. rewrite H.
    cbn. repeat split.
  - intros e H. unfold WalletManager.load_keypair_from_file. rewrite H. reflexivity.
Qed.

(** X6: the two balance queries differ only in what they do with a
    failure.  For a wallet loaded with key [key], the wrapper's
    [get_balance] returns what the manager's returns, and [0.0] where
    the manager raises; the manager raises the client's own exception.
    When the client reports between 1 and [2 ^ 64 - 1] lamports, both
    return the same positive finite number: a funded account is never
    reported as empty. *)
Theorem balance_queries_agree_unless_failure :
  forall client self key,
    WalletManager.public_key self = Some key ->
    RPCClientWrapper.get_balance client key
    = match WalletManager.get_balance client self with
      | Ok balance => balance
      | Raise _ => S754_zero false
      end /\
    (forall e, client key = Raise e ->
               WalletManager.get_balance client self = Raise e /\
               RPCClientWrapper.get_balance client key = S754_zero false) /\
    (forall lamports,
        client key = Ok lamports -> 0 < lamports < 2 ^ 64 ->
        WalletManager.get_balance client self
        = Ok (RPCClientWrapper.get_balance client key) /\
        signed false (RPCClientWrapper.get_balance client key) /\
        is_finite (RPCClientWrapper.get_balance client key) = true /\
        is_zero (RPCClientWrapper.get_balance client key) = false).
Proof.
  intros client self key Hkey.
  unfold WalletManager.get_balance, RPCClientWrapper.get_balance. rewrite Hkey.
  split; [|split].
  - destruct (client key) as [lamports|e]; cbn [bind try_except]; [|reflexivity].
    destruct (int_truediv lamports 1000000000); reflexivity.
  - intros e ->. split; reflexivity.
  - intros lamports -> Hl. cbn [bind].
    assert (Hbig : 1000000000 < 2 ^ 64) by (apply Z.ltb_lt; reflexivity).
    destruct (round_ratio_positive lamports 1000000000 64
                ltac:(lia) ltac:(lia) ltac:(lia)) as (Hs & Hf & Hz).
    unfold int_truediv. cbn [Z.eqb].
    rewrite (is_finite_not_inf _ Hf). cbn [try_except].
    repeat split; assumption.
Qed.

Lemma balance_queries_agree_unless_failure_witness :
  RPCClientWrapper.get_balance (fun _ => Raise TimeoutError) "wallet"
  = match WalletManager.get_balance (fun _ => Raise TimeoutError)
            {| WalletManager.keypair := Some {| pubkey := "wallet" |};
               WalletManager.public_key := Some "wallet" |} with
    | Ok balance => balance
    | Raise _ => S754_zero false
    end.
Proof.
  apply (balance_queries_agree_unless_failure (fun _ => Raise TimeoutError)
           {| WalletManager.keypair := Some {| pubkey := "wallet" |};
              WalletManager.public_key := Some "wallet" |} "wallet").
  reflexivity.
Defined.

End WalletFacts.

(* ================================================================== *)
(** ** The exchange module: lookup and target selection *)
(* ================================================================== *)

Module RaydiumFacts.

Import Raydium.

#[local] Open Scope Z_scope.

(** X7: [get_pool_info] returns the first listed pool whose id is the
    one asked for, and [None] exactly when no listed pool has that id. *)
Theorem pool_lookup_finds_the_first_match :
  forall pools wanted,
    match get_pool_info pools wanted with
    | Some pool =>
        pool_id pool = wanted /\
        exists before after,
          pools = before ++ pool :: after /\
          Forall (fun other => pool_id other <> wanted) before
    | None => Forall (fun other => pool_id other <> wanted) pools
    end.
Proof.
  intros pools wanted. induction pools as [|pool rest IH]; cbn [get_pool_info].
  - constructor.
  - destruct (String.eqb_spec (pool_id pool) wanted) as [Heq|Hne].
    + split; [exact Heq|]. exists [], rest. split; [reflexivity | constructor].
    + destruct (get_pool_info rest wanted) as [found|].
      * destruct IH as (Hid & before & after & -> & Hall).
        split; [exact Hid|]. exists (pool :: before), after.
        split; [reflexivity | constructor; assumption].
      * constructor; assumption.
Qed.

Lemma targets_in pools min_liquidity pool :
  In pool (get_sandwich_targets pools min_liquidity) <->
  In pool pools /\
  fle min_liquidity (liquidity pool) = true /\
  flt (fmul (liquidity pool) (literal 1 1)) (volume_24h pool) = true.
Proof.
  induction pools as [|p rest IH]; cbn [get_sandwich_targets In].
  - tauto.
  - destruct (fle min_liquidity (liquidity p)
              && flt (fmul (liquidity p) (literal 1 1)) (volume_24h p)) eqn:E.
    + apply andb_prop in E as [E1 E2]. cbn [In]. rewrite IH. split.
      * intros [<-|(H1 & H2)]; [auto | tauto].
      * intros ([<-|H1] & H2); [left; reflexivity | right; tauto].
    + rewrite IH. split.
      * intros (H1 & H2); tauto.
      * intros ([<-|H1] & H2 & H3); [|tauto].
        rewrite H2, H3 in E. discriminate.
Qed.

Lemma targets_app l1 l2 min_liquidity :
  get_sandwich_targets (l1 ++ l2) min_liquidity
  = get_sandwich_targets l1 min_liquidity ++ get_sandwich_targets l2 min_liquidity.
Proof.
  induction l1 as [|p l1 IH]; [reflexivity|]. cbn [app get_sandwich_targets].
  destruct (_ && _); rewrite IH; reflexivity.
Qed.

(** X8: the targets are exactly the listed pools whose liquidity is at
    least the minimum and whose daily volume is above a tenth of their
    liquidity, in the order of the listing; a pool whose liquidity is not
    a number is never a target.  With the default minimum all three mock
    pools of the development network are targets. *)
Theorem targets_pass_both_thresholds :
  forall pools min_liquidity,
    (forall pool,
        In pool (get_sandwich_targets pools min_liquidity) <->
        In pool pools /\
        fle min_liquidity (liquidity pool) = true /\
        flt (fmul (liquidity pool) (literal 1 1)) (volume_24h pool) = true) /\
    (forall before after,
        pools = before ++ after ->
        get_sandwich_targets pools min_liquidity
        = get_sandwich_targets before min_liquidity
            ++ get_sandwich_targets after min_liquidity) /\
    (forall pool,
        In pool (get_sandwich_targets pools min_liquidity) ->
        is_nan (liquidity pool) = false) /\
    get_sandwich_targets _get_devnet_mock_pools default_min_liquidity
    = _get_devnet_mock_pools.
Proof.
  intros pools min_liquidity. split; [|split; [|split]].
  - intros pool. apply targets_in.
  - intros before after ->. apply targets_app.
  - intros pool H. apply targets_in in H as (_ & H & _).
    destruct (liquidity pool); try reflexivity.
    destruct min_liquidity; discriminate H.
  - vm_compute. reflexivity.
Qed.

End RaydiumFacts.

(* ================================================================== *)
(** ** The engine: scanning, handling, executing, reporting *)
(* ================================================================== *)

Module EngineRunFacts.

Import PyFacts Settings Raydium MempoolMonitor SandwichEngine EngineSpec EngineRunSpec.
Import EngineFacts.

#[local] Open Scope Z_scope.

(** What one evaluation that finds something returns. *)
Lemma simulated_opportunity_shape self now pool opp :
  _simulate_opportunity self now pool = Some opp ->
  pool_info opp = Some pool /\
  gas_cost opp = literal 1 3 /\
  back_run_amount opp = front_run_amount opp /\
  flt (min_profit_threshold self) (fsub (estimated_profit opp) (gas_cost opp)) = true.
Proof.
  intros H. unfold _simulate_opportunity in H.
  apply bind_Some_inv in H as (ratio & _ & H).
  apply bind_Some_inv in H as (turnover & _ & H).
  apply bind_Some_inv in H as (depth & _ & H).
  apply bind_Some_inv in H as (conf & _ & H).
  destruct (flt (min_profit_threshold self) _) eqn:Hnet; [|discriminate].
  apply bind_Some_inv in H as (seconds & _ & H).
  cbn in H. injection H as <-.
  cbn [pool_info gas_cost back_run_amount front_run_amount estimated_profit].
  repeat split. exact Hnet.
Qed.

Lemma detected_more_0 self : detected_more 0 self self.
Proof.
  unfold detected_more, with_stats. destruct self as [a b c [d e f g h]]. cbn.
  rewrite Z.add_0_r. reflexivity.
Qed.

Lemma detected_more_step n self self' :
  0 <= n ->
  detected_more n
    (with_stats self
       {| opportunities_detected := opportunities_detected (stats self) + 1;
          sandwiches_attempted := sandwiches_attempted (stats self);
          successful_sandwiches := successful_sandwiches (stats self);
          total_profit := total_profit (stats self);
          total_gas_spent := total_gas_spent (stats self) |}) self' ->
  detected_more (1 + n) self self'.
Proof.
  unfold detected_more, with_stats. intros Hn ->.
  destruct self as [a b c [d e f g h]]. cbn. rewrite <- Z.add_assoc. reflexivity.
Qed.

Lemma kept_by_scan_more self st pools pool opp :
  kept_by_scan (with_stats self st) pools opp -> kept_by_scan self (pool :: pools) opp.
Proof.
  intros (q & Hin & H). exists q. split; [right; exact Hin | exact H].
Qed.

Lemma detect_loop_counts pools : forall i clock self acc,
  let r := detect_loop pools i clock self acc in
  exists found,
    fst r = acc ++ found /\
    (List.length found <= List.length pools)%nat /\
    Forall (kept_by_scan self pools) found /\
    detected_more (Z.of_nat (List.length found)) self (snd r).
Proof.
  induction pools as [|pool rest IH]; intros i clock self acc; cbn [detect_loop].
  - exists []. cbn. rewrite app_nil_r. repeat split; [lia | constructor | apply detected_more_0].
  - assert (Hweak : forall found,
               Forall (kept_by_scan self rest) found ->
               Forall (kept_by_scan self (pool :: rest)) found).
    { intros found. apply Forall_impl. intros o (q & Hin & H).
      exists q. split; [right; exact Hin | exact H]. }
    destruct (_simulate_opportunity self (clock i) pool) as [opp|] eqn:E.
    + destruct (flt (min_profit_threshold self) (estimated_profit opp)) eqn:Ep.
      * specialize (IH (S i) clock
                       (with_stats self
                          {| opportunities_detected := opportunities_detected (stats self) + 1;
                             sandwiches_attempted := sandwiches_attempted (stats self);
                             successful_sandwiches := successful_sandwiches (stats self);
                             total_profit := total_profit (stats self);
                             total_gas_spent := total_gas_spent (stats self) |})
                       (acc ++ [opp])).
        cbv zeta in IH |- *. destruct IH as (found & Hf & Hlen & Hall & Hmore).
        exists (opp :: found). split; [|split; [|split]].
        -- rewrite Hf, <- app_assoc. reflexivity.
        -- cbn [List.length]. lia.
        -- constructor.
           ++ destruct (simulated_opportunity_shape self (clock i) pool opp E)
                as (H1 & H2 & H3 & H4).
              exists pool. repeat split; try assumption. left. reflexivity.
           ++ apply Hweak. revert Hall. apply Forall_impl. intros o Ho. exact Ho.
        -- cbn [List.length]. rewrite Nat2Z.inj_succ.
           replace (Z.succ (Z.of_nat (List.length found)))
             with (1 + Z.of_nat (List.length found)) by lia.
           apply detected_more_step; [lia | exact Hmore].
      * specialize (IH (S i) clock self acc). cbv zeta in IH |- *.
        destruct IH as (found & Hf & Hlen & Hall & Hmore).
        exists found. repeat split; auto. cbn [List.length]. lia.
    + specialize (IH (S i) clock self acc). cbv zeta in IH |- *.
      destruct IH as (found & Hf & Hlen & Hall & Hmore).
      exists found. repeat split; auto. cbn [List.length]. lia.
Qed.

(** X9: a scan evaluates the first three pools listed and nothing
    else.  It returns at most three opportunities, each on one of those
    pools, with equal front-run and back-run amounts, a gas cost of
    0.001 and an estimated profit above the threshold also after the gas
    cost; it adds the number of opportunities returned to
    [opportunities_detected] and changes nothing else of the engine. *)
Theorem scan_counts_what_it_returns :
  forall self target_pools clock,
    let r := detect_sandwich_opportunities self target_pools clock in
    (List.length (fst r) <= 3)%nat /\
    Forall (kept_by_scan self (firstn 3 target_pools)) (fst r) /\
    detected_more (Z.of_nat (List.length (fst r))) self (snd r).
Proof.
  intros self pools clock. unfold detect_sandwich_opportunities. cbv zeta.
  destruct (detect_loop_counts (firstn 3 pools) 0 clock self []) as (found & Hf & Hlen & Hall & Hm).
  cbn [app] in Hf. rewrite Hf.
  pose proof (firstn_le_length 3 pools). repeat split; try assumption. lia.
Qed.

End EngineRunFacts.

(* ================================================================== *)
(** ** The engine's handler for pending swaps *)
(* ================================================================== *)

Module HandlerFacts.

Import PyFacts Settings Raydium MempoolMonitor SandwichEngine EngineSpec EngineRunSpec.
Import QuoteFacts.

#[local] Open Scope string_scope.
#[local] Open Scope Z_scope.


Lemma Ok_pair_inv {A B : Type} (a c : A) (b d : B) :
  @Ok (A * B) (a, b) = Ok (c, d) -> a = c /\ b = d.
Proof. intros H. injection H as -> ->. split; reflexivity. Qed.

(** What an execution driven by a pending swap returns and records. *)
Lemma mempool_execution_shape settings self swap expected env res self' :
  _execute_simulated_sandwich settings self swap expected env = Ok (res, self') ->
  pool_info (opportunity res) = None /\
  success res = flt (u_success env) (literal 80 2) /\
  self' = with_stats self
            {| opportunities_detected := opportunities_detected (stats self);
               sandwiches_attempted := sandwiches_attempted (stats self) + 1;
               successful_sandwiches :=
                 successful_sandwiches (stats self) + (if success res then 1 else 0);
               total_profit :=
                 if success res then fadd (total_profit (stats self)) (actual_profit res)
                 else total_profit (stats self);
               total_gas_spent := fadd (total_gas_spent (stats self)) (literal 1 3) |} /\
  (success res = true ->
   front_run_signature res <> None /\ back_run_signature res <> None /\
   error_message res = None) /\
  (success res = false ->
   front_run_signature res = None /\ back_run_signature res = None /\
   error_message res <> None /\ actual_profit res = SFopp (literal 1 3)).
Proof.
  unfold _execute_simulated_sandwich. intros H.
  apply bind_Ok_inv in H as (fs & _ & H).
  apply bind_Ok_inv in H as (bs & _ & H).
  destruct (flt (u_success env) (literal 80 2)) eqn:Es;
    apply Ok_pair_inv in H as [<- <-]; cbn [pool_info opportunity success front_run_signature
      back_run_signature error_message actual_profit];
    (split; [reflexivity|]); (split; [reflexivity|]); split;
    try (rewrite Z.add_0_r; reflexivity); try reflexivity;
    (split; intros Hs; try discriminate Hs; repeat split; try reflexivity;
     intros Hn; discriminate Hn).
Qed.

(** X10: a result made from a pending swap carries no pool, so printing
    it raises [AttributeError] at its first line, on success and on
    failure alike.  The handler catches that: what it returns is the
    engine with the detection counted and, when the swap passes the
    profitability test and the two signature stamps can be formed, the
    statistics of the execution. *)
Theorem mempool_result_cannot_be_printed :
  forall settings self pending_swap env,
    let counted :=
      with_stats self
        {| opportunities_detected := opportunities_detected (stats self) + 1;
           sandwiches_attempted := sandwiches_attempted (stats self);
           successful_sandwiches := successful_sandwiches (stats self);
           total_profit := total_profit (stats self);
           total_gas_spent := total_gas_spent (stats self) |} in
    let expected_profit :=
      fmul (fmul (amount_in pending_swap) (estimated_price_impact pending_swap))
           (literal 5 1) in
    (forall engine expected res self',
        _execute_simulated_sandwich settings engine pending_swap expected env
        = Ok (res, self') ->
        _print_sandwich_result res = Raise AttributeError) /\
    _handle_real_opportunity settings self pending_swap env
    = if flt (literal 1 4) (fsub expected_profit (literal 1 3)) then
        match _execute_simulated_sandwich settings counted pending_swap expected_profit env with
        | Ok (_, self') => self'
        | Raise _ => counted
        end
      else counted.
Proof.
  intros settings self swap env counted expected. split.
  - intros engine ex res self' H.
    apply mempool_execution_shape in H as (Hp & _).
    unfold _print_sandwich_result. rewrite Hp. reflexivity.
  - unfold _handle_real_opportunity. fold counted. fold expected.
    destruct (flt (literal 1 4) (fsub expected (literal 1 3))); [|reflexivity].
    destruct (_execute_simulated_sandwich settings counted swap expected env)
      as [[res self']|e] eqn:E; [|reflexivity].
    destruct (_print_sandwich_result res); reflexivity.
Qed.

Lemma handler_step settings self swap env :
  let self' := _handle_real_opportunity settings self swap env in
  opportunities_detected (stats self') = opportunities_detected (stats self) + 1 /\
  (sandwiches_attempted (stats self') = sandwiches_attempted (stats self) /\
   successful_sandwiches (stats self') = successful_sandwiches (stats self) /\
   total_profit (stats self') = total_profit (stats self) /\
   total_gas_spent (stats self') = total_gas_spent (stats self)
   \/
   sandwiches_attempted (stats self') = sandwiches_attempted (stats self) + 1 /\
   (successful_sandwiches (stats self') = successful_sandwiches (stats self) \/
    successful_sandwiches (stats self') = successful_sandwiches (stats self) + 1) /\
   total_gas_spent (stats self') = fadd (total_gas_spent (stats self)) (literal 1 3) /\
   flt (literal 1 4)
       (fsub (fmul (fmul (amount_in swap) (estimated_price_impact swap)) (literal 5 1))
             (literal 1 3)) = true) /\
  min_profit_threshold self' = min_profit_threshold self /\
  max_slippage self' = max_slippage self /\
  max_position_size self' = max_position_size self.
Proof.
  cbv zeta. unfold _handle_real_opportunity.
  destruct (flt (literal 1 4) _) eqn:Ep.
  2:{ cbn [stats with_stats opportunities_detected sandwiches_attempted
           successful_sandwiches total_profit total_gas_spent min_profit_threshold
           max_slippage max_position_size].
      repeat split; try reflexivity. left. repeat split. }
  destruct (_execute_simulated_sandwich settings _ swap _ env) as [[res self']|e] eqn:E.
  2:{ cbn [stats with_stats opportunities_detected sandwiches_attempted
           successful_sandwiches total_profit total_gas_spent min_profit_threshold
           max_slippage max_position_size].
      repeat split; try reflexivity. left. repeat split. }
  apply mempool_execution_shape in E as (_ & _ & -> & _).
  assert (Hsame : forall s : SandwichEngine, try_except (_ <- _print_sandwich_result res ;; Ok s) (fun _ => s) = s).
  { intros s. destruct (_print_sandwich_result res); reflexivity. }
  rewrite Hsame.
  cbn [stats with_stats opportunities_detected sandwiches_attempted
       successful_sandwiches total_profit total_gas_spent min_profit_threshold
       max_slippage max_position_size].
  repeat split; try reflexivity.
  right. repeat split; try reflexivity.
  destruct (success res); [right | left]; lia.
Qed.

Lemma handle_all_counts :
  forall settings swaps self,
    let self' := handle_all settings self swaps in
    opportunities_detected (stats self')
    = opportunities_detected (stats self) + Z.of_nat (List.length swaps) /\
    0 <= successful_sandwiches (stats self') - successful_sandwiches (stats self)
      <= sandwiches_attempted (stats self') - sandwiches_attempted (stats self) /\
    sandwiches_attempted (stats self') - sandwiches_attempted (stats self)
      <= Z.of_nat (List.length swaps) /\
    (Forall (fun swap_env =>
               flt (literal 1 4)
                   (fsub (fmul (fmul (amount_in (fst swap_env))
                                     (estimated_price_impact (fst swap_env)))
                               (literal 5 1))
                         (literal 1 3)) = false) swaps ->
     sandwiches_attempted (stats self') = sandwiches_attempted (stats self)) /\
    min_profit_threshold self' = min_profit_threshold self /\
    max_position_size self' = max_position_size self.
Proof.
  intros settings swaps. induction swaps as [|[swap env] rest IH]; intros self.
  - cbn [handle_all List.length]. change (Z.of_nat 0) with 0. repeat split; lia.
  - cbn [handle_all List.length]. cbv zeta in IH |- *.
    specialize (IH (_handle_real_opportunity settings self swap env)).
    destruct IH as (I1 & I2 & I3 & I4 & I5 & I6).
    pose proof (handler_step settings self swap env) as Hs. cbv zeta in Hs.
    destruct Hs as (S1 & S2 & S3 & _ & S5).
    rewrite Nat2Z.inj_succ.
    split; [lia|].
    split; [destruct S2 as [(A & B & _)|(A & [B|B] & _)]; lia|].
    split; [destruct S2 as [(A & B & _)|(A & [B|B] & _)]; lia|].
    split; [|split; congruence].
    intros Hall. inversion Hall as [|? ? Hnot Hrest]; subst. cbn [fst] in Hnot.
    rewrite (I4 Hrest).
    destruct S2 as [(A & _)|(_ & _ & _ & Hyes)]; [exact A | congruence].
Qed.

(** X11: every pending swap handed to the handler is counted once as a
    detected opportunity; it leads to at most one attempt, made only when
    half the swap's amount times its price impact exceeds the gas cost by
    more than 0.0001, then adds 0.001 to the gas spent and at most one
    success.  Over any run of swaps the detected counter grows by their
    number, the attempted counter by at most that, and no more successes
    than attempts are added.  No exception leaves the handler. *)
Theorem handler_counts_every_swap :
  forall settings swaps self,
    let self' := handle_all settings self swaps in
    opportunities_detected (stats self')
    = opportunities_detected (stats self) + Z.of_nat (List.length swaps) /\
    0 <= successful_sandwiches (stats self') - successful_sandwiches (stats self)
      <= sandwiches_attempted (stats self') - sandwiches_attempted (stats self) /\
    sandwiches_attempted (stats self') - sandwiches_attempted (stats self)
      <= Z.of_nat (List.length swaps) /\
    (Forall (fun swap_env =>
               flt (literal 1 4)
                   (fsub (fmul (fmul (amount_in (fst swap_env))
                                     (estimated_price_impact (fst swap_env)))
                               (literal 5 1))
                         (literal 1 3)) = false) swaps ->
     sandwiches_attempted (stats self') = sandwiches_attempted (stats self)) /\
    min_profit_threshold self' = min_profit_threshold self /\
    max_position_size self' = max_position_size self.
Proof. intros settings swaps self. apply handle_all_counts. Qed.


End HandlerFacts.

(* ================================================================== *)
(** ** The monitoring loop *)
(* ================================================================== *)

Module LoopFacts.

Import PyFacts Settings Raydium MempoolMonitor SandwichEngine EngineSpec EngineRunSpec.
Import EngineRunFacts HandlerFacts.

#[local] Open Scope Z_scope.

Lemma max_by_profit_spec rest : forall best,
  let r := max_by_profit best rest in
  In r (best :: rest) /\
  (forall o, In o (best :: rest) -> flt (estimated_profit r) (estimated_profit o) = false) /\
  (r = best \/ flt (estimated_profit best) (estimated_profit r) = true).
Proof.
  induction rest as [|c rest IH]; intros best; cbv zeta.
  - cbn [max_by_profit]. split; [left; reflexivity|]. split; [|left; reflexivity].
    intros o [<-|[]]. apply flt_irrefl.
  - cbn [max_by_profit].
    destruct (flt (estimated_profit best) (estimated_profit c)) eqn:Ebc.
    + destruct (IH c) as (Hin & Hmax & Hrel).
      set (r := max_by_profit c rest) in *.
      assert (Hbr : flt (estimated_profit best) (estimated_profit r) = true).
      { destruct Hrel as [->|Hcr]; [exact Ebc | eapply flt_trans; eassumption]. }
      split; [right; exact Hin|]. split; [|right; exact Hbr].
      intros o [<-|Ho]; [|apply Hmax, Ho].
      destruct (flt (estimated_profit r) (estimated_profit best)) eqn:E; [|reflexivity].
      pose proof (flt_trans _ _ _ Hbr E) as Hbb. rewrite flt_irrefl in Hbb. discriminate.
    + destruct (IH best) as (Hin & Hmax & Hrel).
      set (r := max_by_profit best rest) in *.
      split; [destruct Hin as [Hin|Hin]; [left; exact Hin | right; right; exact Hin]|].
      split; [|exact Hrel].
      intros o [<-|[<-|Ho]].
      * apply Hmax. left. reflexivity.
      * destruct (flt (estimated_profit r) (estimated_profit c)) eqn:E; [|reflexivity].
        destruct Hrel as [Hr|Hr].
        -- rewrite Hr in E. congruence.
        -- pose proof (flt_trans _ _ _ Hr E). congruence.
      * apply Hmax. right. exact Ho.
Qed.

Lemma execute_step settings self opp env :
  let r := execute_sandwich settings self opp env in
  (pool_info opp <> None -> exists res, fst r = Ok res /\ opportunity res = opp) /\
  opportunities_detected (stats (snd r)) = opportunities_detected (stats self) /\
  min_profit_threshold (snd r) = min_profit_threshold self /\
  max_slippage (snd r) = max_slippage self /\
  max_position_size (snd r) = max_position_size self /\
  (snd r = self \/
   DRY_RUN settings = true /\
   sandwiches_attempted (stats (snd r)) = sandwiches_attempted (stats self) + 1 /\
   (successful_sandwiches (stats (snd r)) = successful_sandwiches (stats self) \/
    successful_sandwiches (stats (snd r)) = successful_sandwiches (stats self) + 1)) /\
  (DRY_RUN settings = false -> snd r = self).
Proof.
  cbv zeta. unfold execute_sandwich.
  destruct (if DEBUG_MODE settings
            then match pool_info opp with
                 | Some _ => Ok tt
                 | None => Raise AttributeError
                 end
            else Ok tt) as [[]|e] eqn:Edebug.
  - destruct (DRY_RUN settings).
    + unfold _simulate_sandwich_execution.
      destruct (flt (literal 1 1) (u_success env));
        cbn [fst snd opportunity stats with_stats opportunities_detected
             sandwiches_attempted successful_sandwiches min_profit_threshold
             max_slippage max_position_size];
        (split; [intros _; eexists; split; reflexivity|]);
        repeat split; try discriminate; auto.
    + cbn [_execute_real_sandwich fst snd opportunity].
      split; [intros _; eexists; split; reflexivity|].
      repeat split; auto.
  - cbn [fst snd]. split.
    + intros Hpool. destruct (DEBUG_MODE settings); [|discriminate Edebug].
      destruct (pool_info opp); [discriminate Edebug | contradiction].
    + repeat split; auto.
Qed.

Lemma detected_more_stats n self self' :
  detected_more n self self' ->
  opportunities_detected (stats self') = opportunities_detected (stats self) + n /\
  sandwiches_attempted (stats self') = sandwiches_attempted (stats self) /\
  successful_sandwiches (stats self') = successful_sandwiches (stats self) /\
  total_profit (stats self') = total_profit (stats self) /\
  total_gas_spent (stats self') = total_gas_spent (stats self) /\
  min_profit_threshold self' = min_profit_threshold self /\
  max_slippage self' = max_slippage self /\
  max_position_size self' = max_position_size self.
Proof. intros ->. repeat split. Qed.

Lemma monitoring_cycle_spec settings self c :
  let scan := detect_sandwich_opportunities self (listed_targets c) (pool_clock c) in
  match fst scan with
  | [] => monitoring_cycle settings self c = snd scan
  | first :: rest =>
      exists best,
        In best (fst scan) /\
        (forall o, In o (fst scan) ->
                   flt (estimated_profit best) (estimated_profit o) = false) /\
        monitoring_cycle settings self c
        = snd (execute_sandwich settings (snd scan) best (exec_env c)) /\
        exists res,
          fst (execute_sandwich settings (snd scan) best (exec_env c)) = Ok res /\
          _print_sandwich_result res = Ok tt
  end.
Proof.
  cbv zeta. unfold monitoring_cycle.
  pose proof (detect_loop_counts (firstn 3 (listed_targets c)) 0 (pool_clock c) self [])
    as (found & Hf & _ & Hall & _).
  unfold detect_sandwich_opportunities in *.
  destruct (detect_loop (firstn 3 (listed_targets c)) 0 (pool_clock c) self [])
    as [opps scanned].
  cbn [fst snd app] in Hf |- *. subst opps.
  destruct found as [|first rest]; [reflexivity|].
  destruct (max_by_profit_spec rest first) as (Hin & Hmax & _).
  set (best := max_by_profit first rest) in *.
  exists best. split; [exact Hin|]. split; [exact Hmax|].
  rewrite Forall_forall in Hall. destruct (Hall best Hin) as (pool & _ & Hpool & _).
  pose proof (execute_step settings scanned best (exec_env c)) as (Hopp & _).
  destruct Hopp as (res & Hres & Hopp); [rewrite Hpool; discriminate|].
  destruct (execute_sandwich settings scanned best (exec_env c)) as [returned self2].
  cbn [fst snd] in Hres |- *. subst returned.
  assert (Hprint : _print_sandwich_result res = Ok tt).
  { unfold _print_sandwich_result. rewrite Hopp, Hpool. reflexivity. }
  cbn [bind]. rewrite Hprint. split; [reflexivity|].
  exists res. split; [reflexivity | exact Hprint].
Qed.

(** X13: one turn of the monitoring loop executes at most one
    sandwich.  When the scan returns nothing the turn ends with the
    engine as the scan left it; otherwise the opportunity executed is one
    of those returned, none of the others has a strictly greater
    estimated profit, the execution returns a result and printing that
    result raises nothing. *)
Theorem turn_executes_the_best_opportunity :
  forall settings self c,
    let scan := detect_sandwich_opportunities self (listed_targets c) (pool_clock c) in
    match fst scan with
    | [] => monitoring_cycle settings self c = snd scan
    | first :: rest =>
        exists best,
          In best (fst scan) /\
          (forall o, In o (fst scan) ->
                     flt (estimated_profit best) (estimated_profit o) = false) /\
          monitoring_cycle settings self c
          = snd (execute_sandwich settings (snd scan) best (exec_env c)) /\
          exists res,
            fst (execute_sandwich settings (snd scan) best (exec_env c)) = Ok res /\
            _print_sandwich_result res = Ok tt
    end.
Proof. intros settings self c. apply monitoring_cycle_spec. Qed.

Lemma monitoring_cycle_step settings self c :
  let self' := monitoring_cycle settings self c in
  0 <= opportunities_detected (stats self') - opportunities_detected (stats self) <= 3 /\
  min_profit_threshold self' = min_profit_threshold self /\
  max_slippage self' = max_slippage self /\
  max_position_size self' = max_position_size self /\
  (sandwiches_attempted (stats self') = sandwiches_attempted (stats self) /\
   successful_sandwiches (stats self') = successful_sandwiches (stats self) /\
   total_profit (stats self') = total_profit (stats self) /\
   total_gas_spent (stats self') = total_gas_spent (stats self)
   \/
   DRY_RUN settings = true /\
   sandwiches_attempted (stats self') = sandwiches_attempted (stats self) + 1 /\
   (successful_sandwiches (stats self') = successful_sandwiches (stats self) \/
    successful_sandwiches (stats self') = successful_sandwiches (stats self) + 1)).
Proof.
  cbv zeta. pose proof (monitoring_cycle_spec settings self c) as H. cbv zeta in H.
  pose proof (detect_loop_counts (firstn 3 (listed_targets c)) 0 (pool_clock c) self [])
    as (found & Hf & Hlen & _ & Hmore).
  unfold detect_sandwich_opportunities in *.
  destruct (detect_loop (firstn 3 (listed_targets c)) 0 (pool_clock c) self [])
    as [opps scanned].
  cbn [fst snd app] in *. subst opps.
  apply detected_more_stats in Hmore as (D1 & D2 & D3 & D4 & D5 & D6 & D7 & D8).
  pose proof (firstn_le_length 3 (listed_targets c)) as H3.
  destruct found as [|first rest].
  - rewrite H. cbn [List.length] in D1. repeat split; try lia; try assumption.
    left. repeat split; assumption.
  - destruct H as (best & _ & _ & -> & _).
    pose proof (execute_step settings scanned best (exec_env c)) as (_ & E1 & E2 & E3 & E4 & E5 & E6).
    rewrite E1, E2, E3, E4, D1.
    repeat split; try lia; try assumption.
    destruct E5 as [Esame|(Edry & A & B)].
    + left. rewrite Esame. repeat split; assumption.
    + right. split; [exact Edry|]. split; [lia|].
      destruct B as [B|B]; [left | right]; lia.
Qed.

Lemma monitoring_loop_counts :
  forall settings end_time cycles self,
    let self' := monitoring_loop settings end_time cycles self in
    0 <= successful_sandwiches (stats self') - successful_sandwiches (stats self)
      <= sandwiches_attempted (stats self') - sandwiches_attempted (stats self) /\
    sandwiches_attempted (stats self') - sandwiches_attempted (stats self)
      <= Z.of_nat (List.length cycles) /\
    0 <= opportunities_detected (stats self') - opportunities_detected (stats self)
      <= 3 * Z.of_nat (List.length cycles) /\
    min_profit_threshold self' = min_profit_threshold self /\
    max_position_size self' = max_position_size self /\
    (DRY_RUN settings = false ->
     sandwiches_attempted (stats self') = sandwiches_attempted (stats self) /\
     successful_sandwiches (stats self') = successful_sandwiches (stats self) /\
     total_profit (stats self') = total_profit (stats self) /\
     total_gas_spent (stats self') = total_gas_spent (stats self)).
Proof.
  intros settings end_time cycles. induction cycles as [|c rest IH]; intros self; cbv zeta.
  - cbn [monitoring_loop List.length]. change (Z.of_nat 0) with 0.
    repeat split; try lia.
  - cbn [monitoring_loop List.length]. rewrite Nat2Z.inj_succ.
    destruct (flt (loop_clock c) end_time); [|repeat split; lia].
    pose proof (monitoring_cycle_step settings self c) as Hs. cbv zeta in Hs.
    destruct Hs as (S1 & S2 & S3 & S4 & S5).
    destruct (interrupted c).
    + rewrite S2, S4. repeat split; try lia.
      * destruct S5 as [(A & B & _)|(Hd & _)]; [exact A | congruence].
      * destruct S5 as [(A & B & _)|(Hd & _)]; [exact B | congruence].
      * destruct S5 as [(A & B & C & _)|(Hd & _)]; [exact C | congruence].
      * destruct S5 as [(A & B & C & D)|(Hd & _)]; [exact D | congruence].
    + specialize (IH (monitoring_cycle settings self c)). cbv zeta in IH.
      destruct IH as (I1 & I2 & I3 & I4 & I5 & I6).
      rewrite I4, I5, S2, S4. repeat split; try lia.
      * destruct (I6 H) as (J1 & _). rewrite J1.
        destruct S5 as [(A & B & _)|(Hd & _)]; [exact A | congruence].
      * destruct (I6 H) as (_ & J2 & _). rewrite J2.
        destruct S5 as [(A & B & _)|(Hd & _)]; [exact B | congruence].
      * destruct (I6 H) as (_ & _ & J3 & _). rewrite J3.
        destruct S5 as [(A & B & C & _)|(Hd & _)]; [exact C | congruence].
      * destruct (I6 H) as (_ & _ & _ & J4). rewrite J4.
        destruct S5 as [(A & B & C & D)|(Hd & _)]; [exact D | congruence].
Qed.

(** X14: over any turns the monitoring loop attempts at most one
    sandwich per turn and detects at most three opportunities per turn,
    adding no more successes than attempts; thresholds and position
    size stay as they were.  With [DRY_RUN] off it attempts nothing at
    all: attempted and successful counters, total profit and gas spent
    end as they started, however many opportunities were detected. *)
Theorem loop_attempts_at_most_once_per_turn :
  forall settings end_time cycles self,
    let self' := monitoring_loop settings end_time cycles self in
    0 <= successful_sandwiches (stats self') - successful_sandwiches (stats self)
      <= sandwiches_attempted (stats self') - sandwiches_attempted (stats self) /\
    sandwiches_attempted (stats self') - sandwiches_attempted (stats self)
      <= Z.of_nat (List.length cycles) /\
    0 <= opportunities_detected (stats self') - opportunities_detected (stats self)
      <= 3 * Z.of_nat (List.length cycles) /\
    min_profit_threshold self' = min_profit_threshold self /\
    max_position_size self' = max_position_size self /\
    (DRY_RUN settings = false ->
     sandwiches_attempted (stats self') = sandwiches_attempted (stats self) /\
     successful_sandwiches (stats self') = successful_sandwiches (stats self) /\
     total_profit (stats self') = total_profit (stats self) /\
     total_gas_spent (stats self') = total_gas_spent (stats self)).
Proof. intros settings end_time cycles self. apply monitoring_loop_counts. Qed.

End LoopFacts.

(* ================================================================== *)
(** ** Sessions: the counters and the final report *)
(* ================================================================== *)

Module SessionFacts.

Import PyFacts Settings Raydium MempoolMonitor SandwichEngine EngineSpec EngineRunSpec.
Import EngineRunFacts HandlerFacts LoopFacts.

#[local] Open Scope Z_scope.

(** X15: an engine that records no more successes than attempts keeps
    doing so through every execution of [execute_sandwich], every call of
    the handler for pending swaps, every scan and every run of the
    monitoring loop, in dry-run and in real mode.  The path that sends a
    bracket to the ledger does not keep it: a confirmed bracket adds a
    success without an attempt, so from equal counters it records more
    successes than attempts. *)
Theorem successes_never_exceed_attempts :
  forall settings self,
    sound_counts (stats self) ->
    (forall opportunity env,
        sound_counts (stats (snd (execute_sandwich settings self opportunity env)))) /\
    (forall swaps, sound_counts (stats (handle_all settings self swaps))) /\
    (forall target_pools clock,
        sound_counts (stats (snd (detect_sandwich_opportunities self target_pools clock)))) /\
    (forall end_time cycles,
        sound_counts (stats (monitoring_loop settings end_time cycles self))) /\
    (forall rpc,
        truthy (front_sent rpc) = true -> front_confirmed rpc = true ->
        truthy (back_sent rpc) = true -> back_confirmed rpc = true ->
        successful_sandwiches (stats self) = sandwiches_attempted (stats self) ->
        ~ sound_counts (stats (_execute_real_sandwich_attack self rpc))).
Proof.
  intros settings self Hs. unfold sound_counts in *.
  split; [|split; [|split; [|split]]].
  - intros opp env.
    pose proof (execute_step settings self opp env) as (_ & _ & _ & _ & _ & Hstep & _).
    destruct Hstep as [->|(_ & A & [B|B])]; [exact Hs | lia | lia].
  - intros swaps. pose proof (handle_all_counts settings swaps self) as H. cbv zeta in H. lia.
  - intros pools clock.
    pose proof (detect_loop_counts (firstn 3 pools) 0 clock self []) as (found & _ & _ & _ & Hm).
    apply detected_more_stats in Hm as (_ & A & B & _).
    unfold detect_sandwich_opportunities. lia.
  - intros end_time cycles.
    pose proof (monitoring_loop_counts settings end_time cycles self) as H. cbv zeta in H. lia.
  - intros rpc H1 H2 H3 H4 Heq. unfold _execute_real_sandwich_attack.
    rewrite H1, H2, H3, H4.
    cbn [negb stats with_stats successful_sandwiches sandwiches_attempted]. lia.
Qed.

Lemma successes_never_exceed_attempts_witness :
  sound_counts (stats (handle_all defaults (init defaults) [(sample_swap, sample_env)])).
Proof.
  assert (H0 : sound_counts (stats (init defaults))).
  { unfold sound_counts. cbn [init stats successful_sandwiches sandwiches_attempted]. lia. }
  exact (proj1 (proj2 (successes_never_exceed_attempts defaults (init defaults) H0))
           [(sample_swap, sample_env)]).
Defined.

(** X16: with [DRY_RUN] off, a run of the monitoring loop on a fresh
    engine ends with nothing attempted, whatever the pools and however
    long it runs: the report it prints carries no success rate, a net
    profit of zero and the verdict of a session that is not profitable. *)
Theorem real_mode_session_reports_nothing :
  forall settings now duration_seconds cycles,
    DRY_RUN settings = false ->
    Z.abs duration_seconds < 2 ^ 1022 ->
    let r := run_monitoring_loop settings (init settings) now duration_seconds cycles in
    fst r = Ok {| success_rate := None;
                  net_profit := S754_zero false;
                  profitable := false |} /\
    sandwiches_attempted (stats (snd r)) = 0 /\
    successful_sandwiches (stats (snd r)) = 0.
Proof.
  intros settings now d cycles Hreal Hd. cbv zeta. unfold run_monitoring_loop.
  destruct (float_of_int_bounded d 1022 Hd ltac:(lia)) as (fd & -> & _).
  cbn [bind fst snd].
  pose proof (monitoring_loop_counts settings (fadd now fd) cycles (init settings)) as H.
  cbv zeta in H. destruct H as (_ & _ & _ & _ & _ & H).
  destruct (H Hreal) as (A & B & C & D).
  cbn [init stats sandwiches_attempted successful_sandwiches total_profit total_gas_spent]
    in A, B, C, D.
  split; [|split; assumption].
  unfold print_final_stats. rewrite A, C, D. reflexivity.
Qed.

Lemma real_mode_session_reports_nothing_witness :
  let r := run_monitoring_loop real_roomy_settings (init real_roomy_settings)
             (literal 1700000000 0) 60 [sample_cycle; sample_cycle] in
  fst r = Ok {| success_rate := None; net_profit := S754_zero false; profitable := false |} /\
  sandwiches_attempted (stats (snd r)) = 0 /\
  successful_sandwiches (stats (snd r)) = 0 /\
  opportunities_detected (stats (snd r)) = 2.
Proof.
  assert (Hd : Z.abs 60 < 2 ^ 1022).
  { change (Z.abs 60) with 60. apply Z.lt_trans with (2 ^ 6); [reflexivity|].
    apply Z.pow_lt_mono_r; lia. }
  pose proof (real_mode_session_reports_nothing real_roomy_settings (literal 1700000000 0) 60
                [sample_cycle; sample_cycle] eq_refl Hd) as (Hreport & Hattempted & Hsuccess).
  cbv zeta. split; [exact Hreport|]. split; [exact Hattempted|]. split; [exact Hsuccess|].
  vm_compute. reflexivity.
Defined.

End SessionFacts.

(* ================================================================== *)
(** ** Scanning the targets of the exchange module *)
(* ================================================================== *)

Module ScanTargetFacts.

Import PyFacts Settings Raydium SandwichEngine EngineSpec EngineRunSpec.
Import EngineRunFacts RaydiumFacts.

#[local] Open Scope Z_scope.

(** X17: a scan over the targets of the exchange module only reports
    pools that the module listed and that pass its two thresholds: every
    opportunity returned carries a pool of the listing whose liquidity is
    at least the minimum and whose daily volume is above a tenth of its
    liquidity, taken among the first three targets. *)
Theorem scanned_pools_are_listed_targets :
  forall self pools min_liquidity clock opp,
    In opp (fst (detect_sandwich_opportunities
                   self (get_sandwich_targets pools min_liquidity) clock)) ->
    exists pool,
      pool_info opp = Some pool /\
      In pool (firstn 3 (get_sandwich_targets pools min_liquidity)) /\
      In pool pools /\
      fle min_liquidity (liquidity pool) = true /\
      flt (fmul (liquidity pool) (literal 1 1)) (volume_24h pool) = true.
Proof.
  intros self pools min_liquidity clock opp Hin.
  unfold detect_sandwich_opportunities in Hin.
  destruct (detect_loop_counts (firstn 3 (get_sandwich_targets pools min_liquidity))
              0 clock self []) as (found & Hf & _ & Hall & _).
  rewrite Hf in Hin. cbn [app] in Hin.
  rewrite Forall_forall in Hall. destruct (Hall opp Hin) as (pool & Hp & Hinfo & _).
  exists pool. split; [exact Hinfo|]. split; [exact Hp|].
  apply targets_in.
  rewrite <- (firstn_skipn 3 (get_sandwich_targets pools min_liquidity)).
  apply in_or_app. left. exact Hp.
Qed.

Lemma scanned_pools_are_listed_targets_witness :
  exists pool,
    pool_info
      (hd sample_opportunity
          (fst (detect_sandwich_opportunities
                  (init roomy_settings)
                  (get_sandwich_targets [sample_pool] default_min_liquidity)
                  (fun _ => literal 1700000000 0)))) = Some pool /\
    In pool (firstn 3 (get_sandwich_targets [sample_pool] default_min_liquidity)) /\
    In pool [sample_pool] /\
    fle default_min_liquidity (liquidity pool) = true /\
    flt (fmul (liquidity pool) (literal 1 1)) (volume_24h pool) = true.
Proof.
  refine (scanned_pools_are_listed_targets (init roomy_settings) [sample_pool]
            default_min_liquidity (fun _ => literal 1700000000 0) _ _).
  vm_compute. left. reflexivity.
Defined.

End ScanTargetFacts.

(* ================================================================== *)
(** ** Quotes, slippage and the two legs *)
(* ================================================================== *)

Module LegFacts.

Import PyFacts QuoteFacts BuilderFacts TransactionBuilder BracketSpec.
Import WireFacts.

#[local] Open Scope string_scope.
#[local] Open Scope Z_scope.

Lemma with_slippage_bounds n :
  0 <= n < 2 ^ 1022 -> exists m, with_slippage n = Ok m /\ 0 <= m <= n.
Proof.
  intros Hn. unfold with_slippage. rewrite literal_98.
  destruct (int_scaled_below n 8827055269646172 Hn) as (x & k & Hx & Hk & Hb).
  { split; apply Z.leb_le; vm_compute; reflexivity. }
  rewrite Hx. cbn [bind]. exists k. split; assumption.
Qed.

Lemma effective_in_default_bounds amt :
  0 <= amt < 2 ^ 1022 ->
  exists eff, effective_in amt default_fee_rate = Ok eff /\ 0 <= eff <= amt.
Proof.
  intros Hn. unfold effective_in, default_fee_rate. rewrite one_minus_default_fee.
  cbn [bind].
  destruct (int_scaled_below amt 8984681256604140 Hn) as (x & k & Hx & Hk & Hb).
  { split; apply Z.leb_le; vm_compute; reflexivity. }
  rewrite Hx. cbn [bind]. exists k. split; assumption.
Qed.

(** What a quote at the default fee that returns has computed. *)
Lemma default_quote_returned Lin Lout amt out impact :
  0 <= Lin -> 0 <= Lout -> 0 <= amt < 2 ^ 1022 ->
  calculate_swap_amounts Lin Lout amt default_fee_rate = Ok (out, impact) ->
  0 < Lin /\ 0 < Lout /\ 0 <= out < Lout /\
  exists eff, 0 <= eff <= amt /\ out = Lout * eff / (Lin + eff).
Proof.
  intros HLin HLout Hamt H. rewrite calculate_swap_amounts_split in H.
  destruct (effective_in_default_bounds amt Hamt) as (eff & He & Hb).
  rewrite He in H. cbn [bind] in H.
  assert (Hpos : 0 < Lin /\ 0 < Lout).
  { destruct (Z.eq_dec Lin 0) as [H0|H0];
      [rewrite quote_from_empty in H by lia; discriminate|].
    destruct (Z.eq_dec Lout 0) as [H1|H1];
      [rewrite quote_from_empty in H by lia; discriminate|]. lia. }
  destruct Hpos as [HLin' HLout'].
  destruct (quote_from_Ok Lin Lout amt eff out impact HLin' HLout') as (Ho & Hr & _);
    try lia; try assumption.
  repeat split; try lia. exists eff. split; [lia | exact Ho].
Qed.

Lemma product_kept Lin Lout amt eff :
  0 < Lin -> 0 < Lout -> 0 <= eff <= amt ->
  Lin * Lout <= (Lin + amt) * (Lout - Lout * eff / (Lin + eff)).
Proof.
  intros HLin HLout He.
  set (out := Lout * eff / (Lin + eff)).
  assert (Hd : (Lin + eff) * out <= Lout * eff) by (apply Z.mul_div_le; lia).
  assert (Hout : 0 <= out < Lout).
  { split; [apply Z.div_pos; nia|]. apply Z.div_lt_upper_bound; nia. }
  nia.
Qed.

(** X18: the amount left after the default fee of 0.25% is never more
    than the amount and never negative, for every amount from 0 up to
    [2 ^ 1022]; so is the minimum output asked of a leg, 2% below the
    quoted output: [int(n * 0.98)] lies between 0 and [n].  Rounding to
    a double and back never adds to an amount here. *)
Theorem fee_and_slippage_never_add :
  forall n,
    0 <= n < 2 ^ 1022 ->
    (exists eff, effective_in n default_fee_rate = Ok eff /\ 0 <= eff <= n) /\
    (exists m, with_slippage n = Ok m /\ 0 <= m <= n).
Proof.
  intros n Hn. split; [apply effective_in_default_bounds | apply with_slippage_bounds];
    exact Hn.
Qed.

Lemma fee_and_slippage_never_add_witness :
  (exists eff, effective_in 18446744073709551615 default_fee_rate = Ok eff /\
               0 <= eff <= 18446744073709551615) /\
  (exists m, with_slippage 18446744073709551615 = Ok m /\ 0 <= m <= 18446744073709551615).
Proof.
  apply (fee_and_slippage_never_add 18446744073709551615).
  split; [lia|]. apply Z.lt_trans with (2 ^ 64); [reflexivity|].
  apply Z.pow_lt_mono_r; lia.
Defined.

(** The same step with a fee rate of zero can add to the amount: the
    integer is rounded to a double on the way. *)
Lemma zero_fee_can_add :
  effective_in (2 ^ 53 + 3) (S754_zero false) = Ok (2 ^ 53 + 4).
Proof. vm_compute. reflexivity. Qed.

(** X19: a quote at the default fee never lowers the product of the
    reserves.  On non-negative reserves and a non-negative amount,
    whenever [calculate_swap_amounts] returns, both reserves were
    positive, the output is between 0 and the output reserve, and the
    reserves after the trade, input plus the full amount and output
    minus what was bought, have a product at least that of the reserves
    before. *)
Theorem quote_keeps_the_product :
  forall Lin Lout amt out impact,
    0 <= Lin -> 0 <= Lout -> 0 <= amt < 2 ^ 1022 ->
    calculate_swap_amounts Lin Lout amt default_fee_rate = Ok (out, impact) ->
    0 < Lin /\ 0 < Lout /\ 0 <= out < Lout /\
    Lin * Lout <= (Lin + amt) * (Lout - out).
Proof.
  intros Lin Lout amt out impact HLin HLout Hamt H.
  destruct (default_quote_returned Lin Lout amt out impact HLin HLout Hamt H)
    as (H1 & H2 & H3 & eff & He & ->).
  repeat split; try lia. apply product_kept; assumption.
Qed.

Lemma quote_keeps_the_product_witness :
  1000000 * 25000000 <= (1000000 + 1250) * (25000000 - 31111).
Proof.
  assert (Hq : exists impact,
             calculate_swap_amounts 1000000 25000000 1250 default_fee_rate
             = Ok (31111, impact)) by (eexists; vm_compute; reflexivity).
  destruct Hq as [impact Hq].
  assert (Hamt : 0 <= 1250 < 2 ^ 1022).
  { split; [lia|]. apply Z.lt_trans with (2 ^ 11); [reflexivity|].
    apply Z.pow_lt_mono_r; lia. }
  exact (proj2 (proj2 (proj2 (quote_keeps_the_product 1000000 25000000 1250 31111 impact
                                ltac:(lia) ltac:(lia) Hamt Hq)))).
Defined.

Lemma simulate_bracket_quotes Lin Lout T b :
  simulate_bracket Lin Lout T = Ok b ->
  front_run_amount b = Z.min (T / 4) (Lin / 100) /\
  new_liquidity_in b = Lin + front_run_amount b /\
  new_liquidity_out b = Lout - front_run_output b /\
  final_liquidity_in b = new_liquidity_in b + T /\
  final_liquidity_out b = new_liquidity_out b - target_output b /\
  back_run_amount b = front_run_output b /\
  (front_run_amount b <= 0 -> profit_percentage b = S754_zero false) /\
  exists i1 i2 i3,
    calculate_swap_amounts Lin Lout (front_run_amount b) default_fee_rate
    = Ok (front_run_output b, i1) /\
    calculate_swap_amounts (new_liquidity_in b) (new_liquidity_out b) T default_fee_rate
    = Ok (target_output b, i2) /\
    calculate_swap_amounts (final_liquidity_out b) (final_liquidity_in b)
                           (back_run_amount b) default_fee_rate
    = Ok (back_run_output b, i3).
Proof.
  intros H. unfold simulate_bracket in H.
  apply bind_Ok_inv in H as [[fo fi] [H1 H]].
  apply bind_Ok_inv in H as [[to ti] [H2 H]].
  apply bind_Ok_inv in H as [[bo bi] [H3 H]].
  apply bind_Ok_inv in H as [pp [H4 H]].
  injection H as <-. cbn [front_run_amount back_run_amount front_run_output
    new_liquidity_in new_liquidity_out final_liquidity_in final_liquidity_out
    target_output back_run_output profit_percentage].
  repeat split.
  - intros Hle. destruct (Z.ltb_spec 0 (Z.min (T / 4) (Lin / 100))); [lia|].
    injection H4 as <-. reflexivity.
  - exists fi, ti, bi. repeat split; assumption.
Qed.

Lemma bracket_ranges Lin Lout T b :
  0 <= Lin -> 0 <= Lout < 2 ^ 1022 -> 0 <= T < 2 ^ 1022 ->
  simulate_bracket Lin Lout T = Ok b ->
  0 <= front_run_amount b /\
  4 * front_run_amount b <= T /\ 100 * front_run_amount b <= Lin /\
  0 <= front_run_output b < Lout /\
  0 <= target_output b < new_liquidity_out b /\
  0 <= back_run_output b < final_liquidity_in b /\
  0 < final_liquidity_out b /\
  Lin * Lout <= new_liquidity_in b * new_liquidity_out b /\
  new_liquidity_in b * new_liquidity_out b
    <= final_liquidity_in b * final_liquidity_out b /\
  final_liquidity_in b * final_liquidity_out b
    <= (final_liquidity_in b - back_run_output b)
       * (final_liquidity_out b + back_run_amount b).
Proof.
  intros HLin HLout HT H.
  destruct (simulate_bracket_quotes Lin Lout T b H)
    as (Hf & Hni & Hno & Hfi & Hfo & Hba & _ & i1 & i2 & i3 & Q1 & Q2 & Q3).
  assert (Hfr : 0 <= front_run_amount b /\ 4 * front_run_amount b <= T /\
                100 * front_run_amount b <= Lin).
  { rewrite Hf.
    pose proof (Z.mul_div_le T 4 ltac:(lia)). pose proof (Z.mul_div_le Lin 100 ltac:(lia)).
    assert (0 <= T / 4) by (apply Z.div_pos; lia).
    assert (0 <= Lin / 100) by (apply Z.div_pos; lia). lia. }
  destruct Hfr as (F0 & F1 & F2).
  assert (A1 : 0 <= Lout) by lia.
  assert (A2 : 0 <= front_run_amount b < 2 ^ 1022) by lia.
  destruct (default_quote_returned _ _ _ _ _ HLin A1 A2 Q1)
    as (P1 & P2 & P3 & e1 & E1 & O1).
  assert (K1 : Lin * Lout <= (Lin + front_run_amount b) * (Lout - front_run_output b)).
  { rewrite O1. apply product_kept; assumption. }
  rewrite Hni, Hno in Q2.
  assert (A3 : 0 <= Lin + front_run_amount b) by lia.
  assert (A4 : 0 <= Lout - front_run_output b) by lia.
  destruct (default_quote_returned _ _ _ _ _ A3 A4 HT Q2)
    as (P4 & P5 & P6 & e2 & E2 & O2).
  assert (K2 : (Lin + front_run_amount b) * (Lout - front_run_output b)
               <= (Lin + front_run_amount b + T)
                  * (Lout - front_run_output b - target_output b)).
  { rewrite O2 at 1. apply product_kept; assumption. }
  rewrite Hfo, Hfi, Hni, Hno, Hba in Q3.
  assert (A5 : 0 <= Lout - front_run_output b - target_output b) by lia.
  assert (A6 : 0 <= Lin + front_run_amount b + T) by lia.
  assert (A7 : 0 <= front_run_output b < 2 ^ 1022) by lia.
  destruct (default_quote_returned _ _ _ _ _ A5 A6 A7 Q3)
    as (P7 & P8 & P9 & e3 & E3 & O3).
  assert (K3 : (Lout - front_run_output b - target_output b)
               * (Lin + front_run_amount b + T)
               <= (Lout - front_run_output b - target_output b + front_run_output b)
                  * (Lin + front_run_amount b + T - back_run_output b)).
  { rewrite O3 at 1. apply product_kept; assumption. }
  rewrite Hfi, Hfo, Hni, Hno, Hba.
  repeat split; try lia.
Qed.

(** X20: the simulated bracket never lowers the product of the pool's
    reserves.  On non-negative reserves and target, whenever the bracket
    is computed, the front-run amount is at least 0, at most a quarter of
    the target and at most one hundredth of the input reserve; each of
    the three trades buys less than the reserve it buys from; and the
    product of the reserves does not decrease over the front-run, the
    target trade and the back-run. *)
Theorem bracket_keeps_the_product :
  forall Lin Lout T b,
    0 <= Lin -> 0 <= Lout < 2 ^ 1022 -> 0 <= T < 2 ^ 1022 ->
    simulate_bracket Lin Lout T = Ok b ->
    0 <= front_run_amount b /\
    4 * front_run_amount b <= T /\ 100 * front_run_amount b <= Lin /\
    0 <= front_run_output b < Lout /\
    0 <= target_output b < new_liquidity_out b /\
    0 <= back_run_output b < final_liquidity_in b /\
    0 < final_liquidity_out b /\
    Lin * Lout <= new_liquidity_in b * new_liquidity_out b /\
    new_liquidity_in b * new_liquidity_out b
      <= final_liquidity_in b * final_liquidity_out b /\
    final_liquidity_in b * final_liquidity_out b
      <= (final_liquidity_in b - back_run_output b)
         * (final_liquidity_out b + back_run_amount b).
Proof. intros Lin Lout T b. apply bracket_ranges. Qed.

Lemma bracket_keeps_the_product_witness :
  1000000 * 25000000 <= new_liquidity_in sample_bracket * new_liquidity_out sample_bracket.
Proof.
  assert (Hb : simulate_bracket 1000000 25000000 5000 = Ok sample_bracket)
    by (vm_compute; reflexivity).
  assert (H1 : 0 <= 25000000 < 2 ^ 1022).
  { split; [lia|]. apply Z.lt_trans with (2 ^ 25); [reflexivity|].
    apply Z.pow_lt_mono_r; lia. }
  assert (H2 : 0 <= 5000 < 2 ^ 1022).
  { split; [lia|]. apply Z.lt_trans with (2 ^ 13); [reflexivity|].
    apply Z.pow_lt_mono_r; lia. }
  pose proof (bracket_keeps_the_product 1000000 25000000 5000 sample_bracket
                ltac:(lia) H1 H2 Hb) as H.
  exact (proj1 (proj2 (proj2 (proj2 (proj2 (proj2 (proj2 (proj2 H)))))))).
Defined.

(** Constructing the transaction raises inside the [try] of
    [build_raydium_swap], whether or not the amounts could be packed. *)
Lemma swap_is_never_built self pool_id token_in token_out amount_in minimum_amount_out bh :
  build_raydium_swap self pool_id token_in token_out amount_in minimum_amount_out bh = None.
Proof.
  unfold build_raydium_swap.
  destruct (_encode_swap_instruction amount_in minimum_amount_out); reflexivity.
Qed.

(** A ratio that passes the builder's test is not the zero returned
    with a rejection, and comes from a positive front-run amount. *)
Lemma accepted_ratio Lin Lout T b :
  simulate_bracket Lin Lout T = Ok b ->
  flt (profit_percentage b) (literal 1 2) = false ->
  0 < front_run_amount b /\ profit_percentage b <> S754_zero false.
Proof.
  intros Hb Eflt.
  destruct (simulate_bracket_quotes Lin Lout T b Hb) as (_ & _ & _ & _ & _ & _ & Hzero & _).
  split.
  - destruct (Z_lt_dec 0 (front_run_amount b)) as [|Hn]; [assumption|exfalso].
    rewrite (Hzero ltac:(lia)) in Eflt. vm_compute in Eflt. discriminate.
  - intros Hz. rewrite Hz in Eflt. vm_compute in Eflt. discriminate.
Qed.

(** X22: no call of the builder returns a transaction.  Constructing
    the transaction raises inside [build_raydium_swap], which therefore
    answers [None] for every input; so a call of
    [build_sandwich_transactions] that returns gives no leg, for an
    accepted bracket as for a rejected one.  For reserves and a target
    below [2 ^ 62] the call returns whenever the bracket is computed: a
    rejected bracket comes back with a ratio of zero, and an accepted
    one, whose front-run amount is positive, with its own ratio, which
    is not zero, and still without a transaction. *)
Theorem no_leg_is_ever_built :
  forall self target_transaction pool_id token_in token_out
         pool_liquidity_in pool_liquidity_out target_amount_in recent_blockhash b,
    0 <= pool_liquidity_in < 2 ^ 62 -> 0 <= pool_liquidity_out < 2 ^ 62 ->
    0 <= target_amount_in < 2 ^ 62 ->
    simulate_bracket pool_liquidity_in pool_liquidity_out target_amount_in = Ok b ->
    build_sandwich_transactions self target_transaction pool_id token_in token_out
                                pool_liquidity_in pool_liquidity_out target_amount_in
                                recent_blockhash
    = Ok (None, None,
          if flt (profit_percentage b) (literal 1 2) then S754_zero false
          else profit_percentage b) /\
    (flt (profit_percentage b) (literal 1 2) = false ->
     0 < front_run_amount b /\ profit_percentage b <> S754_zero false) /\
    (forall mint_in mint_out amount_in minimum_amount_out,
        build_raydium_swap self pool_id mint_in mint_out amount_in minimum_amount_out
                           recent_blockhash = None) /\
    (forall liquidity_in liquidity_out amount front_run_tx back_run_tx ratio,
        build_sandwich_transactions self target_transaction pool_id token_in token_out
                                    liquidity_in liquidity_out amount recent_blockhash
        = Ok (front_run_tx, back_run_tx, ratio) ->
        front_run_tx = None /\ back_run_tx = None).
Proof.
  intros self tt pool tin tout Lin Lout T bh b HLin HLout HT Hb.
  assert (H62 : 2 ^ 62 < 2 ^ 1022) by (apply Z.pow_lt_mono_r; lia).
  split; [|split; [|split]].
  - unfold build_sandwich_transactions. rewrite Hb. cbn [bind].
    destruct (flt (profit_percentage b) (literal 1 2)) eqn:Eflt; [reflexivity|].
    destruct (bracket_ranges Lin Lout T b ltac:(lia) ltac:(lia) ltac:(lia) Hb)
      as (F0 & F1 & F2 & R1 & R2 & R3 & R4 & _).
    destruct (simulate_bracket_quotes Lin Lout T b Hb)
      as (Hf & Hni & Hno & Hfi & Hfo & Hba & _).
    destruct (with_slippage_bounds (front_run_output b) ltac:(lia)) as (fm & Hfm & _).
    destruct (with_slippage_bounds (back_run_output b) ltac:(lia)) as (bm & Hbm & _).
    rewrite Hfm. cbn [bind]. rewrite Hbm. cbn [bind].
    rewrite !swap_is_never_built. reflexivity.
  - apply (accepted_ratio Lin Lout T b Hb).
  - intros mint_in mint_out a m. apply swap_is_never_built.
  - intros Lin' Lout' T' f k ratio H. unfold build_sandwich_transactions in H.
    apply bind_Ok_inv in H as (b' & _ & H).
    destruct (flt (profit_percentage b') (literal 1 2)).
    + injection H as <- <- _. split; reflexivity.
    + apply bind_Ok_inv in H as (fm & _ & H).
      apply bind_Ok_inv in H as (bm & _ & H).
      rewrite !swap_is_never_built in H. injection H as <- <- _. split; reflexivity.
Qed.

(** Reserves of 10^9 on both sides and a target of 4 * 10^8: the
    bracket is accepted, with a ratio of 93%, and no leg comes back. *)
Lemma no_leg_is_ever_built_witness :
  exists b,
    simulate_bracket 1000000000 1000000000 400000000 = Ok b /\
    flt (profit_percentage b) (literal 1 2) = false /\
    build_sandwich_transactions sample_builder "target" "pool" "mintA" "mintB"
                                1000000000 1000000000 400000000 "blockhash"
    = Ok (None, None, profit_percentage b) /\
    0 < front_run_amount b /\ profit_percentage b <> S754_zero false.
Proof.
  destruct (simulate_bracket 1000000000 1000000000 400000000) as [b|e] eqn:Hb;
    [|vm_compute in Hb; discriminate Hb].
  assert (Eflt : flt (profit_percentage b) (literal 1 2) = false).
  { vm_compute in Hb. injection Hb as <-. vm_compute. reflexivity. }
  assert (H1 : 0 <= 1000000000 < 2 ^ 62) by (split; [lia | reflexivity]).
  assert (H2 : 0 <= 400000000 < 2 ^ 62) by (split; [lia | reflexivity]).
  pose proof (no_leg_is_ever_built sample_builder "target" "pool" "mintA" "mintB"
                1000000000 1000000000 400000000 "blockhash" b H1 H1 H2 Hb)
    as (Hbuilt & Haccepted & _).
  rewrite Eflt in Hbuilt.
  exists b. split; [reflexivity|]. split; [exact Eflt|]. split; [exact Hbuilt|].
  exact (Haccepted Eflt).
Defined.

End LegFacts.

(* ================================================================== *)
(** ** Scans under the default settings *)
(* ================================================================== *)

Module DefaultScanFacts.

Import PyFacts QuoteFacts Settings Raydium SandwichEngine EngineSpec EngineRunSpec.
Import DefaultScanSpec EngineFacts.

#[local] Open Scope Z_scope.

Lemma bounded_by_weaken X E X' E' x :
  bounded_by X E x -> X <= X' -> E <= E' -> bounded_by X' E' x.
Proof.
  destruct x as [s|s| |s m e]; cbn [bounded_by]; try tauto.
  intros [Hm He] HX HE. split; [|lia].
  eapply Z.lt_le_trans; [exact Hm|]. apply Z.pow_le_mono_r; lia.
Qed.

(** The size of a product. *)
Lemma fmul_bounded_by X1 E1 X2 E2 x y :
  bounded_by X1 E1 x -> bounded_by X2 E2 y ->
  -1074 <= X1 + X2 -> X1 + X2 + 1 <= 1024 -> E1 + E2 <= 971 ->
  bounded_by (X1 + X2 + 1) (Z.max (E1 + E2) (Z.max (X1 + X2 + 1 - 53) (-1074)))
             (fmul x y).
Proof.
  intros Hx Hy Hmin HX HE. unfold fmul.
  destruct x as [s1|s1| |s1 m1 e1], y as [s2|s2| |s2 m2 e2];
    cbn [bounded_by SFmul] in *; try contradiction; try exact I.
  destruct Hx as [H1 H1e], Hy as [H2 H2e].
  pose proof (pow2_lt_exp_nonneg _ _ (Pos2Z.is_nonneg m1) H1).
  pose proof (pow2_lt_exp_nonneg _ _ (Pos2Z.is_nonneg m2) H2).
  pose proof (binary_round_aux_bounded prec emax (xorb s1 s2) (Zpos (m1 * m2)) (e1 + e2)
                loc_Exact (X1 + X2) (E1 + E2)) as Hb.
  rewrite emin_b64 in Hb. unfold prec, emax in Hb.
  apply Hb; try lia.
  rewrite Pos2Z.inj_mul.
  replace (X1 + X2 - (e1 + e2)) with ((X1 - e1) + (X2 - e2)) by lia.
  rewrite Z.pow_add_r by lia.
  apply Z.mul_lt_mono_nonneg; lia.
Qed.

(** The size of a quotient: a numerator below [2 ^ X] over a divisor of
    at least [2 ^ Y]. *)
Lemma fdiv_bounded_by X Y sx mx ex sy my ey :
  Zpos mx < 2 ^ (X - ex) -> Y + 1 <= Zdigits2 (Zpos my) + ey ->
  -1074 <= X - Y -> X - Y + 1 <= 1024 -> ex - ey <= 971 ->
  bounded_by (X - Y + 1) (Z.max (ex - ey) (Z.max (X - Y + 1 - 53) (-1074)))
             (SFdiv prec emax (S754_finite sx mx ex) (S754_finite sy my ey)).
Proof.
  intros Hx Hy Hmin Hmax He. cbn [SFdiv]. unfold SFdiv_core_binary.
  set (d1 := Zdigits2 (Zpos mx)). set (d2 := Zdigits2 (Zpos my)) in *.
  set (e' := Z.min (fexp prec emax (d1 + ex - (d2 + ey))) (ex - ey)).
  set (s := ex - ey - e').
  assert (Hs : 0 <= s) by (unfold s, e'; lia).
  set (m' := match s with Zpos _ => Z.shiftl (Zpos mx) s | Z0 => Zpos mx | Zneg _ => 0 end).
  assert (Hm' : m' = Zpos mx * 2 ^ s).
  { unfold m'. destruct s as [|p|p] eqn:E; try lia.
    apply Z.shiftl_mul_pow2. lia. }
  pose proof (pow2_lt_exp_nonneg _ _ (Pos2Z.is_nonneg mx) Hx) as HXe.
  destruct (Zdigits2_bounds (Zpos mx) ltac:(lia)) as [H1lo H1hi]. fold d1 in H1lo, H1hi.
  destruct (Zdigits2_bounds (Zpos my) ltac:(lia)) as [H2lo H2hi]. fold d2 in H2lo, H2hi.
  assert (Hd1 : d1 + ex <= X).
  { assert (d1 <= X - ex); [|lia]. apply Zdigits2_le; lia. }
  assert (Hd2 : 0 < d2) by (unfold d2; simpl; lia).
  assert (He' : e' <= X - Y /\ e' <= ex - ey).
  { unfold e', fexp. rewrite emin_b64. unfold prec. lia. }
  assert (Hq : m' / Zpos my = fst (Z.div_eucl m' (Zpos my))) by reflexivity.
  destruct (Z.div_eucl m' (Zpos my)) as [q r]. cbn [fst] in Hq. subst q.
  assert (Hps : 0 < 2 ^ s) by (apply pow2_pos; lia).
  assert (Hq0 : 0 <= m' / Zpos my) by (apply Z.div_pos; [rewrite Hm'|]; lia).
  assert (Hq1 : m' / Zpos my < 2 ^ (X - Y - e')).
  { apply Z.div_lt_upper_bound; [lia|]. rewrite Hm'.
    assert (Ha : Zpos mx * 2 ^ s < 2 ^ (X - ex) * 2 ^ s)
      by (apply Z.mul_lt_mono_pos_r; lia).
    rewrite <- Z.pow_add_r in Ha by lia.
    assert (Hb : 2 ^ (X - ex + s) <= 2 ^ (d2 - 1) * 2 ^ (X - Y - e')).
    { rewrite <- Z.pow_add_r by lia. apply Z.pow_le_mono_r; unfold s; lia. }
    assert (Hc : 2 ^ (d2 - 1) * 2 ^ (X - Y - e') <= Zpos my * 2 ^ (X - Y - e')).
    { apply Z.mul_le_mono_nonneg_r; [apply Z.pow_nonneg; lia | exact H2lo]. }
    lia. }
  pose proof (binary_round_aux_bounded prec emax (xorb sx sy) (m' / Zpos my) e'
                (new_location (Zpos my) r) (X - Y) (ex - ey)) as Hb.
  rewrite emin_b64 in Hb. unfold prec, emax in Hb.
  apply Hb; lia.
Qed.

Lemma gas_value : literal 1 3 = S754_finite false 4611686018427388 (-62).
Proof. vm_compute. reflexivity. Qed.

(** A profit below [2 ^ -10] leaves, after the gas cost of 0.001, a
    net profit that is not above the threshold of 0.001. *)
Lemma net_of_small_profit p :
  signed false p -> bounded_by (-10) 971 p ->
  flt (literal 1 3) (fsub p (literal 1 3)) = false.
Proof.
  rewrite gas_value. destruct p as [s|s| |s m e]; cbn [signed bounded_by];
    try contradiction.
  - intros -> _. reflexivity.
  - intros -> [Hm He]. unfold fsub. cbn [SFsub cond_Zopp].
    set (ez := Z.min e (-62)).
    destruct (shl_align_spec m e ez) as [Ha Hae].
    destruct (shl_align_spec 4611686018427388 (-62) ez) as [Hb Hbe].
    destruct (shl_align m e ez) as [a ea]. destruct (shl_align _ (-62) ez) as [b eb].
    cbn [fst snd] in *.
    pose proof (pow2_lt_exp_nonneg _ _ (Pos2Z.is_nonneg m) Hm) as Hexp.
    assert (Hlt : Zpos a < Zpos b).
    { rewrite Ha, Hb, Hae, Hbe.
      replace (Z.min e ez) with ez by (unfold ez; lia).
      replace (Z.min (-62) ez) with ez by (unfold ez; lia).
      assert (H1 : Zpos m * 2 ^ (e - ez) < 2 ^ (-10 - e) * 2 ^ (e - ez)).
      { apply Z.mul_lt_mono_pos_r; [apply pow2_pos; unfold ez; lia | exact Hm]. }
      rewrite <- Z.pow_add_r in H1 by (unfold ez; lia).
      replace (-10 - e + (e - ez)) with (52 + (-62 - ez)) in H1 by lia.
      rewrite Z.pow_add_r in H1 by (unfold ez; lia).
      assert (H2 : 2 ^ 52 * 2 ^ (-62 - ez) <= 4611686018427388 * 2 ^ (-62 - ez)).
      { apply Z.mul_le_mono_nonneg_r; [apply Z.pow_nonneg; lia|].
        apply Z.leb_le. reflexivity. }
      lia. }
    destruct (Zpos a - Zpos b) as [|d|d] eqn:Ed; try lia.
    cbn [binary_normalize].
    pose proof (binary_round_signed prec emax true d ez) as Hs.
    destruct (binary_round prec emax true d ez) as [s'|s'| |s' m' e'];
      cbn [signed] in Hs; try contradiction; subst s'; reflexivity.
Qed.

Lemma min_liquidity_value :
  default_min_liquidity = S754_finite false 6871947673600000 (-36).
Proof. vm_compute. reflexivity. Qed.

(** A liquidity of at least the default minimum, in canonical form, is
    infinite or has full precision and a value of at least [2 ^ 16]. *)
Lemma target_liquidity_shape liq :
  valid_binary prec emax liq = true -> fle default_min_liquidity liq = true ->
  liq = S754_infinity false \/
  exists m e, liq = S754_finite false m e /\
              Zdigits2 (Zpos m) = 53 /\ -36 <= e <= 971.
Proof.
  rewrite min_liquidity_value. unfold fle, SFleb.
  destruct liq as [s|s| |s m e]; cbn [SFcompare valid_binary]; try discriminate.
  - destruct s; [discriminate | auto].
  - destruct s; [discriminate|]. intros Hv Hc. right. exists m, e.
    split; [reflexivity|].
    unfold bounded, canonical_mantissa in Hv.
    apply andb_true_iff in Hv as [Hcan Hmax].
    apply Z.eqb_eq in Hcan. apply Z.leb_le in Hmax.
    assert (He : -36 <= e).
    { destruct (Z.compare_spec (-36) e); [lia | lia | discriminate Hc || lia]. }
    change (Zpos (digits2_pos m)) with (Zdigits2 (Zpos m)) in Hcan.
    unfold fexp in Hcan. rewrite emin_b64 in Hcan. unfold prec, emax in *. lia.
Qed.

(** When the net profit of the evaluation cannot be above the
    threshold, the evaluation returns nothing. *)
Lemma evaluation_without_profit self now pool :
  (forall ratio,
      float_truediv (min2 (fmul (liquidity pool) (literal 1 3)) (max_position_size self))
                    (liquidity pool) = Ok ratio ->
      flt (min_profit_threshold self)
          (fsub (fmul (fmul (min2 (fmul (liquidity pool) (literal 1 3))
                                  (max_position_size self))
                            (fmul ratio (literal 5 1)))
                      (literal 8 1))
                (literal 1 3)) = false) ->
  _simulate_opportunity self now pool = None.
Proof.
  intros H. unfold _simulate_opportunity.
  destruct (float_truediv _ (liquidity pool)) as [ratio|e] eqn:E1; [|reflexivity].
  cbn [bind]. rewrite (H ratio eq_refl).
  destruct (float_truediv (volume_24h pool) (liquidity pool)); [|reflexivity]. cbn [bind].
  destruct (float_div_int (liquidity pool) 100000); [|reflexivity]. cbn [bind].
  destruct (float_mul_int _ 100); reflexivity.
Qed.

Lemma one_value : literal 10 1 = S754_finite false 4503599627370496 (-52).
Proof. vm_compute. reflexivity. Qed.

Lemma half_value : literal 5 1 = S754_finite false 4503599627370496 (-53).
Proof. vm_compute. reflexivity. Qed.

Lemma four_fifths_value : literal 8 1 = S754_finite false 7205759403792794 (-53).
Proof. vm_compute. reflexivity. Qed.

(** The front-run amount under the default position size, on a pool of
    finite positive liquidity: positive or zero, and at most 1. *)
Lemma default_front_run m e :
  Zdigits2 (Zpos m) = 53 -> -36 <= e <= 971 ->
  let front := min2 (fmul (S754_finite false m e) (literal 1 3)) (literal 10 1) in
  signed false front /\ bounded_by 1 0 front.
Proof.
  intros Hd He. cbv zeta. unfold min2.
  destruct (flt (literal 10 1) (fmul (S754_finite false m e) (literal 1 3))) eqn:Eflt.
  - rewrite one_value. cbn [signed bounded_by]. split; [reflexivity|].
    split; [|lia]. apply Z.ltb_lt. reflexivity.
  - rewrite gas_value, one_value in *.
    assert (Hs : signed false (fmul (S754_finite false m e)
                                    (S754_finite false 4611686018427388 (-62)))).
    { apply (fmul_signed false false); reflexivity. }
    split; [exact Hs|].
    assert (Hv : valid_binary prec emax
                   (fmul (S754_finite false m e)
                         (S754_finite false 4611686018427388 (-62))) = true).
    { unfold fmul, SFmul. apply binary_round_aux_valid; [reflexivity | lia |].
      assert (Hp : 105 <= Zdigits2 (Zpos (m * 4611686018427388))).
      { destruct (Zdigits2_bounds (Zpos m) ltac:(lia)) as [Hlo _]. rewrite Hd in Hlo.
        apply Zdigits2_ge; [lia|]. rewrite Pos2Z.inj_mul.
        change (2 ^ (105 - 1)) with (2 ^ 52 * 2 ^ 52).
        apply Z.mul_le_mono_nonneg; try lia;
          try (apply Z.pow_nonneg; lia); apply Z.leb_le; reflexivity. }
      unfold fexp. rewrite emin_b64. unfold prec. lia. }
    unfold flt, SFltb in Eflt.
    destruct (fmul (S754_finite false m e) (S754_finite false 4611686018427388 (-62)))
      as [s|s| |s mx ex]; cbn [signed] in Hs; try contradiction; subst.
    + exact I.
    + discriminate Eflt.
    + apply valid_mantissa_lt in Hv. cbn [SFcompare] in Eflt. cbn [bounded_by].
      destruct (Z.compare_spec (-52) ex) as [Heq|Hlt|Hgt]; try discriminate Eflt.
      * subst ex. split; [|lia]. change (1 - -52) with 53. exact Hv.
      * split; [|lia]. eapply Z.lt_le_trans; [exact Hv|].
        apply Z.pow_le_mono_r; lia.
Qed.

(** One evaluation under the default thresholds, on a pool the
    exchange module would select: nothing is found. *)
Lemma default_evaluation_finds_nothing self now pool :
  default_thresholds self ->
  valid_binary prec emax (liquidity pool) = true ->
  fle default_min_liquidity (liquidity pool) = true ->
  _simulate_opportunity self now pool = None.
Proof.
  intros [Hthr Hmax] Hv Hle. apply evaluation_without_profit.
  rewrite Hthr, Hmax.
  destruct (target_liquidity_shape _ Hv Hle) as [Hinf|(m & e & Hliq & Hd & He)].
  - rewrite Hinf. intros ratio Hr. vm_compute in Hr. injection Hr as <-.
    vm_compute. reflexivity.
  - rewrite Hliq. intros ratio Hr.
    destruct (default_front_run m e Hd He) as [Hfs Hfb].
    set (front := min2 (fmul (S754_finite false m e) (literal 1 3)) (literal 10 1)) in *.
    unfold float_truediv in Hr. cbn [is_zero] in Hr. injection Hr as <-.
    assert (Hrs : signed false (SFdiv prec emax front (S754_finite false m e)))
      by (apply SFdiv_signed; exact Hfs).
    assert (Hrb : bounded_by (-14) 36 (SFdiv prec emax front (S754_finite false m e))).
    { destruct front as [s|s| |s mf ef]; cbn [bounded_by signed] in Hfb, Hfs;
        try contradiction.
      - exact I.
      - destruct Hfb as [Hm Hef].
        eapply bounded_by_weaken;
          [apply (fdiv_bounded_by 1 16 s mf ef false m e); try lia| |]; lia. }
    set (ratio := SFdiv prec emax front (S754_finite false m e)) in *.
    assert (Hhalf : bounded_by 0 (-53) (literal 5 1)).
    { rewrite half_value. cbn [bounded_by]. split; [apply Z.ltb_lt; reflexivity | lia]. }
    assert (Hfour : bounded_by 0 (-53) (literal 8 1)).
    { rewrite four_fifths_value. cbn [bounded_by].
      split; [apply Z.ltb_lt; reflexivity | lia]. }
    assert (Hsb : bounded_by (-13) (-17) (fmul ratio (literal 5 1))).
    { eapply bounded_by_weaken;
        [apply (fmul_bounded_by (-14) 36 0 (-53)); try assumption; lia | lia | lia]. }
    assert (Hss : signed false (fmul ratio (literal 5 1))).
    { apply (fmul_signed false false);
        first [ assumption
              | eapply bounded_by_finite; eassumption
              | rewrite ?half_value, ?four_fifths_value; reflexivity ]. }
    assert (Hpb : bounded_by (-11) (-17) (fmul front (fmul ratio (literal 5 1)))).
    { eapply bounded_by_weaken;
        [apply (fmul_bounded_by 1 0 (-13) (-17)); try assumption; lia | lia | lia]. }
    assert (Hps : signed false (fmul front (fmul ratio (literal 5 1)))).
    { apply (fmul_signed false false);
        first [ assumption
              | eapply bounded_by_finite; eassumption
              | rewrite ?half_value, ?four_fifths_value; reflexivity ]. }
    apply net_of_small_profit.
    + apply (fmul_signed false false);
        first [ assumption
              | eapply bounded_by_finite; eassumption
              | rewrite ?half_value, ?four_fifths_value; reflexivity ].
    + eapply bounded_by_weaken;
        [apply (fmul_bounded_by (-11) (-17) 0 (-53)); try assumption; lia | lia | lia].
Qed.

Lemma default_detect_loop self clock pools : forall i acc,
  default_thresholds self ->
  (forall pool, In pool pools ->
                valid_binary prec emax (liquidity pool) = true /\
                fle default_min_liquidity (liquidity pool) = true) ->
  detect_loop pools i clock self acc = (acc, self).
Proof.
  induction pools as [|pool rest IH]; intros i acc Hself Hall; cbn [detect_loop].
  - reflexivity.
  - destruct (Hall pool (or_introl eq_refl)) as [Hv Hle].
    rewrite (default_evaluation_finds_nothing self (clock i) pool Hself Hv Hle).
    apply IH; [exact Hself|]. intros p Hp. apply Hall. right. exact Hp.
Qed.

Lemma default_scan self pools clock :
  default_thresholds self -> well_formed pools ->
  detect_sandwich_opportunities self (get_sandwich_targets pools default_min_liquidity) clock
  = ([], self).
Proof.
  intros Hself Hwf. unfold detect_sandwich_opportunities.
  apply default_detect_loop; [exact Hself|]. intros pool Hin.
  assert (Ht : In pool (get_sandwich_targets pools default_min_liquidity)).
  { rewrite <- (firstn_skipn 3 (get_sandwich_targets pools default_min_liquidity)).
    apply in_or_app. left. exact Hin. }
  apply RaydiumFacts.targets_in in Ht as (Hp & Hle & _).
  unfold well_formed in Hwf. rewrite Forall_forall in Hwf. auto.
Qed.

(** X23: with the default thresholds (minimum profit 0.001, maximum
    position 1.0) a scan of the pools the exchange module selects with
    its default minimum liquidity finds no opportunity, whatever the
    pools are: the estimated profit stays below the gas cost.  So the
    monitoring loop over such turns leaves the engine, and its counters,
    as they were. *)
Theorem default_thresholds_find_no_opportunity :
  forall settings self,
    default_thresholds self ->
    (forall pools clock,
        well_formed pools ->
        detect_sandwich_opportunities
          self (get_sandwich_targets pools default_min_liquidity) clock = ([], self)) /\
    (forall end_time cycles,
        Forall listed_by_exchange cycles ->
        monitoring_loop settings end_time cycles self = self).
Proof.
  intros settings self Hself. split.
  - intros pools clock Hwf. apply default_scan; assumption.
  - intros end_time cycles. induction cycles as [|c rest IH]; intros Hall.
    + reflexivity.
    + inversion Hall as [|? ? (pools & Hwf & Hl) Hrest]; subst.
      cbn [monitoring_loop].
      assert (Hc : monitoring_cycle settings self c = self).
      { unfold monitoring_cycle. rewrite Hl, (default_scan self pools _ Hself Hwf).
        reflexivity. }
      rewrite Hc, (IH Hrest).
      destruct (flt (loop_clock c) end_time), (interrupted c); reflexivity.
Qed.

Lemma default_thresholds_find_no_opportunity_witness :
  detect_sandwich_opportunities
    (init defaults) (get_sandwich_targets _get_devnet_mock_pools default_min_liquidity)
    (fun _ => literal 1700000000 0) = ([], init defaults) /\
  monitoring_loop defaults (literal 1700000060 0) [mock_cycle] (init defaults)
  = init defaults.
Proof.
  assert (Hself : default_thresholds (init defaults)) by (split; reflexivity).
  assert (Hwf : well_formed _get_devnet_mock_pools)
    by (repeat constructor).
  split.
  - exact (proj1 (default_thresholds_find_no_opportunity defaults (init defaults) Hself)
                 _get_devnet_mock_pools (fun _ => literal 1700000000 0) Hwf).
  - apply (proj2 (default_thresholds_find_no_opportunity defaults (init defaults) Hself)).
    constructor; [|constructor].
    exists _get_devnet_mock_pools. split; [exact Hwf | reflexivity].
Defined.

End DefaultScanFacts.

(* ================================================================== *)
(** ** Sessions of the feed, whatever the stream does *)
(* ================================================================== *)

Module FeedRunFacts.

Import MempoolMonitor FeedSpec FeedRunSpec.
Import FeedFacts.

#[local] Open Scope Z_scope.

Section Sessions.

Variable S : Type.
Variable cb : Callback S.

Lemma after_deliveries_app (l1 l2 : list PendingSwap) (s : S) :
  after_deliveries cb (l1 ++ l2) s = after_deliveries cb l2 (after_deliveries cb l1 s).
Proof. unfold after_deliveries. apply fold_left_app. Qed.

Lemma deliveries_app l1 l2 : deliveries (l1 ++ l2) = deliveries l1 ++ deliveries l2.
Proof.
  induction l1 as [|ev l1 IH]; [reflexivity|].
  destruct ev; cbn [app deliveries]; rewrite IH; reflexivity.
Qed.

Lemma deliveries_stream l : deliveries (map DeliveredFromStream l) = l.
Proof. induction l as [|p l IH]; cbn; [|rewrite IH]; reflexivity. Qed.

Lemma deliveries_poll l : deliveries (map DeliveredFromPoll l) = l.
Proof. induction l as [|p l IH]; cbn; [|rewrite IH]; reflexivity. Qed.

(** The message loop of a subscribed stream, while monitoring is on and
    [cb] is registered. *)
Lemma websocket_loop_spec events : forall (x : session S),
  is_monitoring (monitor x) = true ->
  opportunity_callback (monitor x) = Some cb ->
  let r := _websocket_loop events x in
  fst r = stream_end events /\
  log (snd r) = log x ++ map DeliveredFromStream (stream_candidates events) /\
  cb_state (snd r) = after_deliveries cb (stream_candidates events) (cb_state x) /\
  opportunity_callback (monitor (snd r)) = Some cb /\
  (forall e, stream_end events = Raised e -> is_monitoring (monitor (snd r)) = true).
Proof.
  induction events as [|ev rest IH]; intros x Hon Hcb; cbv zeta;
    cbn [_websocket_loop]; rewrite Hon; cbn [negb].
  - cbn. rewrite app_nil_r. repeat split; auto.
  - destruct ev as [m d| | | |].
    + assert (Hx : exists ds,
                 (ds = [] \/ exists p, ds = [p]) /\
                 stream_candidates (Recv m d :: rest) = ds ++ stream_candidates rest /\
                 let x1 := _process_websocket_message m d x in
                 is_monitoring (monitor x1) = true /\
                 opportunity_callback (monitor x1) = Some cb /\
                 log x1 = log x ++ map DeliveredFromStream ds /\
                 cb_state x1 = after_deliveries cb ds (cb_state x)).
      { unfold _process_websocket_message. cbn [stream_candidates].
        destruct m as [| |[|]];
          try solve [exists (@nil PendingSwap); cbn; rewrite ?app_nil_r; auto 10].
        unfold _is_raydium_transaction.
        destruct (_parse_real_transaction d) as [p|];
          [|solve [exists (@nil PendingSwap); cbn; rewrite ?app_nil_r; auto 10]].
        rewrite Hcb. exists [p]. split; [right; eauto|]. split; [reflexivity|].
        unfold deliver. destruct (cb p (cb_state x)) as [s' raised] eqn:Ecb.
        cbn [fst monitor log cb_state map]. repeat split; auto.
        unfold after_deliveries. cbn [fold_left]. rewrite Ecb. reflexivity. }
      destruct Hx as (ds & _ & Hc & Hx). cbv zeta in Hx.
      destruct Hx as (Hon1 & Hcb1 & Hlog1 & Hst1).
      specialize (IH (_process_websocket_message m d x) Hon1 Hcb1). cbv zeta in IH.
      destruct IH as (I1 & I2 & I3 & I4 & I5).
      change (stream_end (Recv m d :: rest)) with (stream_end rest).
      rewrite Hc, I2, I3, Hlog1, Hst1, map_app, after_deliveries_app, <- app_assoc.
      repeat split; auto.
    + specialize (IH x Hon Hcb). exact IH.
    + specialize (IH x Hon Hcb). exact IH.
    + cbn [stream_candidates stream_end].
      destruct rest as [|ev' rest']; cbn [_websocket_loop stopped monitor stop_monitoring
        is_monitoring negb fst snd log cb_state opportunity_callback map];
        rewrite app_nil_r; repeat split; auto; intros e He; discriminate He.
    + cbn [stream_candidates stream_end fst snd map]. rewrite app_nil_r.
      repeat split; auto.
Qed.

(** The polling loop that meets a stop request or an interrupt after
    turns of the loop body only. *)
Lemma polling_loop_stops pre : forall ev post cycle_count found (x : session S),
  forallb is_cycle pre = true -> is_cycle ev = false ->
  is_monitoring (monitor x) = true ->
  opportunity_callback (monitor x) = Some cb ->
  let r := _polling_loop (pre ++ ev :: post) cycle_count found x in
  fst r = Done tt /\
  log (snd r) = log x ++ map DeliveredFromPoll (poll_candidates pre cycle_count)
                      ++ [PollingCompleted] /\
  cb_state (snd r) = after_deliveries cb (poll_candidates pre cycle_count) (cb_state x).
Proof.
  induction pre as [|c pre IH]; intros ev post n f x Hpre Hev Hon Hcb; cbv zeta.
  - cbn [app poll_candidates map]. cbn [_polling_loop]. rewrite Hon. cbn [negb].
    destruct ev as [d| |]; [discriminate| |].
    + destruct post as [|ev' post']; cbn [_polling_loop stopped monitor stop_monitoring
        is_monitoring negb fst snd note log cb_state]; repeat split.
    + cbn [fst snd note log cb_state]. repeat split.
  - cbn [forallb] in Hpre. apply andb_prop in Hpre as [Hc Hpre].
    destruct c as [d| |]; try discriminate.
    cbn [app _polling_loop poll_candidates]. rewrite Hon. cbn [negb].
    destruct ((n + 1) mod 2 =? 0); [|apply IH; assumption].
    destruct (_generate_simulated_opportunity d) as [[p|]|e]; try (apply IH; assumption).
    rewrite Hcb. unfold deliver. destruct (cb p (cb_state x)) as [s' raised] eqn:Ecb.
    cbn [fst].
    set (x1 := {| monitor := monitor x; cb_state := s'; log := log x ++ [DeliveredFromPoll p] |}).
    destruct (IH ev post (n + 1) (f + 1) x1 Hpre Hev Hon Hcb) as (I1 & I2 & I3).
    split; [exact I1|]. split.
    + rewrite I2. cbn [x1 log map]. rewrite <- !app_assoc. reflexivity.
    + rewrite I3. cbn [x1 cb_state]. unfold after_deliveries. cbn [fold_left].
      rewrite Ecb. reflexivity.
Qed.

Lemma start_monitoring_spec self setup ws_events poll_events s :
  let r := start_monitoring self cb setup ws_events poll_events s in
  exists polled,
    log (snd r)
    = StreamingStarted
        :: map DeliveredFromStream (attempt_candidates setup ws_events) ++ polled /\
    match attempt_end setup ws_events with
    | Raised _ =>
        exists ending,
          polled = PollingStarted
                     :: map DeliveredFromPoll (poll_candidates poll_events 0) ++ ending /\
          (ending = [] \/ ending = [PollingCompleted])
    | other => polled = [] /\ fst r = other
    end /\
    cb_state (snd r) = after_deliveries cb (deliveries (log (snd r))) s.
Proof.
  cbv zeta. unfold start_monitoring.
  set (x0 := {| monitor := _; cb_state := s; log := [StreamingStarted] |}).
  assert (Hon : is_monitoring (monitor x0) = true) by reflexivity.
  assert (Hcb : opportunity_callback (monitor x0) = Some cb) by reflexivity.
  assert (Hpoll : forall x1 ds,
             is_monitoring (monitor x1) = true ->
             opportunity_callback (monitor x1) = Some cb ->
             log x1 = StreamingStarted :: map DeliveredFromStream ds ->
             cb_state x1 = after_deliveries cb ds s ->
             let r := _polling_monitoring poll_events x1 in
             exists polled,
               log (snd r) = StreamingStarted :: map DeliveredFromStream ds ++ polled /\
               (exists ending,
                   polled = PollingStarted
                              :: map DeliveredFromPoll (poll_candidates poll_events 0)
                              ++ ending /\
                   (ending = [] \/ ending = [PollingCompleted])) /\
               cb_state (snd r) = after_deliveries cb (deliveries (log (snd r))) s).
  { intros x1 ds Hon1 Hcb1 Hlog1 Hst1. cbv zeta. unfold _polling_monitoring.
    destruct (_polling_loop poll_events 0 0 (note PollingStarted x1)) as [out x2] eqn:E.
    apply (polling_loop_delivers S cb) in E; [|exact Hon1|exact Hcb1].
    destruct E as (ending & Hlog & Hend & Hst).
    cbn [note log cb_state] in Hlog, Hst. cbn [snd].
    exists (PollingStarted :: map DeliveredFromPoll (poll_candidates poll_events 0) ++ ending).
    split; [rewrite Hlog, Hlog1; cbn [app]; rewrite <- app_assoc; reflexivity|].
    split; [exists ending; split; [reflexivity | exact Hend]|].
    rewrite Hst, Hst1, Hlog, Hlog1.
    change (StreamingStarted :: map DeliveredFromStream ds)
      with ([StreamingStarted] ++ map DeliveredFromStream ds).
    rewrite !deliveries_app, deliveries_stream, deliveries_poll.
    cbn [deliveries app]. 
    assert (He : deliveries ending = []) by (destruct Hend as [->| ->]; reflexivity).
    rewrite He, !app_nil_r, after_deliveries_app. reflexivity. }
  destruct setup; cbn [_try_websocket_monitoring attempt_candidates attempt_end].
  1-5: destruct (Hpoll x0 [] Hon Hcb eq_refl eq_refl) as (polled & Hl & He & Hs);
    exists polled; cbv beta iota; split; [exact Hl | split; [exact He | exact Hs]].
  pose proof (websocket_loop_spec ws_events x0 Hon Hcb) as Hw. cbv zeta in Hw.
  destruct (_websocket_loop ws_events x0) as [out x1].
  cbn [fst snd] in Hw. destruct Hw as (W1 & W2 & W3 & W4 & W5). subst out.
  cbn [x0 log cb_state app] in W2, W3.
  destruct (stream_end ws_events) as [[]|e|] eqn:Eend.
  - exists (@nil feed_event). cbn [snd fst]. rewrite app_nil_r. split; [exact W2|].
    split; [split; reflexivity|].
    rewrite W3, W2. cbn [deliveries]. rewrite deliveries_stream. reflexivity.
  - destruct (Hpoll x1 (stream_candidates ws_events) (W5 e eq_refl) W4 W2 W3)
      as (polled & Hl & He & Hs).
    exists polled. split; [exact Hl | split; [exact He | exact Hs]].
  - exists (@nil feed_event). cbn [snd fst]. rewrite app_nil_r. split; [exact W2|].
    split; [split; reflexivity|].
    rewrite W3, W2. cbn [deliveries]. rewrite deliveries_stream. reflexivity.
Qed.

Lemma stream_prefix pre : forall ev post,
  forallb keeps_streaming pre = true -> keeps_streaming ev = false ->
  stream_candidates (pre ++ ev :: post) = stream_candidates pre /\
  stream_end (pre ++ ev :: post) = stream_end [ev].
Proof.
  induction pre as [|c pre IH]; intros ev post Hpre Hev.
  - destruct ev; try discriminate; split; reflexivity.
  - cbn [forallb] in Hpre. apply andb_prop in Hpre as [Hc Hpre].
    destruct (IH ev post Hpre Hev) as [I1 I2].
    destruct c as [m d| | | |]; try discriminate; cbn [app stream_candidates stream_end];
      rewrite ?I1, ?I2; split; reflexivity.
Qed.

(** X24: every session of [start_monitoring] has one shape, whatever
    the stream and the callback do.  Its deliveries come first from the
    stream, one per parsed message up to the first stop request or the
    deadline; polling starts exactly when the streaming attempt raised
    (a failed connection, a refused or missing acknowledgement, a
    timeout), at most once, and after it nothing comes from the stream;
    when the stream loop returned after a stop request, or is still
    waiting, no polling happens.  The state the callback works on is the
    result of the logged deliveries, in order. *)
Theorem session_has_one_shape :
  forall self setup ws_events poll_events s,
    let r := start_monitoring self cb setup ws_events poll_events s in
    exists polled,
      log (snd r)
      = StreamingStarted
          :: map DeliveredFromStream (attempt_candidates setup ws_events) ++ polled /\
      match attempt_end setup ws_events with
      | Raised _ =>
          exists ending,
            polled = PollingStarted
                       :: map DeliveredFromPoll (poll_candidates poll_events 0) ++ ending /\
            (ending = [] \/ ending = [PollingCompleted])
      | other => polled = [] /\ fst r = other
      end /\
      filter is_streaming polled = [] /\
      (List.length (filter is_polling_started (log (snd r))) <= 1)%nat /\
      cb_state (snd r) = after_deliveries cb (deliveries (log (snd r))) s.
Proof.
  intros self setup ws poll s. cbv zeta.
  destruct (start_monitoring_spec self setup ws poll s) as (polled & Hlog & Hshape & Hst).
  exists polled. split; [exact Hlog|]. split; [exact Hshape|].
  assert (Hp : forall l, filter is_polling_started (map DeliveredFromPoll l) = []).
  { induction l; cbn; auto. }
  assert (Hq : forall l, filter is_polling_started (map DeliveredFromStream l) = []).
  { induction l; cbn; auto. }
  assert (Hs : forall l, filter is_streaming (map DeliveredFromPoll l) = []).
  { induction l; cbn; auto. }
  assert (Hpolled : filter is_streaming polled = [] /\
                    (List.length (filter is_polling_started polled) <= 1)%nat).
  { destruct (attempt_end setup ws) as [[]|e|].
    - destruct Hshape as [-> _]. split; [reflexivity | cbn; lia].
    - destruct Hshape as (ending & -> & Hend).
      cbn [filter is_streaming is_polling_started List.length].
      rewrite !filter_app, Hs, Hp.
      destruct Hend as [->| ->]; split; cbn; auto.
    - destruct Hshape as [-> _]. split; [reflexivity | cbn; lia]. }
  destruct Hpolled as [H1 H2].
  split; [exact H1|]. split; [|exact Hst].
  rewrite Hlog. cbn [filter is_polling_started]. rewrite filter_app, Hq. exact H2.
Qed.

(** X25: a stop request during streaming ends the session without any
    fallback.  When the subscription was acknowledged and a stop request
    comes before the deadline, [start_monitoring] returns normally; the
    callback has received the candidates streamed before the request and
    nothing else, polling never starts, and what follows the request,
    in the stream or in the polling inputs, has no effect. *)
Theorem stop_during_streaming_ends_the_session :
  forall self pre post poll_events s,
    forallb keeps_streaming pre = true ->
    let r := start_monitoring self cb AckResult (pre ++ StopRequested :: post)
                              poll_events s in
    fst r = Done tt /\
    log (snd r) = StreamingStarted :: map DeliveredFromStream (stream_candidates pre) /\
    cb_state (snd r) = after_deliveries cb (stream_candidates pre) s.
Proof.
  intros self pre post poll s Hpre. cbv zeta.
  destruct (start_monitoring_spec self AckResult (pre ++ StopRequested :: post) poll s)
    as (polled & Hlog & Hshape & Hst).
  destruct (stream_prefix pre StopRequested post Hpre eq_refl) as [Hc He].
  cbn [attempt_candidates attempt_end] in Hlog, Hshape.
  rewrite He in Hshape. cbn [stream_end] in Hshape. destruct Hshape as [-> Hout].
  rewrite Hc, app_nil_r in Hlog.
  split; [exact Hout|]. split; [exact Hlog|].
  rewrite Hst, Hlog. cbn [deliveries]. rewrite deliveries_stream. reflexivity.
Qed.

(** X26: the deadline of the streaming attempt applies to a stream that
    works.  When the subscription was acknowledged and the deadline
    comes before any stop request, the session leaves the stream and
    starts polling, however many candidates the stream has delivered
    until then: the log holds those deliveries, then the start of
    polling and the candidates of the polling loop. *)
Theorem deadline_abandons_a_delivering_stream :
  forall self pre post poll_events s,
    forallb keeps_streaming pre = true ->
    let r := start_monitoring self cb AckResult (pre ++ Deadline :: post) poll_events s in
    exists ending,
      log (snd r)
      = StreamingStarted
          :: map DeliveredFromStream (stream_candidates pre)
          ++ PollingStarted
          :: map DeliveredFromPoll (poll_candidates poll_events 0) ++ ending /\
      (ending = [] \/ ending = [PollingCompleted]) /\
      cb_state (snd r)
      = after_deliveries cb (stream_candidates pre ++ poll_candidates poll_events 0) s.
Proof.
  intros self pre post poll s Hpre. cbv zeta.
  destruct (start_monitoring_spec self AckResult (pre ++ Deadline :: post) poll s)
    as (polled & Hlog & Hshape & Hst).
  destruct (stream_prefix pre Deadline post Hpre eq_refl) as [Hc He].
  cbn [attempt_candidates attempt_end] in Hlog, Hshape.
  rewrite He in Hshape. cbn [stream_end] in Hshape.
  destruct Hshape as (ending & -> & Hend).
  rewrite Hc in Hlog. exists ending. split; [exact Hlog|]. split; [exact Hend|].
  rewrite Hst, Hlog.
  change (StreamingStarted :: map DeliveredFromStream (stream_candidates pre)
            ++ PollingStarted :: map DeliveredFromPoll (poll_candidates poll 0) ++ ending)
    with ([StreamingStarted] ++ map DeliveredFromStream (stream_candidates pre)
            ++ [PollingStarted] ++ map DeliveredFromPoll (poll_candidates poll 0) ++ ending).
  rewrite !deliveries_app, deliveries_stream, deliveries_poll.
  assert (Hd : deliveries ending = []) by (destruct Hend as [->| ->]; reflexivity).
  rewrite Hd. cbn [deliveries app]. rewrite app_nil_r. reflexivity.
Qed.

(** X27: a stop request, or an interrupt, ends the polling loop.  With
    monitoring on and a callback registered, [_polling_monitoring]
    returns normally at the first of them: the candidates generated
    before it have been delivered, in order, the log closes with the
    completion mark, and the turns that follow it are never run. *)
Theorem stop_ends_polling :
  forall (x : session S) pre ev post,
    forallb is_cycle pre = true -> is_cycle ev = false ->
    is_monitoring (monitor x) = true ->
    opportunity_callback (monitor x) = Some cb ->
    let r := _polling_monitoring (pre ++ ev :: post) x in
    fst r = Done tt /\
    log (snd r)
    = log x ++ PollingStarted :: map DeliveredFromPoll (poll_candidates pre 0)
            ++ [PollingCompleted] /\
    cb_state (snd r) = after_deliveries cb (poll_candidates pre 0) (cb_state x).
Proof.
  intros x pre ev post Hpre Hev Hon Hcb. cbv zeta. unfold _polling_monitoring.
  destruct (polling_loop_stops pre ev post 0 0 (note PollingStarted x) Hpre Hev Hon Hcb)
    as (H1 & H2 & H3).
  split; [exact H1|]. split; [|exact H3].
  rewrite H2. cbn [note log]. rewrite <- app_assoc. reflexivity.
Qed.

End Sessions.

Lemma stop_during_streaming_ends_the_session_witness :
  fst (start_monitoring (init nat) (fun _ n => (Datatypes.S n, None)) AckResult
         ([Recv (ResultValue true) sample_parse; RecvTimeout]
            ++ StopRequested :: [Recv (ResultValue true) sample_parse])
         FeedSpec.sample_polls 0%nat)
  = Done tt.
Proof.
  exact (proj1 (stop_during_streaming_ends_the_session nat (fun _ n => (Datatypes.S n, None))
                  (init nat) [Recv (ResultValue true) sample_parse; RecvTimeout]
                  [Recv (ResultValue true) sample_parse] FeedSpec.sample_polls 0%nat
                  eq_refl)).
Defined.

Lemma deadline_abandons_a_delivering_stream_witness :
  exists ending,
    log (snd (start_monitoring (init nat) (fun _ n => (Datatypes.S n, None)) AckResult
                ([Recv (ResultValue true) sample_parse] ++ Deadline :: [])
                FeedSpec.sample_polls 0%nat))
    = StreamingStarted
        :: map DeliveredFromStream (stream_candidates [Recv (ResultValue true) sample_parse])
        ++ PollingStarted
        :: map DeliveredFromPoll (poll_candidates FeedSpec.sample_polls 0) ++ ending.
Proof.
  destruct (deadline_abandons_a_delivering_stream nat (fun _ n => (Datatypes.S n, None))
              (init nat) [Recv (ResultValue true) sample_parse] []
              FeedSpec.sample_polls 0%nat eq_refl) as (ending & H & _).
  exists ending. exact H.
Defined.

Lemma stop_ends_polling_witness :
  fst (_polling_monitoring
         ([Cycle (FeedSpec.sample_draws (literal 9 1));
           Cycle (FeedSpec.sample_draws (literal 1 1))]
            ++ PollStop :: FeedSpec.sample_polls)
         {| monitor := {| is_monitoring := true;
                          opportunity_callback := Some (fun _ n => (Datatypes.S n, None));
                          connection_attempts := 0;
                          max_connection_attempts := 3 |};
            cb_state := 0%nat;
            log := [] |})
  = Done tt.
Proof.
  exact (proj1 (stop_ends_polling nat (fun _ n => (Datatypes.S n, None))
                  {| monitor := {| is_monitoring := true;
                                   opportunity_callback :=
                                     Some (fun _ n => (Datatypes.S n, None));
                                   connection_attempts := 0;
                                   max_connection_attempts := 3 |};
                     cb_state := 0%nat;
                     log := [] |}
                  [Cycle (FeedSpec.sample_draws (literal 9 1));
                   Cycle (FeedSpec.sample_draws (literal 1 1))]
                  PollStop FeedSpec.sample_polls eq_refl eq_refl eq_refl eq_refl)).
Defined.

End FeedRunFacts.

(* ================================================================== *)
(** ** The feed driving the engine *)
(* ================================================================== *)

Module RealMonitoringFacts.

Import Settings MempoolMonitor SandwichEngine FeedSpec FeedRunSpec EngineRunSpec.
Import HandlerFacts FeedRunFacts.

#[local] Open Scope Z_scope.

Lemma real_callback_run settings envs candidates : forall self calls,
  after_deliveries (real_callback settings envs) candidates (self, calls)
  = (handle_all settings self
       (combine candidates (map envs (seq calls (List.length candidates)))),
     (calls + List.length candidates)%nat).
Proof.
  unfold after_deliveries.
  induction candidates as [|p rest IH]; intros self calls.
  - cbn. rewrite Nat.add_0_r. reflexivity.
  - cbn [fold_left List.length seq map combine handle_all real_callback fst].
    rewrite IH. f_equal. lia.
Qed.

(** X28: [start_real_monitoring] needs a loaded wallet: without one it
    raises [AttributeError] before the feed is started.  With one, the
    engine's handler is called once for every candidate the feed
    delivers, from the stream or from polling: at the end of any session
    the detected counter has grown by the number of deliveries, the
    attempted counter by at most that, and successes by no more than
    attempts. *)
Theorem real_monitoring_counts_every_delivery :
  forall settings self wallet_manager envs setup ws_events poll_events,
    (WalletManager.keypair wallet_manager = None ->
     start_real_monitoring settings self wallet_manager envs setup ws_events poll_events
     = Raise AttributeError) /\
    (WalletManager.keypair wallet_manager <> None ->
     exists r,
       start_real_monitoring settings self wallet_manager envs setup ws_events poll_events
       = Ok r /\
       let engine := fst (cb_state (snd r)) in
       let delivered := List.length (deliveries (log (snd r))) in
       snd (cb_state (snd r)) = delivered /\
       opportunities_detected (stats engine)
       = opportunities_detected (stats self) + Z.of_nat delivered /\
       0 <= successful_sandwiches (stats engine) - successful_sandwiches (stats self)
         <= sandwiches_attempted (stats engine) - sandwiches_attempted (stats self) /\
       sandwiches_attempted (stats engine) - sandwiches_attempted (stats self)
         <= Z.of_nat delivered).
Proof.
  intros settings self wallet envs setup ws poll. unfold start_real_monitoring.
  destruct (WalletManager.keypair wallet) as [kp|]; split; try congruence.
  intros _. eexists. split; [reflexivity|]. cbv zeta.
  destruct (start_monitoring_spec (SandwichEngine * nat)%type (real_callback settings envs)
              (MempoolMonitor.init (SandwichEngine * nat)%type) setup ws poll (self, 0%nat))
    as (_ & _ & _ & Hst).
  rewrite Hst, real_callback_run. cbn [fst snd].
  set (ds := deliveries _).
  pose proof (handle_all_counts settings
                (combine ds (map envs (seq 0 (List.length ds)))) self) as H.
  cbv zeta in H.
  assert (Hlen : List.length (combine ds (map envs (seq 0 (List.length ds))))
                 = List.length ds).
  { rewrite length_combine, length_map, length_seq. apply Nat.min_id. }
  rewrite Hlen in H. destruct H as (H1 & H2 & H3 & _).
  repeat split; try lia.
Qed.

End RealMonitoringFacts.
